(** * Partner balance ledger and transaction approval workflow

    A shallow embedding of the trigger functions, table constraints and
    client handlers that keep partner balances in step with daily sales,
    business transactions and personal transactions.

    Sources embedded here:
    - [update_partner_balance_from_sales]   (daily_sales AFTER trigger)
    - [update_business_partner_balances]    (partner_transactions AFTER trigger)
    - [update_personal_balances]            (personal_transactions AFTER trigger)
    - [handle_business_transaction_approval], [handle_transaction_approval]
                                            (BEFORE UPDATE triggers)
    - [valid_business_approval_status], [valid_approval_status],
      [different_partners], the [date] UNIQUE constraint (table constraints)
    - the balance recalculation DO block    ([recalculate_balances])
    - the row-level security policies of [partners], [daily_sales],
      [partner_transactions], [personal_transactions], [personal_balances]
    - [checkDateExists], [handleSubmit], [handleDelete] (DailySales.tsx)
    - [handleApproveTransaction]            (DailySales.tsx, partners page)
    - [handleTransactionSubmit], [handleDeleteTransaction] (Partners.tsx)
    - [handleTransactionSubmit], [handleTransactionApproval],
      [processedBalances]                   (PersonalSpace.tsx)

    Conventions.  [numeric] values are exact decimals; they are embedded as
    integers counting a unit fine enough for the values at hand, so that
    [+], [-] and comparison in SQL are those of Z.  JavaScript adds numbers
    as IEEE doubles: a sum computed by a page is not computed here, the
    addition is a parameter of the handler that uses it.  A [uuid] is its
    128-bit value, ordered as PostgreSQL orders uuids.  A nullable column
    is an [option]; SQL conditions over nullable columns are three-valued
    (module [Sql]).  Tables are finite maps from the primary key to the
    remaining columns.

    Every statement is issued by a [role].  The trigger functions are not
    SECURITY DEFINER: what they write is written with the rights of the
    role that issued the statement, under the policies of the table
    written.  The set of partners is fixed: statements insert, update and
    delete sales and transactions only. *)

From stdpp Require Import gmap strings list fin_maps.

Local Open Scope Z_scope.

(** ** SQL three-valued logic *)

Module Sql.

(** TRUE, FALSE and NULL. *)
Definition tv := option bool.

Definition AND (a b : tv) : tv :=
  match a, b with
  | Some false, _ | _, Some false => Some false
  | Some true, Some true => Some true
  | _, _ => None
  end.

Definition OR (a b : tv) : tv :=
  match a, b with
  | Some true, _ | _, Some true => Some true
  | Some false, Some false => Some false
  | _, _ => None
  end.

Definition NOT (a : tv) : tv := negb <$> a.

(** [x = y] and [x != y] on nullable operands. *)
Definition eq {A} `{EqDecision A} (x y : option A) : tv :=
  match x, y with
  | Some a, Some b => Some (bool_decide (a = b))
  | _, _ => None
  end.

Definition neq {A} `{EqDecision A} (x y : option A) : tv := NOT (eq x y).

Definition IS_NULL {A} (x : option A) : tv :=
  Some (match x with None => true | Some _ => false end).

Definition IS_NOT_NULL {A} (x : option A) : tv := NOT (IS_NULL x).

Definition IS_DISTINCT_FROM {A} `{EqDecision A} (x y : option A) : tv :=
  Some (negb (bool_decide (x = y))).

(** An [IF] or [WHERE] takes a row only when the condition is TRUE. *)
Definition holds (c : tv) : bool :=
  match c with Some true => true | _ => false end.

(** A [CHECK] constraint rejects a row only when the condition is FALSE. *)
Definition check (c : tv) : bool :=
  match c with Some false => false | _ => true end.

(** [SUM] over a result set is NULL when the set is empty. *)
Definition SUM (l : list Z) : option Z :=
  match l with
  | [] => None
  | _ => Some (foldr Z.add 0 l)
  end.

Definition COALESCE (x : option Z) (d : Z) : Z := default d x.

End Sql.

(** ** Rows *)

Definition uuid := N.
Definition sqldate := N.
Definition timestamptz := N.

Inductive status_t := pending | approved | rejected.

Global Instance status_t_eq_dec : EqDecision status_t.
Proof. solve_decision. Defined.

(** A row of [daily_sales] (primary key [id] is the key of the table). *)
Record daily_sale := {
  date : sqldate;
  total_amount : Z;
  online_amount : Z;
  cash_amount : Z;
  notes : option string;
  partner_id : option uuid;
  created_by : uuid
}.

(** A row of [partner_transactions] or of [personal_transactions]. *)
Record transaction := {
  from_partner_id : uuid;
  to_partner_id : uuid;
  amount : Z;
  transaction_date : sqldate;
  status : option status_t;
  approved_by : option uuid;
  approved_at : option timestamptz;
  rejection_reason : option string
}.

(** What a row-level trigger sees: [TG_OP] with [OLD] and [NEW]. *)
Inductive tg_event (R : Type) :=
| INSERT (NEW : R)
| UPDATE (OLD NEW : R)
| DELETE (OLD : R).
Arguments INSERT {R} NEW.
Arguments UPDATE {R} OLD NEW.
Arguments DELETE {R} OLD.

(** The database: [partners] holds [current_balance] per partner id,
    [personal_balances] holds [balance_amount] per
    [(partner_a_id, partner_b_id)]. *)
Record db := {
  partners : gmap uuid Z;
  daily_sales : gmap uuid daily_sale;
  partner_transactions : gmap uuid transaction;
  personal_transactions : gmap uuid transaction;
  personal_balances : gmap (uuid * uuid) Z
}.

(** ** Roles and row-level security *)

(** Who issues a statement: the owner of the tables (migrations, the SQL
    editor), for whom row-level security is not applied; the page of a
    visitor who is not signed in; or the page of a signed-in partner, for
    whom [auth.uid()] is the partner's id. *)
Inductive role :=
| table_owner
| anon
| authenticated (uid : uuid).

(** All policies are [TO authenticated] and row-level security is enabled
    on every table: [anon] passes none.  A row passes a policy when the
    expression is TRUE, not when it is FALSE or NULL.  A policy is given
    here as a function of [auth.uid()]. *)
Definition admits (c : role) (policy : uuid → Sql.tv) : bool :=
  match c with
  | table_owner => true
  | anon => false
  | authenticated uid => Sql.holds (policy uid)
  end.

(** [CREATE POLICY "Partners can update their own data" ON partners
    FOR UPDATE TO authenticated USING (auth.uid() = id)]. *)
Definition partners_update_policy (id : uuid) (auth_uid : uuid) : Sql.tv :=
  Sql.eq (Some auth_uid) (Some id).

(** May role [c] update the row of partner [p]? *)
Definition may_update (c : role) (p : uuid) : bool :=
  admits c (partners_update_policy p).

(** ** Balance triggers *)

(** [UPDATE partners SET current_balance = set current_balance WHERE id = p],
    issued inside a trigger function on behalf of role [c]: a row that the
    UPDATE policy of [partners] hides from [c] is not updated, and that is
    no error. *)
Definition update_partners (c : role) (set : Z → Z) (p : uuid) (t : gmap uuid Z)
    : gmap uuid Z :=
  if may_update c p then alter set p t else t.

(** [update_partner_balance_from_sales()]. *)
Definition update_partner_balance_from_sales
    (c : role) (ev : tg_event daily_sale) (t : gmap uuid Z) : gmap uuid Z :=
  match ev with
  | INSERT NEW =>
      match partner_id NEW with
      | Some p => update_partners c (λ current_balance, current_balance + total_amount NEW) p t
      | None => t
      end
  | UPDATE OLD NEW =>
      if Sql.holds (Sql.OR (Sql.IS_DISTINCT_FROM (partner_id OLD) (partner_id NEW))
                           (Sql.neq (Some (total_amount OLD)) (Some (total_amount NEW))))
      then
        let t1 := match partner_id OLD with
                  | Some p => update_partners c (λ current_balance, current_balance - total_amount OLD) p t
                  | None => t
                  end in
        match partner_id NEW with
        | Some p => update_partners c (λ current_balance, current_balance + total_amount NEW) p t1
        | None => t1
        end
      else t
  | DELETE OLD =>
      match partner_id OLD with
      | Some p => update_partners c (λ current_balance, current_balance - total_amount OLD) p t
      | None => t
      end
  end.

Definition status_is (r : transaction) (s : status_t) : Sql.tv :=
  Sql.eq (status r) (Some s).

Definition status_is_not (r : transaction) (s : status_t) : Sql.tv :=
  Sql.neq (status r) (Some s).

(** [update_business_partner_balances()]. *)
Definition update_business_partner_balances
    (c : role) (ev : tg_event transaction) (t : gmap uuid Z) : gmap uuid Z :=
  match ev with
  | INSERT NEW =>
      if Sql.holds (status_is NEW approved) then
        update_partners c (λ current_balance, current_balance + amount NEW) (to_partner_id NEW)
          (update_partners c (λ current_balance, current_balance - amount NEW) (from_partner_id NEW) t)
      else t
  | DELETE OLD =>
      if Sql.holds (status_is OLD approved) then
        update_partners c (λ current_balance, current_balance - amount OLD) (to_partner_id OLD)
          (update_partners c (λ current_balance, current_balance + amount OLD) (from_partner_id OLD) t)
      else t
  | UPDATE OLD NEW =>
      let t1 :=
        if Sql.holds (Sql.AND (status_is OLD approved) (status_is_not NEW approved)) then
          update_partners c (λ current_balance, current_balance - amount OLD) (to_partner_id OLD)
            (update_partners c (λ current_balance, current_balance + amount OLD) (from_partner_id OLD) t)
        else t in
      let t2 :=
        if Sql.holds (Sql.AND (status_is_not OLD approved) (status_is NEW approved)) then
          update_partners c (λ current_balance, current_balance + amount NEW) (to_partner_id NEW)
            (update_partners c (λ current_balance, current_balance - amount NEW) (from_partner_id NEW) t1)
        else t1 in
      if Sql.holds (Sql.AND (Sql.AND (status_is OLD approved) (status_is NEW approved))
                            (Sql.neq (Some (amount OLD)) (Some (amount NEW)))) then
        update_partners c (λ current_balance, current_balance - amount OLD + amount NEW) (to_partner_id NEW)
          (update_partners c (λ current_balance, current_balance + amount OLD - amount NEW) (from_partner_id NEW) t2)
      else t2
  end.

(** [LEAST(from, to)], [GREATEST(from, to)] and the signed amount
    [CASE WHEN from < to THEN -amount ELSE amount END]. *)
Definition pair_of (r : transaction) : uuid * uuid :=
  (N.min (from_partner_id r) (to_partner_id r), N.max (from_partner_id r) (to_partner_id r)).

Definition signed_amount (r : transaction) : Z :=
  if (from_partner_id r <? to_partner_id r)%N then - amount r else amount r.

(** [CREATE POLICY "Partners can manage their personal balances" ON
    personal_balances FOR ALL TO authenticated
    USING (auth.uid() = partner_a_id OR auth.uid() = partner_b_id)]. *)
Definition personal_balances_policy (k : uuid * uuid) (auth_uid : uuid) : Sql.tv :=
  Sql.OR (Sql.eq (Some auth_uid) (Some k.1)) (Sql.eq (Some auth_uid) (Some k.2)).

(** [INSERT INTO personal_balances ... ON CONFLICT (partner_a_id, partner_b_id)
    DO UPDATE SET balance_amount = personal_balances.balance_amount + d].
    The role that issued the statement is one of the two partners of every
    pair the trigger writes (lemma [trigger_pairs_admitted] below), so the
    policy of [personal_balances] lets these writes through. *)
Definition upsert_personal_balance (k : uuid * uuid) (d : Z)
    (t : gmap (uuid * uuid) Z) : gmap (uuid * uuid) Z :=
  match t !! k with
  | Some balance_amount => <[k := balance_amount + d]> t
  | None => <[k := d]> t
  end.

(** [UPDATE personal_balances SET balance_amount = set balance_amount
    WHERE partner_a_id = a AND partner_b_id = b]. *)
Definition update_personal_balance (set : Z → Z) (k : uuid * uuid)
    (t : gmap (uuid * uuid) Z) : gmap (uuid * uuid) Z :=
  alter set k t.

(** [update_personal_balances()], the version gated by approval. *)
Definition update_personal_balances
    (ev : tg_event transaction) (t : gmap (uuid * uuid) Z) : gmap (uuid * uuid) Z :=
  match ev with
  | INSERT NEW =>
      if Sql.holds (status_is NEW approved) then
        upsert_personal_balance (pair_of NEW) (signed_amount NEW) t
      else t
  | DELETE OLD =>
      if Sql.holds (status_is OLD approved) then
        update_personal_balance (λ balance_amount, balance_amount - signed_amount OLD) (pair_of OLD) t
      else t
  | UPDATE OLD NEW =>
      let t1 :=
        if Sql.holds (Sql.AND (status_is OLD approved) (status_is_not NEW approved)) then
          update_personal_balance (λ balance_amount, balance_amount - signed_amount OLD) (pair_of OLD) t
        else t in
      let t2 :=
        if Sql.holds (Sql.AND (status_is_not OLD approved) (status_is NEW approved)) then
          upsert_personal_balance (pair_of NEW) (signed_amount NEW) t1
        else t1 in
      if Sql.holds (Sql.AND (Sql.AND (status_is OLD approved) (status_is NEW approved))
                            (Sql.neq (Some (amount OLD)) (Some (amount NEW)))) then
        update_personal_balance
          (λ balance_amount, balance_amount - signed_amount OLD + signed_amount NEW) (pair_of OLD) t2
      else t2
  end.

(** ** Approval triggers and table constraints *)

Definition set_approved_at (v : option timestamptz) (r : transaction) : transaction :=
  {| from_partner_id := from_partner_id r; to_partner_id := to_partner_id r;
     amount := amount r; transaction_date := transaction_date r;
     status := status r; approved_by := approved_by r;
     approved_at := v; rejection_reason := rejection_reason r |}.

(** [NEW.approved_by = NULL; NEW.approved_at = NULL; NEW.rejection_reason = NULL]. *)
Definition clear_approval (r : transaction) : transaction :=
  {| from_partner_id := from_partner_id r; to_partner_id := to_partner_id r;
     amount := amount r; transaction_date := transaction_date r;
     status := status r; approved_by := None;
     approved_at := None; rejection_reason := None |}.

(** [handle_business_transaction_approval()], BEFORE UPDATE on
    [partner_transactions]; the result is the row that is stored. *)
Definition handle_business_transaction_approval
    (now : timestamptz) (OLD NEW : transaction) : transaction :=
  let NEW1 :=
    if Sql.holds (Sql.AND (status_is NEW approved)
                          (Sql.OR (Sql.IS_NULL (status OLD)) (status_is_not OLD approved)))
    then set_approved_at (Some now) NEW else NEW in
  if Sql.holds (status_is NEW1 pending) then clear_approval NEW1 else NEW1.

(** [handle_transaction_approval()], BEFORE UPDATE on
    [personal_transactions]. *)
Definition handle_transaction_approval
    (now : timestamptz) (OLD NEW : transaction) : transaction :=
  let NEW1 :=
    if Sql.holds (Sql.AND (status_is NEW approved)
                          (Sql.OR (Sql.IS_NULL (status OLD)) (status_is_not OLD approved)))
    then set_approved_at (Some now) NEW else NEW in
  if Sql.holds (status_is NEW1 pending) then clear_approval NEW1 else NEW1.

(** [CONSTRAINT valid_business_approval_status CHECK (...)]. *)
Definition valid_business_approval_status (r : transaction) : Sql.tv :=
  Sql.OR
    (Sql.OR
       (Sql.AND (Sql.AND (status_is r pending) (Sql.IS_NULL (approved_by r)))
                (Sql.IS_NULL (approved_at r)))
       (Sql.AND (Sql.AND (status_is r approved) (Sql.IS_NOT_NULL (approved_by r)))
                (Sql.IS_NOT_NULL (approved_at r))))
    (Sql.AND (status_is r rejected) (Sql.IS_NOT_NULL (approved_by r))).

(** [CONSTRAINT valid_approval_status CHECK (...)] on [personal_transactions]. *)
Definition valid_approval_status (r : transaction) : Sql.tv :=
  Sql.OR
    (Sql.OR
       (Sql.AND (Sql.AND (status_is r pending) (Sql.IS_NULL (approved_by r)))
                (Sql.IS_NULL (approved_at r)))
       (Sql.AND (Sql.AND (status_is r approved) (Sql.IS_NOT_NULL (approved_by r)))
                (Sql.IS_NOT_NULL (approved_at r))))
    (Sql.AND (status_is r rejected) (Sql.IS_NOT_NULL (approved_by r))).

(** [CONSTRAINT different_partners CHECK (from_partner_id != to_partner_id)]
    (and [different_partners_personal], with [<>]). *)
Definition different_partners (r : transaction) : Sql.tv :=
  Sql.neq (Some (from_partner_id r)) (Some (to_partner_id r)).

(** ** Statements *)

Inductive sql_error :=
| unique_violation
| foreign_key_violation
| check_violation
| insufficient_privilege.

Inductive result (A : Type) :=
| Ok (a : A)
| Err (e : sql_error).
Arguments Ok {A} a.
Arguments Err {A} e.

Global Instance result_ret : MRet result := λ A, Ok.
Global Instance result_bind : MBind result := λ A B k m,
  match m with Ok a => k a | Err e => Err e end.

Definition require (b : bool) (e : sql_error) : result () :=
  if b then Ok () else Err e.

Inductive domain := Business | Personal.

Global Instance domain_eq_dec : EqDecision domain.
Proof. solve_decision. Defined.

Definition tx_table (d : domain) (st : db) : gmap uuid transaction :=
  match d with
  | Business => partner_transactions st
  | Personal => personal_transactions st
  end.

Definition set_partners (t : gmap uuid Z) (st : db) : db :=
  {| partners := t; daily_sales := daily_sales st;
     partner_transactions := partner_transactions st;
     personal_transactions := personal_transactions st;
     personal_balances := personal_balances st |}.

Definition set_daily_sales (t : gmap uuid daily_sale) (st : db) : db :=
  {| partners := partners st; daily_sales := t;
     partner_transactions := partner_transactions st;
     personal_transactions := personal_transactions st;
     personal_balances := personal_balances st |}.

Definition set_personal_balances (t : gmap (uuid * uuid) Z) (st : db) : db :=
  {| partners := partners st; daily_sales := daily_sales st;
     partner_transactions := partner_transactions st;
     personal_transactions := personal_transactions st;
     personal_balances := t |}.

Definition set_tx_table (d : domain) (t : gmap uuid transaction) (st : db) : db :=
  match d with
  | Business =>
      {| partners := partners st; daily_sales := daily_sales st;
         partner_transactions := t;
         personal_transactions := personal_transactions st;
         personal_balances := personal_balances st |}
  | Personal =>
      {| partners := partners st; daily_sales := daily_sales st;
         partner_transactions := partner_transactions st;
         personal_transactions := t;
         personal_balances := personal_balances st |}
  end.

(** [REFERENCES partners(id)]. *)
Definition references_partner (p : option uuid) (st : db) : bool :=
  match p with
  | Some p => bool_decide (is_Some (partners st !! p))
  | None => true
  end.

(** [date date UNIQUE NOT NULL]: is [d] already the date of a row of [t]? *)
Definition date_taken (d : sqldate) (t : gmap uuid daily_sale) : bool :=
  bool_decide (map_Exists (λ _ ds, date ds = d) t).

Definition daily_sales_constraints (NEW : daily_sale)
    (others : gmap uuid daily_sale) (st : db) : result () :=
  require (negb (date_taken (date NEW) others)) unique_violation;;
  require (references_partner (partner_id NEW) st
           && references_partner (Some (created_by NEW)) st) foreign_key_violation.

Definition transaction_constraints (d : domain) (NEW : transaction) (st : db) : result () :=
  require (references_partner (Some (from_partner_id NEW)) st
           && references_partner (Some (to_partner_id NEW)) st
           && references_partner (approved_by NEW) st) foreign_key_violation;;
  require (Sql.check (different_partners NEW)) check_violation;;
  match d with
  | Business =>
      require (Sql.check (valid_business_approval_status NEW)) check_violation
  | Personal =>
      require (bool_decide (amount NEW > 0)) check_violation;;
      require (Sql.check (valid_approval_status NEW)) check_violation
  end.

(** The AFTER triggers of the two transaction tables. *)
Definition transaction_balance_update (c : role) (d : domain)
    (ev : tg_event transaction) (st : db) : db :=
  match d with
  | Business => set_partners (update_business_partner_balances c ev (partners st)) st
  | Personal => set_personal_balances (update_personal_balances ev (personal_balances st)) st
  end.

(** The BEFORE UPDATE triggers of the two transaction tables. *)
Definition transaction_approval_handler (d : domain)
    (now : timestamptz) (OLD NEW : transaction) : transaction :=
  match d with
  | Business => handle_business_transaction_approval now OLD NEW
  | Personal => handle_transaction_approval now OLD NEW
  end.

(** A single-row statement addressed by primary key.  An UPDATE gives the
    new values of all columns but the key; an UPDATE or DELETE whose key
    matches no row changes nothing and is no error. *)
Inductive statement :=
| InsertSale (id : uuid) (NEW : daily_sale)
| UpdateSale (id : uuid) (NEW : daily_sale)
| DeleteSale (id : uuid)
| InsertTx (d : domain) (id : uuid) (NEW : transaction)
| UpdateTx (d : domain) (id : uuid) (NEW : transaction)
| DeleteTx (d : domain) (id : uuid).

(** What a statement does once row-level security has let it through:
    constraints, the write, the AFTER trigger. *)
Definition perform (c : role) (now : timestamptz) (s : statement) (st : db) : result db :=
  match s with
  | InsertSale id NEW =>
      require (bool_decide (daily_sales st !! id = None)) unique_violation;;
      daily_sales_constraints NEW (daily_sales st) st;;
      Ok (set_partners (update_partner_balance_from_sales c (INSERT NEW) (partners st))
            (set_daily_sales (<[id := NEW]> (daily_sales st)) st))
  | UpdateSale id NEW =>
      match daily_sales st !! id with
      | None => Ok st
      | Some OLD =>
          daily_sales_constraints NEW (delete id (daily_sales st)) st;;
          Ok (set_partners (update_partner_balance_from_sales c (UPDATE OLD NEW) (partners st))
                (set_daily_sales (<[id := NEW]> (daily_sales st)) st))
      end
  | DeleteSale id =>
      match daily_sales st !! id with
      | None => Ok st
      | Some OLD =>
          Ok (set_partners (update_partner_balance_from_sales c (DELETE OLD) (partners st))
                (set_daily_sales (delete id (daily_sales st)) st))
      end
  | InsertTx d id NEW =>
      require (bool_decide (tx_table d st !! id = None)) unique_violation;;
      transaction_constraints d NEW st;;
      Ok (transaction_balance_update c d (INSERT NEW)
            (set_tx_table d (<[id := NEW]> (tx_table d st)) st))
  | UpdateTx d id NEW0 =>
      match tx_table d st !! id with
      | None => Ok st
      | Some OLD =>
          let NEW := transaction_approval_handler d now OLD NEW0 in
          transaction_constraints d NEW st;;
          Ok (transaction_balance_update c d (UPDATE OLD NEW)
                (set_tx_table d (<[id := NEW]> (tx_table d st)) st))
      end
  | DeleteTx d id =>
      match tx_table d st !! id with
      | None => Ok st
      | Some OLD =>
          Ok (transaction_balance_update c d (DELETE OLD)
                (set_tx_table d (delete id (tx_table d st)) st))
      end
  end.

(** The policies of the three tables that statements address.

    [daily_sales]: INSERT [WITH CHECK (auth.uid() = created_by)], UPDATE
    and DELETE [USING (auth.uid() = created_by)]. *)
Definition daily_sales_policy (r : daily_sale) (auth_uid : uuid) : Sql.tv :=
  Sql.eq (Some auth_uid) (Some (created_by r)).

(** [partner_transactions] and [personal_transactions]: INSERT
    [WITH CHECK (auth.uid() = from_partner_id OR auth.uid() = to_partner_id)],
    DELETE [USING] the same. *)
Definition involved_policy (r : transaction) (auth_uid : uuid) : Sql.tv :=
  Sql.OR (Sql.eq (Some auth_uid) (Some (from_partner_id r)))
         (Sql.eq (Some auth_uid) (Some (to_partner_id r))).

(** [partner_transactions] and [personal_transactions], FOR UPDATE (the
    policies of the approval migrations):
    [USING ((auth.uid() = from_partner_id AND status = 'pending') OR
            (auth.uid() = to_partner_id AND status = 'pending') OR
            (status = 'approved' AND (auth.uid() = from_partner_id OR
                                      auth.uid() = to_partner_id)))].
    One later migration restates the personal policy with a [WITH CHECK]
    over [OLD] and [NEW], which a policy expression cannot refer to; the
    migration that follows it is the same without that policy.  The
    policy above is taken to be the one in force. *)
Definition transaction_update_policy (r : transaction) (auth_uid : uuid) : Sql.tv :=
  Sql.OR
    (Sql.OR
       (Sql.AND (Sql.eq (Some auth_uid) (Some (from_partner_id r))) (status_is r pending))
       (Sql.AND (Sql.eq (Some auth_uid) (Some (to_partner_id r))) (status_is r pending)))
    (Sql.AND (status_is r approved)
             (Sql.OR (Sql.eq (Some auth_uid) (Some (from_partner_id r)))
                     (Sql.eq (Some auth_uid) (Some (to_partner_id r))))).

(** What row-level security makes of a statement. *)
Inductive verdict :=
| Allowed
| Filtered   (* the row is hidden from the role: no row is touched, no error *)
| Refused.   (* the new row violates the policy: the statement fails *)

(** An INSERT is checked against [WITH CHECK] on the new row.  An UPDATE
    or DELETE sees only the rows that pass [USING]; the UPDATE policies
    give no [WITH CHECK], so their [USING] expression is also checked on
    the new row, after the BEFORE UPDATE trigger has run.  The SELECT
    policies ask nothing more: they are [USING (true)], and on
    [personal_transactions] the expression of [involved_policy], which the
    UPDATE and DELETE policies imply. *)
Definition row_level_security (c : role) (now : timestamptz) (s : statement) (st : db)
    : verdict :=
  match s with
  | InsertSale id NEW =>
      if admits c (daily_sales_policy NEW) then Allowed else Refused
  | UpdateSale id NEW =>
      match daily_sales st !! id with
      | None => Filtered
      | Some OLD =>
          if admits c (daily_sales_policy OLD) then
            if admits c (daily_sales_policy NEW) then Allowed else Refused
          else Filtered
      end
  | DeleteSale id =>
      match daily_sales st !! id with
      | None => Filtered
      | Some OLD => if admits c (daily_sales_policy OLD) then Allowed else Filtered
      end
  | InsertTx d id NEW =>
      if admits c (involved_policy NEW) then Allowed else Refused
  | UpdateTx d id NEW0 =>
      match tx_table d st !! id with
      | None => Filtered
      | Some OLD =>
          if admits c (transaction_update_policy OLD) then
            if admits c (transaction_update_policy (transaction_approval_handler d now OLD NEW0))
            then Allowed else Refused
          else Filtered
      end
  | DeleteTx d id =>
      match tx_table d st !! id with
      | None => Filtered
      | Some OLD => if admits c (involved_policy OLD) then Allowed else Filtered
      end
  end.

(** A statement issued by role [c] at time [now]. *)
Definition exec (c : role) (now : timestamptz) (s : statement) (st : db) : result db :=
  match row_level_security c now s st with
  | Allowed => perform c now s st
  | Filtered => Ok st
  | Refused => Err insufficient_privilege
  end.

(** A failing statement is rolled back: the database is as before. *)
Definition step (st : db) (s : role * timestamptz * statement) : db :=
  match exec s.1.1 s.1.2 s.2 st with
  | Ok st' => st'
  | Err _ => st
  end.

Definition run (l : list (role * timestamptz * statement)) (st : db) : db :=
  foldl step st l.

(** ** Full recalculation of the balances *)

(** [SELECT COALESCE(SUM(ds.total_amount), 0) ... LEFT JOIN daily_sales ds
    ON ds.partner_id = p.id GROUP BY p.id], for partner [p]. *)
Definition total_sales (p : uuid) (sales : gmap uuid daily_sale) : Z :=
  Sql.COALESCE
    (Sql.SUM (total_amount <$>
       filter (λ ds, Sql.holds (Sql.eq (partner_id ds) (Some p)))
              (map_to_list sales).*2)) 0.

(** [COALESCE((SELECT SUM(CASE WHEN pt.to_partner_id = partners.id THEN pt.amount
    WHEN pt.from_partner_id = partners.id THEN -pt.amount ELSE 0 END)
    FROM partner_transactions pt
    WHERE (pt.from_partner_id = partners.id OR pt.to_partner_id = partners.id)
    AND pt.status = 'approved'), 0)]. *)
Definition approved_net (p : uuid) (txs : gmap uuid transaction) : Z :=
  Sql.COALESCE
    (Sql.SUM ((λ pt, if bool_decide (to_partner_id pt = p) then amount pt
                     else if bool_decide (from_partner_id pt = p) then - amount pt
                     else 0) <$>
       filter (λ pt, Sql.holds
                 (Sql.AND (Sql.OR (Sql.eq (Some (from_partner_id pt)) (Some p))
                                  (Sql.eq (Some (to_partner_id pt)) (Some p)))
                          (status_is pt approved)))
              (map_to_list txs).*2)) 0.

(** The DO block that recalculates all partner balances from sales and
    approved business transactions. *)
Definition recalculate_balances (st : db) : db :=
  let t0 := (λ _, 0) <$> partners st in
  let t1 := map_imap (λ p _, Some (total_sales p (daily_sales st))) t0 in
  let t2 := map_imap (λ p current_balance,
              Some (current_balance + approved_net p (partner_transactions st))) t1 in
  set_partners t2 st.

(** ** Client handlers *)

(** The role a page talks to the database as. *)
Definition session (user : option uuid) : role :=
  match user with
  | Some user_id => authenticated user_id
  | None => anon
  end.

Inductive handler_result :=
| Completed
| NotSignedIn
| DuplicateDateError
| FetchFailed              (* a [.single()] read that found no row *)
| Failed (e : sql_error).

(** [checkDateExists(date, excludeId)]: the rows with that date whose id is
    not [excludeId || ''].  With no [excludeId] the filter compares the
    uuid column [id] with the empty string: the query fails, [data] is
    null, and the answer is [false] whatever the table holds.  (A
    signed-in partner may read every row of [daily_sales].) *)
Definition checkDateExists (d : sqldate) (excludeId : option uuid) (st : db) : bool :=
  match excludeId with
  | None => false
  | Some excluded =>
      bool_decide (0 < length (filter (λ row, date row.2 = d ∧ row.1 ≠ excluded)
                                      (map_to_list (daily_sales st))))%nat
  end.

Record SalesForm := {
  form_date : sqldate;
  form_online_amount : Z;
  form_cash_amount : Z;
  form_notes : option string
}.

Section js_numbers.

(** [onlineAmount + cashAmount] in JavaScript, as the database reads the
    result.  Nothing is assumed of it. *)
Variable js_add : Z → Z → Z.

(** [handleSubmit(data)] of the daily sales page.  [editingId] is the row
    being edited, if any; [new_id] is the key the database generates for an
    inserted row.  The inserted row leaves [partner_id] to its default; the
    update leaves [partner_id] and [created_by] as they are. *)
Definition handleSubmit (user : option uuid) (now : timestamptz)
    (editingId : option uuid) (new_id : uuid) (data : SalesForm) (st : db)
    : handler_result * db :=
  match user with
  | None => (NotSignedIn, st)
  | Some user_id =>
      let onlineAmount := form_online_amount data in
      let cashAmount := form_cash_amount data in
      let totalAmount := js_add onlineAmount cashAmount in
      if checkDateExists (form_date data) editingId st then (DuplicateDateError, st)
      else
        let submit stmt :=
          match exec (authenticated user_id) now stmt st with
          | Ok st' => (Completed, st')
          | Err e => (Failed e, st)
          end in
        match editingId with
        | Some id =>
            match daily_sales st !! id with
            | Some OLD =>
                submit (UpdateSale id
                  {| date := form_date data; total_amount := totalAmount;
                     online_amount := onlineAmount; cash_amount := cashAmount;
                     notes := form_notes data;
                     partner_id := partner_id OLD; created_by := created_by OLD |})
            | None => (Completed, st)
            end
        | None =>
            submit (InsertSale new_id
              {| date := form_date data; total_amount := totalAmount;
                 online_amount := onlineAmount; cash_amount := cashAmount;
                 notes := form_notes data;
                 partner_id := None; created_by := user_id |})
        end
  end.

End js_numbers.

(** [handleDelete(id)], after the confirmation dialog. *)
Definition handleDelete (user : option uuid) (now : timestamptz) (id : uuid) (st : db)
    : handler_result * db :=
  match exec (session user) now (DeleteSale id) st with
  | Ok st' => (Completed, st')
  | Err e => (Failed e, st)
  end.

Inductive approval_action := approve | reject.

(** [handleTransactionApproval(transactionId, action, rejectionReason)]:
    sets [status] and [approved_by] (and [rejection_reason] when rejecting
    with a non-empty reason) on the personal transaction with that id. *)
Definition handleTransactionApproval (user : option uuid) (now : timestamptz)
    (transactionId : uuid) (action : approval_action)
    (rejectionReason : option string) (st : db) : handler_result * db :=
  match user with
  | None => (NotSignedIn, st)
  | Some user_id =>
      match personal_transactions st !! transactionId with
      | None => (Completed, st)
      | Some OLD =>
          let reason :=
            match action, rejectionReason with
            | reject, Some (String c s) => Some (String c s)
            | _, _ => rejection_reason OLD
            end in
          let updateData :=
            {| from_partner_id := from_partner_id OLD;
               to_partner_id := to_partner_id OLD;
               amount := amount OLD; transaction_date := transaction_date OLD;
               status := Some (match action with approve => approved | reject => rejected end);
               approved_by := Some user_id;
               approved_at := approved_at OLD;
               rejection_reason := reason |} in
          match exec (authenticated user_id) now
                  (UpdateTx Personal transactionId updateData) st with
          | Ok st' => (Completed, st')
          | Err e => (Failed e, st)
          end
      end
  end.

(** ** Sample data used by the worked examples *)

Module Sample.

Definition alice : uuid := 1%N.
Definition bob : uuid := 2%N.
Definition carol : uuid := 3%N.

(** Three partners with balance 0 and empty tables. *)
Definition fresh : db :=
  {| partners := {[ alice := 0; bob := 0; carol := 0 ]};
     daily_sales := ∅; partner_transactions := ∅;
     personal_transactions := ∅; personal_balances := ∅ |}.

Definition sale (d : sqldate) (online cash : Z) (p : option uuid) : daily_sale :=
  {| date := d; total_amount := online + cash; online_amount := online;
     cash_amount := cash; notes := None; partner_id := p; created_by := alice |}.

Definition transfer (f t : uuid) (a : Z) (s : status_t)
    (by_ : option uuid) (at_ : option timestamptz) : transaction :=
  {| from_partner_id := f; to_partner_id := t; amount := a;
     transaction_date := 20%N; status := Some s;
     approved_by := by_; approved_at := at_; rejection_reason := None |}.

(** Alice sells 1000, sends Bob 300 (pending), Bob approves; each of them
    signed in on the page. *)
Definition approved_history : list (role * timestamptz * statement) :=
  [ (authenticated alice, 1%N, InsertSale 100%N (sale 20%N 500 500 (Some alice)));
    (authenticated alice, 2%N,
       InsertTx Business 200%N (transfer alice bob 300 pending None None));
    (authenticated bob, 3%N,
       UpdateTx Business 200%N (transfer alice bob 300 approved (Some bob) None)) ].

(** The same statements issued by the owner of the tables. *)
Definition as_owner (l : list (role * timestamptz * statement))
    : list (role * timestamptz * statement) :=
  (λ s, (table_owner, s.1.2, s.2)) <$> l.

Definition after_approval : db := run approved_history fresh.

(** A personal transfer of 50 from Alice to Bob, approved by Bob. *)
Definition personal_history : list (role * timestamptz * statement) :=
  [ (authenticated alice, 1%N,
       InsertTx Personal 300%N (transfer alice bob 50 pending None None));
    (authenticated bob, 2%N,
       UpdateTx Personal 300%N (transfer alice bob 50 approved (Some bob) None)) ].

Definition after_personal_approval : db := run personal_history fresh.

End Sample.

(** ** Vocabulary of the properties *)

Definition event_rows {R} (ev : tg_event R) : list R :=
  match ev with
  | INSERT NEW => [NEW]
  | UPDATE OLD NEW => [OLD; NEW]
  | DELETE OLD => [OLD]
  end.

Definition on_transactions (s : statement) : bool :=
  match s with
  | InsertTx _ _ _ | UpdateTx _ _ _ | DeleteTx _ _ => true
  | _ => false
  end.

(** The trigger event a transaction statement of role [c] fires in [st],
    with the row as stored; none for a sale statement or when no row is
    matched (there is none with that key, or it is hidden from [c]). *)
Definition transaction_event (c : role) (now : timestamptz) (s : statement) (st : db)
    : option (domain * tg_event transaction) :=
  match s with
  | InsertTx d id NEW => Some (d, INSERT NEW)
  | UpdateTx d id NEW0 =>
      OLD ← tx_table d st !! id;
      if admits c (transaction_update_policy OLD)
      then Some (d, UPDATE OLD (transaction_approval_handler d now OLD NEW0))
      else None
  | DeleteTx d id =>
      OLD ← tx_table d st !! id;
      if admits c (involved_policy OLD) then Some (d, DELETE OLD) else None
  | _ => None
  end.

(** The relation between [status] and the approval columns. *)
Definition status_invariant (r : transaction) : Prop :=
  (status r = Some pending → approved_by r = None ∧ approved_at r = None) ∧
  (status r = Some approved → is_Some (approved_by r) ∧ is_Some (approved_at r)) ∧
  (status r = Some rejected → is_Some (approved_by r)).

(** [COALESCE(SUM(f) ... WHERE P, 0)] over the rows of a table, and what
    one row adds to it. *)
Definition table_total {A} (P : A → bool) (f : A → Z) (m : gmap uuid A) : Z :=
  Sql.COALESCE (Sql.SUM (f <$> filter (λ x, P x) (map_to_list m).*2)) 0.

Definition row_share {A} (P : A → bool) (f : A → Z) (x : A) : Z :=
  if P x then f x else 0.

(** What the recalculation counts for partner [p] in one sale row and in
    one business transaction row. *)
Definition sale_share (p : uuid) (ds : daily_sale) : Z :=
  if Sql.holds (Sql.eq (partner_id ds) (Some p)) then total_amount ds else 0.

Definition transaction_share (p : uuid) (pt : transaction) : Z :=
  if Sql.holds (Sql.AND (Sql.OR (Sql.eq (Some (from_partner_id pt)) (Some p))
                                (Sql.eq (Some (to_partner_id pt)) (Some p)))
                        (status_is pt approved))
  then if bool_decide (to_partner_id pt = p) then amount pt
       else if bool_decide (from_partner_id pt = p) then - amount pt
       else 0
  else 0.

(** The change of a row's share that a trigger event stands for. *)
Definition event_delta {R} (share : R → Z) (ev : tg_event R) : Z :=
  match ev with
  | INSERT NEW => share NEW
  | UPDATE OLD NEW => share NEW - share OLD
  | DELETE OLD => - share OLD
  end.

(** The balances are what the recalculation would make them. *)
Definition reconciled (st : db) : Prop :=
  ∀ p b, partners st !! p = Some b →
         b = total_sales p (daily_sales st) + approved_net p (partner_transactions st).

Definition parties_differ (st : db) : Prop :=
  ∀ id r, partner_transactions st !! id = Some r → from_partner_id r ≠ to_partner_id r.

(** An initial state: every balance 0, no sale and no business transaction. *)
Definition all_zero (st : db) : Prop :=
  (∀ p b, partners st !! p = Some b → b = 0) ∧
  daily_sales st = ∅ ∧ partner_transactions st = ∅.

(** Updates of business transactions that the balance trigger follows:
    an approved row that stays approved keeps its two parties, and no
    approved row gets or had a NULL status. *)
Definition keeps_parties (OLD NEW : transaction) : bool :=
  match status OLD, status NEW with
  | Some approved, Some approved =>
      bool_decide (from_partner_id NEW = from_partner_id OLD
                   ∧ to_partner_id NEW = to_partner_id OLD)
  | Some approved, None | None, Some approved => false
  | _, _ => true
  end.

Definition edit_keeps_parties (s : statement) (st : db) : bool :=
  match s with
  | UpdateTx Business id NEW =>
      match partner_transactions st !! id with
      | Some OLD => keeps_parties OLD NEW
      | None => true
      end
  | _ => true
  end.

Fixpoint edits_keep_parties (l : list (role * timestamptz * statement)) (st : db) : bool :=
  match l with
  | [] => true
  | s :: l' => edit_keeps_parties s.2 st && edits_keep_parties l' (step st s)
  end.

(** ** Earlier versions of the triggers *)

Module Earlier.

(** [update_partner_balances()], the trigger of [partner_transactions]
    before the approval columns existed: every row counts, and an UPDATE
    reverses the old row on its parties and applies the new row on its
    parties. *)
Definition update_partner_balances
    (c : role) (ev : tg_event transaction) (t : gmap uuid Z) : gmap uuid Z :=
  match ev with
  | INSERT NEW =>
      update_partners c (λ current_balance, current_balance + amount NEW) (to_partner_id NEW)
        (update_partners c (λ current_balance, current_balance - amount NEW) (from_partner_id NEW) t)
  | UPDATE OLD NEW =>
      let t1 :=
        update_partners c (λ current_balance, current_balance - amount OLD) (to_partner_id OLD)
          (update_partners c (λ current_balance, current_balance + amount OLD) (from_partner_id OLD) t) in
      update_partners c (λ current_balance, current_balance + amount NEW) (to_partner_id NEW)
        (update_partners c (λ current_balance, current_balance - amount NEW) (from_partner_id NEW) t1)
  | DELETE OLD =>
      update_partners c (λ current_balance, current_balance - amount OLD) (to_partner_id OLD)
        (update_partners c (λ current_balance, current_balance + amount OLD) (from_partner_id OLD) t)
  end.

(** [update_partner_balance_from_sales()] as first written, with
    [OLD.partner_id != NEW.partner_id] where the later version has
    [IS DISTINCT FROM]. *)
Definition update_partner_balance_from_sales
    (c : role) (ev : tg_event daily_sale) (t : gmap uuid Z) : gmap uuid Z :=
  match ev with
  | INSERT NEW =>
      match partner_id NEW with
      | Some p => update_partners c (λ current_balance, current_balance + total_amount NEW) p t
      | None => t
      end
  | UPDATE OLD NEW =>
      if Sql.holds (Sql.OR (Sql.neq (partner_id OLD) (partner_id NEW))
                           (Sql.neq (Some (total_amount OLD)) (Some (total_amount NEW))))
      then
        let t1 := match partner_id OLD with
                  | Some p => update_partners c (λ current_balance, current_balance - total_amount OLD) p t
                  | None => t
                  end in
        match partner_id NEW with
        | Some p => update_partners c (λ current_balance, current_balance + total_amount NEW) p t1
        | None => t1
        end
      else t
  | DELETE OLD =>
      match partner_id OLD with
      | Some p => update_partners c (λ current_balance, current_balance - total_amount OLD) p t
      | None => t
      end
  end.

(** [update_personal_balances()] before the approval columns existed. *)
Definition update_personal_balances
    (ev : tg_event transaction) (t : gmap (uuid * uuid) Z) : gmap (uuid * uuid) Z :=
  match ev with
  | INSERT NEW => upsert_personal_balance (pair_of NEW) (signed_amount NEW) t
  | DELETE OLD =>
      update_personal_balance (λ balance_amount, balance_amount - signed_amount OLD) (pair_of OLD) t
  | UPDATE OLD NEW =>
      upsert_personal_balance (pair_of NEW) (signed_amount NEW)
        (update_personal_balance (λ balance_amount, balance_amount - signed_amount OLD)
           (pair_of OLD) t)
  end.

End Earlier.

(** ** Further client handlers *)

Inductive submit_result :=
| Submitted
| SubmitNotSignedIn
| SamePartnerError
| SubmitFailed (e : sql_error).

Record TransactionForm := {
  form_from_partner_id : uuid;
  form_to_partner_id : uuid;
  form_amount : Z;
  form_transaction_date : sqldate
}.

(** The row both transaction forms insert: [status] is pending (by the
    column default, or spelled out), the approval columns are not given. *)
Definition submitted_row (data : TransactionForm) : transaction :=
  {| from_partner_id := form_from_partner_id data;
     to_partner_id := form_to_partner_id data;
     amount := form_amount data;
     transaction_date := form_transaction_date data;
     status := Some pending; approved_by := None; approved_at := None;
     rejection_reason := None |}.

(** [handleTransactionSubmit(data)] of the partners page (business
    transactions): refuses a transfer to oneself before any insert. *)
Definition handleTransactionSubmit (user : option uuid) (now : timestamptz)
    (new_id : uuid) (data : TransactionForm) (st : db) : submit_result * db :=
  match user with
  | None => (SubmitNotSignedIn, st)
  | Some user_id =>
      if bool_decide (form_from_partner_id data = form_to_partner_id data)
      then (SamePartnerError, st)
      else
        match exec (authenticated user_id) now
                (InsertTx Business new_id (submitted_row data)) st with
        | Ok st' => (Submitted, st')
        | Err e => (SubmitFailed e, st)
        end
  end.

(** [handleTransactionSubmit(data)] of the personal space: no check of its
    own, the insert decides. *)
Definition handlePersonalTransactionSubmit (user : option uuid) (now : timestamptz)
    (new_id : uuid) (data : TransactionForm) (st : db) : submit_result * db :=
  match user with
  | None => (SubmitNotSignedIn, st)
  | Some user_id =>
      match exec (authenticated user_id) now
              (InsertTx Personal new_id (submitted_row data)) st with
      | Ok st' => (Submitted, st')
      | Err e => (SubmitFailed e, st)
      end
  end.

(** [handleDeleteTransaction(id)] of the partners page, after the
    confirmation dialog; an error is logged and nothing else happens. *)
Definition handleDeleteTransaction (user : option uuid) (now : timestamptz) (id : uuid)
    (st : db) : db :=
  step st (session user, now, DeleteTx Business id).

Section js_balances.

(** [a + b] and [a - b] in JavaScript on numbers read from [numeric]
    columns, as the database reads the result.  Nothing is assumed of
    them. *)
Variables js_plus js_minus : Z → Z → Z.

(** [handleApproveTransaction(transactionId, action, rejectionReason)] of
    the partners page with the approval buttons (business transactions).
    It reads the transaction, updates its status ([client_now] is the
    page's clock, sent as [approved_at]; [now] is the time at the
    database), and after an approval reads the two balances and writes
    both back from the page.  Every request stands on its own: what an
    earlier one has written stays when a later one fails. *)
Definition handleApproveTransaction (user : option uuid) (now client_now : timestamptz)
    (transactionId : uuid) (action : approval_action)
    (rejectionReason : option string) (st : db) : handler_result * db :=
  match user with
  | None => (NotSignedIn, st)
  | Some user_id =>
      match partner_transactions st !! transactionId with
      | None => (FetchFailed, st)
      | Some transaction =>
          let reason :=
            match action, rejectionReason with
            | reject, Some (String c s) => Some (String c s)
            | _, _ => rejection_reason transaction
            end in
          let updateData :=
            {| from_partner_id := from_partner_id transaction;
               to_partner_id := to_partner_id transaction;
               amount := amount transaction;
               transaction_date := transaction_date transaction;
               status := Some (match action with approve => approved | reject => rejected end);
               approved_by := Some user_id;
               approved_at := Some client_now;
               rejection_reason := reason |} in
          match exec (authenticated user_id) now
                  (UpdateTx Business transactionId updateData) st with
          | Err e => (Failed e, st)
          | Ok st1 =>
              match action with
              | reject => (Completed, st1)
              | approve =>
                  match partners st1 !! from_partner_id transaction,
                        partners st1 !! to_partner_id transaction with
                  | Some sender, Some receiver =>
                      let newSenderBalance := js_minus sender (amount transaction) in
                      let newReceiverBalance := js_plus receiver (amount transaction) in
                      let t1 := update_partners (authenticated user_id)
                                  (λ _, newSenderBalance)
                                  (from_partner_id transaction) (partners st1) in
                      let t2 := update_partners (authenticated user_id)
                                  (λ _, newReceiverBalance)
                                  (to_partner_id transaction) t1 in
                      (Completed, set_partners t2 st1)
                  | _, _ => (FetchFailed, st1)
                  end
              end
          end
      end
  end.

End js_balances.

(** One entry of the personal balances panel, made from a row of
    [personal_balances]: the other partner of the pair (the page shows the
    name; the id stands for it here) and the balance seen from the
    signed-in partner's side, [isPartnerA ? balance_amount : -balance_amount]. *)
Definition processBalance (user_id : uuid) (row : (uuid * uuid) * Z) : uuid * Z :=
  let isPartnerA := bool_decide (row.1.1 = user_id) in
  (if isPartnerA then row.1.2 else row.1.1,
   if isPartnerA then row.2 else - row.2).

(** [processedBalances]: the rows with [partner_a_id = user] or
    [partner_b_id = user], each processed. *)
Definition processedBalances (user_id : uuid) (st : db) : list (uuid * Z) :=
  processBalance user_id <$>
    filter (λ row : (uuid * uuid) * Z, row.1.1 = user_id ∨ row.1.2 = user_id)
           (map_to_list (personal_balances st)).

(** ** Further vocabulary *)

(** What a transaction row gives to partner [p] when every row counts:
    the amount if [p] receives it, minus the amount if [p] sends it. *)
Definition transaction_flow (p : uuid) (pt : transaction) : Z :=
  (if bool_decide (to_partner_id pt = p) then amount pt else 0)
  - (if bool_decide (from_partner_id pt = p) then amount pt else 0).

(** The sum of all partner balances. *)
Definition total_balance (t : gmap uuid Z) : Z :=
  table_total (λ _, true) (λ current_balance, current_balance) t.

(** Every stored transaction has two different parties, both of them
    partners; personal amounts are positive. *)
Definition rows_wellformed (st : db) : Prop :=
  ∀ d id r, tx_table d st !! id = Some r →
    from_partner_id r ≠ to_partner_id r ∧
    is_Some (partners st !! from_partner_id r) ∧
    is_Some (partners st !! to_partner_id r) ∧
    (d = Personal → amount r > 0).

(** No two sale entries share a date. *)
Definition dates_unique (st : db) : Prop :=
  ∀ i j r r', daily_sales st !! i = Some r → daily_sales st !! j = Some r' →
              date r = date r' → i = j.

(** Every row of [personal_balances] is keyed by a pair in order. *)
Definition pairs_canonical (st : db) : Prop :=
  ∀ a b x, personal_balances st !! (a, b) = Some x → (a < b)%N.

(** What one personal transaction contributes to the balance of pair [k]. *)
Definition personal_share (k : uuid * uuid) (pt : transaction) : Z :=
  if Sql.holds (status_is pt approved) && bool_decide (pair_of pt = k)
  then signed_amount pt else 0.

(** The net of the approved personal transactions of pair [k]. *)
Definition personal_net (k : uuid * uuid) (txs : gmap uuid transaction) : Z :=
  table_total (λ pt, Sql.holds (status_is pt approved) && bool_decide (pair_of pt = k))
              signed_amount txs.

(** The pairwise balances are the nets of the approved personal
    transactions, and every approved one has its pair row. *)
Definition pairs_reconciled (st : db) : Prop :=
  (∀ k, default 0 (personal_balances st !! k) = personal_net k (personal_transactions st)) ∧
  (∀ id r, personal_transactions st !! id = Some r → status r = Some approved →
           is_Some (personal_balances st !! pair_of r)).

Definition personal_edit_keeps_parties (s : statement) (st : db) : bool :=
  match s with
  | UpdateTx Personal id NEW =>
      match personal_transactions st !! id with
      | Some OLD => keeps_parties OLD NEW
      | None => true
      end
  | _ => true
  end.

Fixpoint personal_edits_keep_parties (l : list (role * timestamptz * statement)) (st : db)
    : bool :=
  match l with
  | [] => true
  | s :: l' => personal_edit_keeps_parties s.2 st && personal_edits_keep_parties l' (step st s)
  end.


(** Every statement of the list is issued by the owner of the tables. *)
Definition issued_by_owner (l : list (role * timestamptz * statement)) : Prop :=
  Forall (λ s, s.1.1 = table_owner) l.

(** ** Basic facts about the embedding *)

Lemma require_Ok b e : require b e = Ok () → b = true.
Proof. by destruct b. Qed.

Lemma bind_Ok {A B} (m : result A) (k : A → result B) b :
  m ≫= k = Ok b → ∃ a, m = Ok a ∧ k a = Ok b.
Proof. destruct m as [a|e]; [|done]. intros H. by exists a. Qed.

Lemma Ok_inj {A} (a b : A) : Ok a = Ok b → a = b.
Proof. by intros [= ->]. Qed.

(** Decompose a successful chain of checks into its parts. *)
Ltac ok_inv H :=
  repeat match type of H with
  | _ ≫= _ = Ok _ =>
      let u := fresh "u" in let Hc := fresh "Hc" in
      apply bind_Ok in H as (u & Hc & H); try destruct u
  end.

Lemma status_is_holds r s : Sql.holds (status_is r s) = bool_decide (status r = Some s).
Proof.
  unfold status_is, Sql.eq. destruct (status r) as [s'|]; simpl;
    repeat case_bool_decide; congruence.
Qed.

Ltac tv_cases :=
  unfold status_is, status_is_not, Sql.neq, Sql.eq, Sql.NOT, Sql.AND, Sql.OR,
    Sql.IS_NULL, Sql.IS_NOT_NULL, Sql.IS_DISTINCT_FROM, Sql.holds, Sql.check in *;
  simpl in *.

(** *** Roles and policies *)

Lemma may_update_spec c p :
  may_update c p = true ↔ c = table_owner ∨ c = authenticated p.
Proof.
  unfold may_update, admits, partners_update_policy. destruct c as [| |u]; simpl.
  - split; [by left|done].
  - split; [done|by intros [?|?]].
  - case_bool_decide; simplify_eq; (split; [|intros [?|?]]; intros; simplify_eq; auto).
Qed.

Lemma may_update_owner p : may_update table_owner p = true.
Proof. done. Qed.

Lemma may_update_authenticated u p : may_update (authenticated u) p = bool_decide (u = p).
Proof.
  unfold may_update, admits, partners_update_policy. simpl.
  repeat case_bool_decide; congruence.
Qed.

(** Who passes the policy on the two parties of a transaction. *)
Lemma involved_spec c r :
  admits c (involved_policy r) = true ↔
  c = table_owner ∨ c = authenticated (from_partner_id r)
  ∨ c = authenticated (to_partner_id r).
Proof.
  unfold admits, involved_policy. destruct c as [| |u]; simpl.
  - split; [by left|done].
  - split; [done|by intros [?|[?|?]]].
  - tv_cases. repeat case_bool_decide; simplify_eq; simpl;
      (split; [|intros [?|[?|?]]]; intros; simplify_eq; auto).
Qed.

(** Who passes the UPDATE policy of the transaction tables. *)
Lemma transaction_update_policy_spec c r :
  admits c (transaction_update_policy r) = true ↔
  c = table_owner ∨
  ((c = authenticated (from_partner_id r) ∨ c = authenticated (to_partner_id r)) ∧
   (status r = Some pending ∨ status r = Some approved)).
Proof.
  unfold admits, transaction_update_policy. destruct c as [| |u]; simpl.
  - split; [by left|done].
  - split; [done|by intros [?|[[?|?] _]]].
  - tv_cases. destruct (status r) as [[]|]; simpl;
      repeat case_bool_decide; simplify_eq; simpl;
      (split; [|intros [?|[[?|?] [?|?]]]]; intros; simplify_eq; auto 6).
Qed.

Lemma update_policy_involved c r :
  admits c (transaction_update_policy r) = true → admits c (involved_policy r) = true.
Proof.
  rewrite transaction_update_policy_spec, involved_spec.
  intros [?|[[?|?] _]]; auto.
Qed.

(** The role that passes the policy on a transaction is one of the two
    partners of its pair. *)
Lemma involved_pair c r :
  admits c (involved_policy r) = true → admits c (personal_balances_policy (pair_of r)) = true.
Proof.
  unfold admits, involved_policy, personal_balances_policy, pair_of.
  destruct c as [| |u]; simpl; try done. tv_cases.
  destruct (N.min_spec (from_partner_id r) (to_partner_id r)) as [[? ->]|[? ->]],
           (N.max_spec (from_partner_id r) (to_partner_id r)) as [[? ->]|[? ->]];
    repeat case_bool_decide; simplify_eq; simpl; try done; lia.
Qed.

(** *** Statements *)

Lemma exec_Ok c now s st st' :
  exec c now s st = Ok st' →
  (row_level_security c now s st = Filtered ∧ st' = st) ∨
  (row_level_security c now s st = Allowed ∧ perform c now s st = Ok st').
Proof.
  unfold exec. destruct (row_level_security c now s st); intros H.
  - by right.
  - left. split; [done|]. by apply Ok_inj in H.
  - done.
Qed.

(** For the owner of the tables no policy is consulted. *)
Lemma exec_owner now s st : exec table_owner now s st = perform table_owner now s st.
Proof.
  unfold exec, row_level_security, perform.
  destruct s as [i N|i N|i|d i N|d i N|d i]; cbn [admits]; try done.
  - by destruct (daily_sales st !! i).
  - by destruct (daily_sales st !! i).
  - by destruct (tx_table d st !! i).
  - by destruct (tx_table d st !! i).
Qed.

Lemma update_partners_lookup c f q (t : gmap uuid Z) p :
  update_partners c f q t !! p =
    if bool_decide (p = q) && may_update c p then f <$> t !! p else t !! p.
Proof.
  unfold update_partners. case_bool_decide as E; simpl.
  - subst q. destruct (may_update c p); [by rewrite lookup_alter_eq|done].
  - destruct (may_update c q); [by rewrite lookup_alter_ne|done].
Qed.

Lemma update_partners_owner f q (t : gmap uuid Z) :
  update_partners table_owner f q t = alter f q t.
Proof. done. Qed.

Lemma transaction_constraints_distinct d NEW st :
  transaction_constraints d NEW st = Ok () → from_partner_id NEW ≠ to_partner_id NEW.
Proof.
  unfold transaction_constraints. intros H. ok_inv H.
  apply require_Ok in Hc0. unfold different_partners, Sql.neq, Sql.eq in Hc0.
  simpl in Hc0. intros E. by rewrite bool_decide_eq_true_2 in Hc0.
Qed.

Lemma transaction_constraints_references d NEW st :
  transaction_constraints d NEW st = Ok () →
  is_Some (partners st !! from_partner_id NEW) ∧ is_Some (partners st !! to_partner_id NEW).
Proof.
  unfold transaction_constraints. intros H. ok_inv H.
  apply require_Ok in Hc. rewrite !andb_true_iff in Hc.
  destruct Hc as [[Hf Ht] _]. simpl in Hf, Ht.
  by apply bool_decide_eq_true_1 in Hf, Ht.
Qed.

(** What the constraints of a transaction table ask of a row. *)
Lemma transaction_constraints_Ok d r st :
  transaction_constraints d r st = Ok () ↔
    (references_partner (Some (from_partner_id r)) st
     && references_partner (Some (to_partner_id r)) st
     && references_partner (approved_by r) st = true) ∧
    Sql.check (different_partners r) = true ∧
    (d = Personal → bool_decide (amount r > 0) = true) ∧
    Sql.check (valid_approval_status r) = true.
Proof.
  assert (Hb : valid_business_approval_status r = valid_approval_status r) by done.
  unfold transaction_constraints, require. rewrite Hb.
  destruct (_ && _ && _), (Sql.check (different_partners r)),
    (Sql.check (valid_approval_status r)), d; simpl;
    try destruct (bool_decide (amount r > 0)); simpl;
    (split; [intros ?; by repeat split
            |intros (? & ? & Ha & ?); try specialize (Ha eq_refl); done]).
Qed.

(** The approval handlers never touch the status, the amount or the parties. *)
Lemma approval_handler_frame d now OLD NEW :
  let r := transaction_approval_handler d now OLD NEW in
  status r = status NEW ∧ amount r = amount NEW ∧
  from_partner_id r = from_partner_id NEW ∧ to_partner_id r = to_partner_id NEW.
Proof.
  destruct d; simpl;
    unfold handle_business_transaction_approval, handle_transaction_approval;
    repeat case_match; simpl; done.
Qed.

(** Both balance triggers are the identity on an UPDATE that keeps an
    approved row approved with the same amount. *)
Lemma approved_same_amount_frame c d OLD NEW st :
  status OLD = Some approved → status NEW = Some approved → amount NEW = amount OLD →
  transaction_balance_update c d (UPDATE OLD NEW) st = st.
Proof.
  intros Ho Hn Ha. destruct st, d; simpl;
    unfold update_business_partner_balances, update_personal_balances,
      set_partners, set_personal_balances, status_is, status_is_not; simpl;
    rewrite Ho, Hn, Ha; simpl;
    by rewrite bool_decide_eq_true_2.
Qed.

Lemma set_tx_table_balances d t st :
  partners (set_tx_table d t st) = partners st ∧
  personal_balances (set_tx_table d t st) = personal_balances st.
Proof. by destruct d. Qed.

Lemma transaction_balance_update_tables c d ev st :
  daily_sales (transaction_balance_update c d ev st) = daily_sales st ∧
  partner_transactions (transaction_balance_update c d ev st) = partner_transactions st ∧
  personal_transactions (transaction_balance_update c d ev st) = personal_transactions st.
Proof. by destruct d. Qed.

(** A trigger event none of whose rows is approved leaves the database as
    it is. *)
Lemma unapproved_event_frame c d (ev : tg_event transaction) st :
  Forall (λ r, status r ≠ Some approved) (event_rows ev) →
  transaction_balance_update c d ev st = st.
Proof.
  intros Hrows. destruct st.
  destruct ev as [NEW|OLD NEW|OLD]; simpl in Hrows;
    repeat (apply Forall_cons in Hrows as [? Hrows]);
    destruct d; simpl;
    unfold update_business_partner_balances, update_personal_balances,
      set_partners, set_personal_balances; simpl; tv_cases;
    repeat match goal with
    | H : status ?r ≠ _ |- _ => destruct (status r) as [[]|]; try done
    end; simpl; repeat case_bool_decide; simpl; done.
Qed.

(** ** Sales *)

(** C10.  An update of a sale entry that keeps [partner_id] and
    [total_amount] (whatever happens to the online/cash split, the date or
    the notes) leaves every partner's balance unchanged. *)
Theorem sale_update_same_partner_and_total c now id NEW st st' :
  (∀ OLD, daily_sales st !! id = Some OLD →
     partner_id NEW = partner_id OLD ∧ total_amount NEW = total_amount OLD) →
  exec c now (UpdateSale id NEW) st = Ok st' →
  partners st' = partners st.
Proof.
  intros Hsame H. apply exec_Ok in H as [[_ ->]|[_ H]]; [done|].
  unfold perform in H.
  destruct (daily_sales st !! id) as [OLD|] eqn:Hold.
  - destruct (Hsame OLD eq_refl) as [Hp Ht].
    ok_inv H. injection H as <-. simpl.
    rewrite Hp, Ht. tv_cases.
    rewrite !bool_decide_eq_true_2 by done. done.
  - by injection H as <-.
Qed.

Lemma sale_update_same_partner_and_total_witness :
  partners (step (step Sample.fresh
                    (authenticated Sample.alice, 1%N,
                       InsertSale 100%N (Sample.sale 20%N 500 500 (Some Sample.alice))))
                 (authenticated Sample.alice, 2%N,
                    UpdateSale 100%N (Sample.sale 21%N 900 100 (Some Sample.alice))))
  = partners (step Sample.fresh
                (authenticated Sample.alice, 1%N,
                   InsertSale 100%N (Sample.sale 20%N 500 500 (Some Sample.alice)))).
Proof.
  apply (sale_update_same_partner_and_total (authenticated Sample.alice) 2%N 100%N
           (Sample.sale 21%N 900 100 (Some Sample.alice))).
  - intros OLD HOLD. vm_compute in HOLD. injection HOLD as <-. by vm_compute.
  - by vm_compute.
Defined.

(** ** Business transactions *)

(** C9.  An update of a business transaction that is approved before and
    after and keeps its amount adjusts no partner balance, whether or not
    [from_partner_id] or [to_partner_id] change. *)
Theorem approved_update_same_amount c now id OLD NEW st st' :
  partner_transactions st !! id = Some OLD →
  status OLD = Some approved →
  status NEW = Some approved →
  amount NEW = amount OLD →
  exec c now (UpdateTx Business id NEW) st = Ok st' →
  partners st' = partners st.
Proof.
  intros Hold Hso Hsn Ha H. apply exec_Ok in H as [[_ ->]|[_ H]]; [done|].
  change (partner_transactions st) with (tx_table Business st) in Hold.
  unfold perform in H. rewrite Hold in H.
  ok_inv H. apply Ok_inj in H. subst st'.
  pose proof (approval_handler_frame Business now OLD NEW) as (Hs & Ham & _).
  rewrite approved_same_amount_frame; [done|done|congruence|congruence].
Qed.

Lemma approved_update_same_amount_witness :
  partners (step Sample.after_approval
              (authenticated Sample.alice, 4%N,
                 UpdateTx Business 200%N
                   (Sample.transfer Sample.alice Sample.carol 300 approved
                      (Some Sample.bob) (Some 3%N))))
  = partners Sample.after_approval.
Proof.
  apply (approved_update_same_amount (authenticated Sample.alice) 4%N 200%N
           (Sample.transfer Sample.alice Sample.bob 300 approved (Some Sample.bob) (Some 3%N))
           (Sample.transfer Sample.alice Sample.carol 300 approved (Some Sample.bob) (Some 3%N)));
    by vm_compute.
Defined.

(** On an UPDATE between two approved rows the business trigger makes the
    single net adjustment on the parties of the new row, and only when the
    amount differs. *)
Lemma business_update_both_approved c OLD NEW t :
  status OLD = Some approved → status NEW = Some approved →
  update_business_partner_balances c (UPDATE OLD NEW) t =
    if bool_decide (amount OLD = amount NEW) then t
    else update_partners c (λ b, b - amount OLD + amount NEW) (to_partner_id NEW)
           (update_partners c (λ b, b + amount OLD - amount NEW) (from_partner_id NEW) t).
Proof.
  intros Ho Hn. unfold update_business_partner_balances. tv_cases.
  rewrite Ho, Hn. simpl. by case_bool_decide.
Qed.

(** *** What an admitted statement has passed *)

Lemma admitted_insert_sale c now id NEW st :
  row_level_security c now (InsertSale id NEW) st = Allowed →
  admits c (daily_sales_policy NEW) = true.
Proof. simpl. by destruct (admits c (daily_sales_policy NEW)). Qed.

Lemma admitted_update_sale c now id NEW st :
  row_level_security c now (UpdateSale id NEW) st = Allowed →
  ∃ OLD, daily_sales st !! id = Some OLD ∧
         admits c (daily_sales_policy OLD) = true ∧ admits c (daily_sales_policy NEW) = true.
Proof.
  simpl. destruct (daily_sales st !! id) as [OLD|]; [|done].
  destruct (admits c (daily_sales_policy OLD)) eqn:Hu; [|done].
  destruct (admits c (daily_sales_policy NEW)) eqn:Hw; [|done]. by exists OLD.
Qed.

Lemma admitted_delete_sale c now id st :
  row_level_security c now (DeleteSale id) st = Allowed →
  ∃ OLD, daily_sales st !! id = Some OLD ∧ admits c (daily_sales_policy OLD) = true.
Proof.
  simpl. destruct (daily_sales st !! id) as [OLD|]; [|done].
  destruct (admits c (daily_sales_policy OLD)) eqn:Hu; [|done]. by exists OLD.
Qed.

Lemma admitted_insert_tx c now d id NEW st :
  row_level_security c now (InsertTx d id NEW) st = Allowed →
  admits c (involved_policy NEW) = true.
Proof. simpl. by destruct (admits c (involved_policy NEW)). Qed.

Lemma admitted_update_tx c now d id NEW st :
  row_level_security c now (UpdateTx d id NEW) st = Allowed →
  ∃ OLD, tx_table d st !! id = Some OLD ∧
         admits c (transaction_update_policy OLD) = true ∧
         admits c (transaction_update_policy (transaction_approval_handler d now OLD NEW)) = true.
Proof.
  unfold row_level_security. destruct (tx_table d st !! id) as [OLD|]; [|done].
  destruct (admits c (transaction_update_policy OLD)) eqn:Hu; [|done].
  destruct (admits c (transaction_update_policy (transaction_approval_handler _ _ _ _)))
    eqn:Hw; [|done].
  intros _. by exists OLD.
Qed.

Lemma admitted_delete_tx c now d id st :
  row_level_security c now (DeleteTx d id) st = Allowed →
  ∃ OLD, tx_table d st !! id = Some OLD ∧ admits c (involved_policy OLD) = true.
Proof.
  simpl. destruct (tx_table d st !! id) as [OLD|]; [|done].
  destruct (admits c (involved_policy OLD)) eqn:Hu; [|done]. by exists OLD.
Qed.

(** An UPDATE or DELETE of a row that the role may see is carried out (or
    refused), not passed over. *)
Lemma exec_update_tx_visible c now d id OLD NEW st st' :
  tx_table d st !! id = Some OLD →
  admits c (transaction_update_policy OLD) = true →
  exec c now (UpdateTx d id NEW) st = Ok st' →
  admits c (transaction_update_policy (transaction_approval_handler d now OLD NEW)) = true ∧
  perform c now (UpdateTx d id NEW) st = Ok st'.
Proof.
  intros HO Hu. unfold exec, row_level_security, perform. rewrite HO, Hu.
  by destruct (admits c (transaction_update_policy (transaction_approval_handler _ _ _ _))).
Qed.

Lemma exec_delete_tx_visible c now d id OLD st :
  tx_table d st !! id = Some OLD →
  admits c (involved_policy OLD) = true →
  exec c now (DeleteTx d id) st = perform c now (DeleteTx d id) st.
Proof. intros HO Hu. unfold exec, row_level_security. by rewrite HO, Hu. Qed.

Lemma exec_insert_tx c now d id NEW st st' :
  exec c now (InsertTx d id NEW) st = Ok st' →
  admits c (involved_policy NEW) = true ∧ perform c now (InsertTx d id NEW) st = Ok st'.
Proof.
  unfold exec. simpl. by destruct (admits c (involved_policy NEW)).
Qed.

Lemma exec_insert_sale c now id NEW st st' :
  exec c now (InsertSale id NEW) st = Ok st' →
  admits c (daily_sales_policy NEW) = true ∧ perform c now (InsertSale id NEW) st = Ok st'.
Proof.
  unfold exec. simpl. by destruct (admits c (daily_sales_policy NEW)).
Qed.

(** C4 fails on the code when the update comes from the page.  Bob, signed
    in, changes the amount of the approved transfer from Alice to him from
    300 to 450.  The trigger adjusts both balances, but it writes with
    Bob's rights, and the policy of [partners] lets him update his own row
    only: his balance moves by 450 - 300, Alice's stays where C4
    has it move by 300 - 450.  Issued by the owner of the tables, the same
    update moves both. *)
Theorem approved_amount_change_reaches_caller_only :
  let st := Sample.after_approval in
  let s := UpdateTx Business 200%N
             (Sample.transfer Sample.alice Sample.bob 450 approved
                (Some Sample.bob) (Some 3%N)) in
  let st' := step st (authenticated Sample.bob, 4%N, s) in
  ((amount <$> partner_transactions st !! 200%N) = Some 300 ∧
   (status <$> partner_transactions st !! 200%N) = Some (Some approved)) ∧
  ((amount <$> partner_transactions st' !! 200%N) = Some 450 ∧
   (status <$> partner_transactions st' !! 200%N) = Some (Some approved)) ∧
  (partners st !! Sample.bob = Some 300 ∧ partners st' !! Sample.bob = Some 450) ∧
  (partners st !! Sample.alice = Some 1000 ∧ partners st' !! Sample.alice = Some 1000) ∧
  partners (step st (table_owner, 4%N, s)) !! Sample.alice = Some 850.
Proof. by vm_compute. Qed.

(** C2.  An insert, update or delete of a business or personal transaction
    row in which neither the old nor the new row is approved changes no
    partner balance and no pairwise balance. *)
Theorem unapproved_transaction_changes_no_balance c now s st st' :
  on_transactions s = true →
  (∀ d ev r, transaction_event c now s st = Some (d, ev) →
             r ∈ event_rows ev → status r ≠ Some approved) →
  exec c now s st = Ok st' →
  partners st' = partners st ∧ personal_balances st' = personal_balances st.
Proof.
  intros Htx Hrows H. apply exec_Ok in H as [[_ ->]|[Ha H]]; [done|].
  destruct s as [| | |d id NEW|d id NEW|d id]; try done; clear Htx;
    unfold perform in H; simpl in Hrows.
  - ok_inv H. apply Ok_inj in H. subst st'.
    rewrite unapproved_event_frame; [apply set_tx_table_balances|].
    apply Forall_forall. intros r Hr. by eapply Hrows.
  - apply admitted_update_tx in Ha as (OLD & Hold & Hu & _).
    rewrite Hold in H, Hrows. simpl in Hrows. rewrite Hu in Hrows.
    ok_inv H. apply Ok_inj in H. subst st'.
    rewrite unapproved_event_frame; [apply set_tx_table_balances|].
    apply Forall_forall. intros r Hr. by eapply Hrows.
  - apply admitted_delete_tx in Ha as (OLD & Hold & Hu).
    rewrite Hold in H, Hrows. simpl in Hrows. rewrite Hu in Hrows.
    apply Ok_inj in H. subst st'.
    rewrite unapproved_event_frame; [apply set_tx_table_balances|].
    apply Forall_forall. intros r Hr. by eapply Hrows.
Qed.

(** Creating a pending transaction changes no balance. *)
Lemma unapproved_transaction_changes_no_balance_witness :
  let st' := step Sample.after_approval
               (authenticated Sample.bob, 5%N,
                  InsertTx Personal 300%N
                    (Sample.transfer Sample.bob Sample.carol 75 pending None None)) in
  partners st' = partners Sample.after_approval ∧
  personal_balances st' = personal_balances Sample.after_approval.
Proof.
  apply (unapproved_transaction_changes_no_balance (authenticated Sample.bob) 5%N
           (InsertTx Personal 300%N
              (Sample.transfer Sample.bob Sample.carol 75 pending None None))).
  - reflexivity.
  - intros d ev r Hev Hr. injection Hev as <- <-.
    apply list_elem_of_singleton in Hr. by subst r.
  - by vm_compute.
Defined.

(** ** Sales: create then delete *)

Lemma alter_undo {K} `{Countable K} (f g : Z → Z) (k : K) (t : gmap K Z) :
  (∀ x, f (g x) = x) → alter f k (alter g k t) = t.
Proof.
  intros Hfg. rewrite alter_alter_eq. apply alter_id. intros x _. apply Hfg.
Qed.

Lemma update_partners_undo c (f g : Z → Z) p (t : gmap uuid Z) :
  (∀ x, f (g x) = x) → update_partners c f p (update_partners c g p t) = t.
Proof.
  intros Hfg. unfold update_partners. destruct (may_update c p); [|done].
  by apply alter_undo.
Qed.

(** C6.  Inserting a sale entry and then deleting it leaves every
    partner's balance (and the sales table) as before the insert. *)
Theorem sale_create_then_delete c now now' id A st st1 :
  exec c now (InsertSale id A) st = Ok st1 →
  ∃ st2, exec c now' (DeleteSale id) st1 = Ok st2 ∧
         partners st2 = partners st ∧ daily_sales st2 = daily_sales st.
Proof.
  intros H. apply exec_insert_sale in H as [Ha H].
  unfold perform in H. ok_inv H. apply Ok_inj in H. subst st1.
  apply require_Ok, bool_decide_eq_true_1 in Hc.
  eexists. split.
  - unfold exec, row_level_security, perform. simpl.
    rewrite lookup_insert_eq, Ha. reflexivity.
  - simpl. split.
    + destruct (partner_id A) as [p|]; [|done].
      apply update_partners_undo. intros x. lia.
    + by apply delete_insert_id.
Qed.

Lemma sale_create_then_delete_witness :
  ∃ st2, exec (authenticated Sample.alice) 2%N (DeleteSale 100%N)
           (step Sample.fresh
              (authenticated Sample.alice, 1%N,
                 InsertSale 100%N (Sample.sale 20%N 500 500 (Some Sample.alice)))) = Ok st2 ∧
         partners st2 = partners Sample.fresh ∧ daily_sales st2 = daily_sales Sample.fresh.
Proof.
  apply (sale_create_then_delete (authenticated Sample.alice) 1%N 2%N 100%N
           (Sample.sale 20%N 500 500 (Some Sample.alice)) Sample.fresh).
  by vm_compute.
Defined.

(** ** Personal transactions: the pairwise balance *)

Lemma signed_amount_canonical r :
  from_partner_id r ≠ to_partner_id r →
  signed_amount r =
    if bool_decide (from_partner_id r = N.min (from_partner_id r) (to_partner_id r))
    then - amount r else amount r.
Proof.
  intros Hne. unfold signed_amount.
  destruct (N.ltb_spec (from_partner_id r) (to_partner_id r));
    case_bool_decide; try done; lia.
Qed.

Lemma upsert_lookup_eq (k : uuid * uuid) (d : Z) (t : gmap (uuid * uuid) Z) :
  upsert_personal_balance k d t !! k =
    Some (match t !! k with Some b => b + d | None => d end).
Proof.
  unfold upsert_personal_balance.
  destruct (t !! k) eqn:E; by rewrite lookup_insert_eq.
Qed.

Lemma upsert_lookup_ne (k k' : uuid * uuid) (d : Z) (t : gmap (uuid * uuid) Z) :
  k ≠ k' → upsert_personal_balance k d t !! k' = t !! k'.
Proof.
  intros Hk. unfold upsert_personal_balance.
  destruct (t !! k) eqn:E; by rewrite lookup_insert_ne.
Qed.

Lemma personal_insert_approved NEW t :
  status NEW = Some approved →
  update_personal_balances (INSERT NEW) t =
    upsert_personal_balance (pair_of NEW) (signed_amount NEW) t.
Proof.
  intros Hs. unfold update_personal_balances.
  by rewrite status_is_holds, bool_decide_eq_true_2.
Qed.

Lemma personal_delete_approved OLD t :
  status OLD = Some approved →
  update_personal_balances (DELETE OLD) t =
    update_personal_balance (λ b, b - signed_amount OLD) (pair_of OLD) t.
Proof.
  intros Hs. unfold update_personal_balances.
  by rewrite status_is_holds, bool_decide_eq_true_2.
Qed.

(** Approval by UPDATE of a pending or rejected row applies the same delta
    as the INSERT of an approved row. *)
Lemma personal_update_to_approved OLD NEW t :
  status OLD = Some pending ∨ status OLD = Some rejected →
  status NEW = Some approved →
  update_personal_balances (UPDATE OLD NEW) t =
    upsert_personal_balance (pair_of NEW) (signed_amount NEW) t.
Proof.
  intros Ho Hn. unfold update_personal_balances. tv_cases.
  destruct Ho as [-> | ->]; rewrite Hn; simpl; repeat case_bool_decide; done.
Qed.

Lemma personal_balances_after_trigger c ev st :
  personal_balances (transaction_balance_update c Personal ev st) =
    update_personal_balances ev (personal_balances st).
Proof. done. Qed.

Lemma tx_table_after_trigger c d d' ev st :
  tx_table d (transaction_balance_update c d' ev st) = tx_table d st.
Proof. by destruct d, d'. Qed.

Lemma tx_table_set d t st : tx_table d (set_tx_table d t st) = t.
Proof. by destruct d. Qed.

(** The pair and the signed amount of a row depend on its parties and its
    amount only. *)
Lemma pair_of_ext r r' :
  from_partner_id r = from_partner_id r' → to_partner_id r = to_partner_id r' →
  pair_of r = pair_of r'.
Proof. unfold pair_of. by intros -> ->. Qed.

Lemma signed_amount_ext r r' :
  from_partner_id r = from_partner_id r' → to_partner_id r = to_partner_id r' →
  amount r = amount r' → signed_amount r = signed_amount r'.
Proof. unfold signed_amount. by intros -> -> ->. Qed.

(** The policies of the transaction tables look at the parties and the
    status only. *)
Lemma involved_policy_ext c r r' :
  from_partner_id r = from_partner_id r' → to_partner_id r = to_partner_id r' →
  admits c (involved_policy r) = admits c (involved_policy r').
Proof. unfold admits, involved_policy. by intros -> ->. Qed.

Lemma transaction_update_policy_ext c r r' :
  from_partner_id r = from_partner_id r' → to_partner_id r = to_partner_id r' →
  status r = status r' →
  admits c (transaction_update_policy r) = admits c (transaction_update_policy r').
Proof.
  unfold admits, transaction_update_policy, status_is. by intros -> -> ->.
Qed.

(** An approved row [R] has just been stored under [id] and the trigger
    has applied its delta to the balances [t]: how the pair stands, and
    how it stands after the row is deleted by the same role. *)
Lemma stored_approved_then_deleted (c : role) (now' : timestamptz) (id : uuid) (R : transaction)
    (t : gmap (uuid * uuid) Z) st1 :
  status R = Some approved →
  from_partner_id R ≠ to_partner_id R →
  admits c (involved_policy R) = true →
  personal_transactions st1 !! id = Some R →
  personal_balances st1 = upsert_personal_balance (pair_of R) (signed_amount R) t →
  let lo : uuid := N.min (from_partner_id R) (to_partner_id R) in
  let hi : uuid := N.max (from_partner_id R) (to_partner_id R) in
  let delta := if bool_decide (from_partner_id R = lo) then - amount R else amount R in
  personal_balances st1 !! (lo, hi) =
    Some (match t !! (lo, hi) with
          | Some b => b + delta
          | None => delta
          end) ∧
  (∀ k, k ≠ (lo, hi) → personal_balances st1 !! k = t !! k) ∧
  ∃ st2, exec c now' (DeleteTx Personal id) st1 = Ok st2 ∧
         personal_balances st2 !! (lo, hi) = Some (default 0 (t !! (lo, hi))) ∧
         (∀ k, k ≠ (lo, hi) → personal_balances st2 !! k = t !! k).
Proof.
  intros Hs Hne Ha HR Hb lo hi delta.
  assert (Hd : signed_amount R = delta) by by apply signed_amount_canonical.
  rewrite Hd in Hb. change (pair_of R) with (lo, hi) in Hb.
  split; [|split].
  - rewrite Hb. apply upsert_lookup_eq.
  - intros k Hk. rewrite Hb. by apply upsert_lookup_ne.
  - eexists. split.
    + rewrite (exec_delete_tx_visible c now' Personal id R) by done.
      unfold perform. change (tx_table Personal st1) with (personal_transactions st1).
      rewrite HR. reflexivity.
    + rewrite personal_balances_after_trigger, personal_delete_approved by done.
      rewrite (proj2 (set_tx_table_balances _ _ _)), Hb, Hd.
      change (pair_of R) with (lo, hi). unfold update_personal_balance.
      split.
      * rewrite lookup_alter_eq, upsert_lookup_eq.
        destruct (t !! (lo, hi)); simpl; f_equal; lia.
      * intros k Hk. rewrite lookup_alter_ne by done. by apply upsert_lookup_ne.
Qed.

(** C5.  When a personal transaction from f to t becomes approved, by the
    INSERT of an approved row or by the UPDATE that approves a pending or
    rejected one, the pairwise balance of (min f t, max f t) gets the
    delta -amount when f is the smaller party and +amount otherwise: an
    absent pair row is created with the delta, a present one is
    incremented by it, and no other pair is touched.  Deleting the
    transaction takes the delta out again: the pair is back at its prior
    balance (at 0 when its row was created by the approval) and the other
    pairs are as before. *)
Theorem personal_pairwise_delta c now now' id NEW s st st1 :
  status NEW = Some approved →
  s = InsertTx Personal id NEW ∨
    (s = UpdateTx Personal id NEW ∧
     ∃ OLD, personal_transactions st !! id = Some OLD ∧
            (status OLD = Some pending ∨ status OLD = Some rejected) ∧
            admits c (transaction_update_policy OLD) = true) →
  exec c now s st = Ok st1 →
  let lo : uuid := N.min (from_partner_id NEW) (to_partner_id NEW) in
  let hi : uuid := N.max (from_partner_id NEW) (to_partner_id NEW) in
  let delta := if bool_decide (from_partner_id NEW = lo)
               then - amount NEW else amount NEW in
  personal_balances st1 !! (lo, hi) =
    Some (match personal_balances st !! (lo, hi) with
          | Some b => b + delta
          | None => delta
          end) ∧
  (∀ k, k ≠ (lo, hi) → personal_balances st1 !! k = personal_balances st !! k) ∧
  ∃ st2, exec c now' (DeleteTx Personal id) st1 = Ok st2 ∧
         personal_balances st2 !! (lo, hi) =
           Some (default 0 (personal_balances st !! (lo, hi))) ∧
         (∀ k, k ≠ (lo, hi) → personal_balances st2 !! k = personal_balances st !! k).
Proof.
  intros Hs [->|[-> (OLD & HO & Hso & Hu)]] H.
  - apply exec_insert_tx in H as [Ha H].
    unfold perform in H. ok_inv H. apply Ok_inj in H. subst st1.
    pose proof (transaction_constraints_distinct _ _ _ Hc0) as Hne.
    apply (stored_approved_then_deleted c now' id NEW); try done.
    + change (personal_transactions ?x) with (tx_table Personal x).
      by rewrite tx_table_after_trigger, tx_table_set, lookup_insert_eq.
    + rewrite personal_balances_after_trigger, personal_insert_approved by done.
      by rewrite (proj2 (set_tx_table_balances _ _ _)).
  - change (personal_transactions st) with (tx_table Personal st) in HO.
    apply (exec_update_tx_visible _ _ _ _ OLD) in H as [Hw H]; [|done|done].
    unfold perform in H. rewrite HO in H. ok_inv H. apply Ok_inj in H. subst st1.
    pose proof (transaction_constraints_distinct _ _ _ Hc) as Hne.
    pose proof (approval_handler_frame Personal now OLD NEW) as (Hst & Ham & Hf & Ht).
    set (R := transaction_approval_handler Personal now OLD NEW) in *.
    rewrite <- Hf, <- Ht, <- Ham.
    apply (stored_approved_then_deleted c now' id R); try done.
    + congruence.
    + by apply update_policy_involved.
    + change (personal_transactions ?x) with (tx_table Personal x).
      by rewrite tx_table_after_trigger, tx_table_set, lookup_insert_eq.
    + rewrite personal_balances_after_trigger.
      rewrite personal_update_to_approved by (done || congruence).
      by rewrite (proj2 (set_tx_table_balances _ _ _)).
Qed.

(** Bob approves on the page the 50 that Alice has sent him. *)
Lemma personal_pairwise_delta_witness :
  let st := step Sample.fresh
              (authenticated Sample.alice, 1%N,
                 InsertTx Personal 300%N
                   (Sample.transfer Sample.alice Sample.bob 50 pending None None)) in
  let st1 := step st
               (authenticated Sample.bob, 2%N,
                  UpdateTx Personal 300%N
                    (Sample.transfer Sample.alice Sample.bob 50 approved
                       (Some Sample.bob) None)) in
  personal_balances st1 !! (Sample.alice, Sample.bob) = Some (- 50) ∧
  (∀ k, k ≠ (Sample.alice, Sample.bob) →
        personal_balances st1 !! k = personal_balances st !! k) ∧
  ∃ st2, exec (authenticated Sample.bob) 3%N (DeleteTx Personal 300%N) st1 = Ok st2 ∧
         personal_balances st2 !! (Sample.alice, Sample.bob) = Some 0 ∧
         (∀ k, k ≠ (Sample.alice, Sample.bob) →
               personal_balances st2 !! k = personal_balances st !! k).
Proof.
  intros st st1.
  apply (personal_pairwise_delta (authenticated Sample.bob) 2%N 3%N 300%N
           (Sample.transfer Sample.alice Sample.bob 50 approved (Some Sample.bob) None)
           (UpdateTx Personal 300%N
              (Sample.transfer Sample.alice Sample.bob 50 approved (Some Sample.bob) None))
           st).
  - reflexivity.
  - right. split; [reflexivity|].
    exists (Sample.transfer Sample.alice Sample.bob 50 pending None None).
    split; [by vm_compute|]. split; [by left|by vm_compute].
  - by vm_compute.
Defined.

(** ** The status invariant *)

(** A row accepted by the constraints of its table satisfies the invariant. *)
Lemma constraints_status_invariant d r st :
  transaction_constraints d r st = Ok () → status_invariant r.
Proof.
  unfold transaction_constraints. intros H. ok_inv H.
  assert (Hv : Sql.check (valid_approval_status r) = true).
  { destruct d; [by apply require_Ok in H|].
    ok_inv H. by apply require_Ok in H. }
  clear -Hv. unfold status_invariant, valid_approval_status in *. tv_cases.
  destruct (status r) as [[]|], (approved_by r), (approved_at r);
    simpl in *; repeat split; intros; try done; eauto.
Qed.

Lemma tx_table_set_partners d t st : tx_table d (set_partners t st) = tx_table d st.
Proof. by destruct d. Qed.

Lemma tx_table_set_daily_sales d t st : tx_table d (set_daily_sales t st) = tx_table d st.
Proof. by destruct d. Qed.

Lemma tx_table_set_other d d' t st :
  d ≠ d' → tx_table d (set_tx_table d' t st) = tx_table d st.
Proof. by destruct d, d'. Qed.

Lemma perform_row_origin c now s st st' d id r :
  perform c now s st = Ok st' →
  tx_table d st' !! id = Some r →
  tx_table d st !! id = Some r ∨ transaction_constraints d r st = Ok ().
Proof.
  intros H Hr. destruct s as [i N|i N|i|d' i N|d' i N|d' i]; unfold perform in H.
  - ok_inv H. apply Ok_inj in H. subst st'.
    rewrite tx_table_set_partners, tx_table_set_daily_sales in Hr. by left.
  - destruct (daily_sales st !! i); [|apply Ok_inj in H; subst; by left].
    ok_inv H. apply Ok_inj in H. subst st'.
    rewrite tx_table_set_partners, tx_table_set_daily_sales in Hr. by left.
  - destruct (daily_sales st !! i); [|apply Ok_inj in H; subst; by left].
    apply Ok_inj in H. subst st'.
    rewrite tx_table_set_partners, tx_table_set_daily_sales in Hr. by left.
  - ok_inv H. apply Ok_inj in H. subst st'.
    rewrite tx_table_after_trigger in Hr.
    destruct (decide (d = d')) as [->|Hd].
    + rewrite tx_table_set in Hr. apply lookup_insert_Some in Hr as [[_ <-]|[_ Hr]]; auto.
    + rewrite tx_table_set_other in Hr by done. by left.
  - destruct (tx_table d' st !! i) as [OLD|]; [|apply Ok_inj in H; subst; by left].
    ok_inv H. apply Ok_inj in H. subst st'.
    rewrite tx_table_after_trigger in Hr.
    destruct (decide (d = d')) as [->|Hd].
    + rewrite tx_table_set in Hr. apply lookup_insert_Some in Hr as [[_ <-]|[_ Hr]]; auto.
    + rewrite tx_table_set_other in Hr by done. by left.
  - destruct (tx_table d' st !! i) as [OLD|]; [|apply Ok_inj in H; subst; by left].
    apply Ok_inj in H. subst st'.
    rewrite tx_table_after_trigger in Hr.
    destruct (decide (d = d')) as [->|Hd].
    + rewrite tx_table_set in Hr. apply lookup_delete_Some in Hr as [_ Hr]. by left.
    + rewrite tx_table_set_other in Hr by done. by left.
Qed.

(** Where a row of a transaction table comes from after one statement:
    it was there before, or it has just passed the table's constraints. *)
Lemma exec_row_origin c now s st st' d id r :
  exec c now s st = Ok st' →
  tx_table d st' !! id = Some r →
  tx_table d st !! id = Some r ∨ transaction_constraints d r st = Ok ().
Proof.
  intros H Hr. apply exec_Ok in H as [[_ ->]|[_ H]]; [by left|].
  by eapply perform_row_origin.
Qed.






(** ** Duplicate sale dates *)

Lemma date_taken_lookup d (t : gmap uuid daily_sale) id0 ds0 :
  t !! id0 = Some ds0 → date ds0 = d → date_taken d t = true.
Proof.
  intros Hl Hd. unfold date_taken. apply bool_decide_eq_true_2.
  apply map_Exists_lookup. by exists id0, ds0.
Qed.

(** With an [excludeId], [checkDateExists] finds any other row of that date. *)
Lemma checkDateExists_other d st id id0 ds0 :
  daily_sales st !! id0 = Some ds0 → date ds0 = d → id0 ≠ id →
  checkDateExists d (Some id) st = true.
Proof.
  intros Hl Hd Hne. unfold checkDateExists. apply bool_decide_eq_true_2.
  assert (Hlen : ∀ l : list (uuid * daily_sale), (id0, ds0) ∈ l → (0 < length l)%nat).
  { intros [|x l] Hin; [by apply elem_of_nil in Hin|simpl; lia]. }
  apply Hlen, list_elem_of_filter. split; [done|]. by apply elem_of_map_to_list.
Qed.

(** The table refuses the INSERT of a date that is taken. *)
Lemma insert_taken_date c now id NEW st id0 ds0 :
  daily_sales st !! id0 = Some ds0 → date ds0 = date NEW →
  exec c now (InsertSale id NEW) st =
    Err (if admits c (daily_sales_policy NEW) then unique_violation
         else insufficient_privilege).
Proof.
  intros Hl Hd. unfold exec, row_level_security, perform.
  destruct (admits c (daily_sales_policy NEW)); [|done].
  destruct (bool_decide (daily_sales st !! id = None)); [|done]. simpl.
  unfold daily_sales_constraints. by rewrite (date_taken_lookup _ _ _ _ Hl Hd).
Qed.

(** C8 on the code.  When a sale entry with the submitted date already
    exists, creating a sale through [handleSubmit] is refused and the
    database is as it was, but not by the duplicate-date alert: for a new
    entry [checkDateExists] answers [false], the insert is sent, the
    UNIQUE constraint on [date] refuses it, and the page reports the
    general saving error.  Editing another entry to that date does stop at
    the duplicate-date alert.  The table refuses any INSERT of the date. *)
Theorem duplicate_date_rejected_without_alert js_add user now new_id data st id0 ds0 :
  daily_sales st !! id0 = Some ds0 →
  date ds0 = form_date data →
  checkDateExists (form_date data) None st = false ∧
  handleSubmit js_add (Some user) now None new_id data st = (Failed unique_violation, st) ∧
  (∀ id, id ≠ id0 →
     handleSubmit js_add (Some user) now (Some id) new_id data st = (DuplicateDateError, st)) ∧
  (∀ c id NEW, date NEW = form_date data →
     exec c now (InsertSale id NEW) st =
       Err (if admits c (daily_sales_policy NEW) then unique_violation
            else insufficient_privilege)).
Proof.
  intros Hl Hd. split; [done|]. split; [|split].
  - unfold handleSubmit. cbn [checkDateExists].
    rewrite (insert_taken_date _ _ _ _ _ id0 ds0) by done.
    unfold admits, daily_sales_policy, Sql.holds, Sql.eq. cbn [created_by].
    by rewrite bool_decide_eq_true_2.
  - intros id Hne. unfold handleSubmit.
    by rewrite (checkDateExists_other _ _ _ id0 ds0).
  - intros c id NEW HN. apply (insert_taken_date _ _ _ _ _ id0 ds0); congruence.
Qed.

Lemma duplicate_date_rejected_without_alert_witness :
  let st := step Sample.fresh
              (authenticated Sample.alice, 1%N,
                 InsertSale 100%N (Sample.sale 20%N 500 500 (Some Sample.alice))) in
  let data := {| form_date := 20%N; form_online_amount := 10;
                 form_cash_amount := 5; form_notes := None |} in
  checkDateExists (form_date data) None st = false ∧
  handleSubmit Z.add (Some Sample.bob) 2%N None 101%N data st = (Failed unique_violation, st) ∧
  (∀ id, id ≠ 100%N →
     handleSubmit Z.add (Some Sample.bob) 2%N (Some id) 101%N data st
       = (DuplicateDateError, st)) ∧
  (∀ c id NEW, date NEW = form_date data →
     exec c 2%N (InsertSale id NEW) st =
       Err (if admits c (daily_sales_policy NEW) then unique_violation
            else insufficient_privilege)).
Proof.
  apply (duplicate_date_rejected_without_alert Z.add Sample.bob 2%N 101%N _ _ 100%N
           (Sample.sale 20%N 500 500 (Some Sample.alice))); by vm_compute.
Defined.

(** ** Approving twice *)

(** The row [handleTransactionApproval] sends when approving. *)
Lemma reapproval_accepted now user OLD st :
  status OLD = Some approved →
  transaction_constraints Personal OLD st = Ok () →
  is_Some (partners st !! user) →
  let updateData :=
    {| from_partner_id := from_partner_id OLD; to_partner_id := to_partner_id OLD;
       amount := amount OLD; transaction_date := transaction_date OLD;
       status := Some approved; approved_by := Some user;
       approved_at := approved_at OLD; rejection_reason := rejection_reason OLD |} in
  handle_transaction_approval now OLD updateData = updateData ∧
  transaction_constraints Personal updateData st = Ok ().
Proof.
  intros Hs Hok Hu updateData. split.
  - unfold handle_transaction_approval. rewrite !status_is_holds. tv_cases.
    rewrite Hs. simpl. done.
  - apply transaction_constraints_Ok in Hok as (Hfk & Hd & Ham & Hv).
    apply transaction_constraints_Ok. repeat split; simpl.
    + rewrite !andb_true_iff in *. destruct Hfk as [[Hf Ht] _].
      repeat split; [done|done|]. by apply bool_decide_eq_true_2.
    + done.
    + by intros _; apply Ham.
    + unfold valid_approval_status in *. tv_cases. rewrite Hs in *.
      simpl in *. by destruct (approved_by OLD), (approved_at OLD).
Qed.

(** C3 (as the code has it).  Approving through the personal page a
    personal transaction that is already approved is accepted:
    [handleTransactionApproval] completes without an error, every partner
    balance and pairwise balance is as before, and when the partner who
    approves is one of the two parties the row now names that partner as
    its approver.  In both domains, a database update that keeps an
    approved row approved with the same amount changes no balance, whoever
    issues it. *)
Theorem repeated_approval_changes_no_balance user now id reason st OLD :
  personal_transactions st !! id = Some OLD →
  status OLD = Some approved →
  transaction_constraints Personal OLD st = Ok () →
  is_Some (partners st !! user) →
  (∃ st', handleTransactionApproval (Some user) now id approve reason st = (Completed, st') ∧
          partners st' = partners st ∧ personal_balances st' = personal_balances st ∧
          (user = from_partner_id OLD ∨ user = to_partner_id OLD →
           (approved_by <$> personal_transactions st' !! id) = Some (Some user))) ∧
  (∀ c d id' OLD' NEW st',
     tx_table d st !! id' = Some OLD' →
     status OLD' = Some approved → status NEW = Some approved →
     amount NEW = amount OLD' →
     exec c now (UpdateTx d id' NEW) st = Ok st' →
     partners st' = partners st ∧ personal_balances st' = personal_balances st).
Proof.
  intros Hl Hs Hc Hu. split.
  - destruct (reapproval_accepted now user OLD st Hs Hc Hu) as [Hh Hc'].
    unfold handleTransactionApproval. rewrite Hl.
    change (personal_transactions st) with (tx_table Personal st) in Hl.
    unfold exec, row_level_security, perform. rewrite Hl.
    change (transaction_approval_handler Personal) with handle_transaction_approval.
    rewrite Hh.
    match goal with
    | |- context [transaction_update_policy (Build_transaction ?f ?t ?a ?dt ?s ?b ?at_ ?rr)] =>
        rewrite (transaction_update_policy_ext (authenticated user)
                   (Build_transaction f t a dt s b at_ rr) OLD) by done
    end.
    destruct (admits (authenticated user) (transaction_update_policy OLD)) eqn:Ha.
    + rewrite Hc'. eexists. split; [reflexivity|].
      rewrite approved_same_amount_frame by done.
      split; [apply set_tx_table_balances|]. split; [apply set_tx_table_balances|].
      intros _. change (personal_transactions ?x) with (tx_table Personal x).
      by rewrite tx_table_set, lookup_insert_eq.
    + eexists. split; [reflexivity|]. split; [done|]. split; [done|].
      intros Hparty.
      assert (admits (authenticated user) (transaction_update_policy OLD) = true) as Hv;
        [|by rewrite Hv in Ha].
      apply transaction_update_policy_spec. right.
      split; [|by right]. destruct Hparty as [->| ->]; auto.
  - intros c d id' OLD' NEW st' Hl' Hso Hsn Ha H.
    apply exec_Ok in H as [[_ ->]|[_ H]]; [done|].
    unfold perform in H. rewrite Hl' in H. ok_inv H. apply Ok_inj in H. subst st'.
    pose proof (approval_handler_frame d now OLD' NEW) as (Hst & Ham & _).
    rewrite approved_same_amount_frame by congruence.
    apply set_tx_table_balances.
Qed.

Lemma repeated_approval_changes_no_balance_witness :
  let st := Sample.after_personal_approval in
  (∃ st', handleTransactionApproval (Some Sample.bob) 5%N 300%N approve None st
            = (Completed, st') ∧
          partners st' = partners st ∧ personal_balances st' = personal_balances st ∧
          (Sample.bob = Sample.alice ∨ Sample.bob = Sample.bob →
           (approved_by <$> personal_transactions st' !! 300%N) = Some (Some Sample.bob))) ∧
  (∀ c d id' OLD' NEW st',
     tx_table d st !! id' = Some OLD' →
     status OLD' = Some approved → status NEW = Some approved →
     amount NEW = amount OLD' →
     exec c 5%N (UpdateTx d id' NEW) st = Ok st' →
     partners st' = partners st ∧ personal_balances st' = personal_balances st).
Proof.
  apply (repeated_approval_changes_no_balance Sample.bob 5%N 300%N None
           Sample.after_personal_approval
           (Sample.transfer Sample.alice Sample.bob 50 approved (Some Sample.bob) (Some 2%N)));
    try by vm_compute.
  by exists 0.
Defined.

(** C3 as stated fails: the second approval of an approved transaction is
    not refused. *)
Lemma second_approval_is_not_refused :
  let st := Sample.after_personal_approval in
  (status <$> personal_transactions st !! 300%N) = Some (Some approved) ∧
  (handleTransactionApproval (Some Sample.bob) 5%N 300%N approve None st).1 = Completed.
Proof. by vm_compute. Qed.

(** ** Incremental balances against the full recalculation *)

(** C1 fails on the code: after an approved business transaction has its
    receiver edited (amount unchanged), the balances kept by the triggers
    differ from what the recalculation derives from the rows.  Bob keeps
    the 300 and Carol has nothing, while the rows say the reverse. *)
Theorem party_edit_breaks_reconciliation :
  let st := run (Sample.approved_history ++
                 [(authenticated Sample.alice, 4%N,
                     UpdateTx Business 200%N
                       (Sample.transfer Sample.alice Sample.carol 300 approved
                          (Some Sample.bob) (Some 3%N)))]) Sample.fresh in
  (partners st !! Sample.bob = Some 300 ∧ partners st !! Sample.carol = Some 0) ∧
  (partners (recalculate_balances st) !! Sample.bob = Some 0 ∧
   partners (recalculate_balances st) !! Sample.carol = Some 300) ∧
  (from_partner_id <$> partner_transactions st !! 200%N) = Some Sample.alice ∧
  (to_partner_id <$> partner_transactions st !! 200%N) = Some Sample.carol.
Proof. by vm_compute. Qed.

(** *** Sums over a table *)

Lemma coalesce_sum l : Sql.COALESCE (Sql.SUM l) 0 = foldr Z.add 0 l.
Proof. by destruct l. Qed.

Lemma foldr_add_Permutation (l1 l2 : list Z) :
  l1 ≡ₚ l2 → foldr Z.add 0 l1 = foldr Z.add 0 l2.
Proof. induction 1; simpl; lia. Qed.

Section table_sums.
Context {A : Type} (P : A → bool) (f : A → Z).

Lemma total_insert (m : gmap uuid A) i x :
  m !! i = None → table_total P f (<[i:=x]> m) = table_total P f m + row_share P f x.
Proof.
  intros Hi. unfold table_total, row_share. rewrite !coalesce_sum.
  rewrite (foldr_add_Permutation _
             (f <$> filter (λ x, P x) ((i, x) :: map_to_list m).*2)).
  2:{ apply fmap_Permutation, filter_Permutation, fmap_Permutation.
      by apply map_to_list_insert. }
  rewrite fmap_cons, filter_cons. cbn [snd].
  destruct (P x); case_decide; try done; rewrite ?fmap_cons; cbn [foldr]; lia.
Qed.

Lemma total_delete (m : gmap uuid A) i x :
  m !! i = Some x → table_total P f (delete i m) = table_total P f m - row_share P f x.
Proof.
  intros Hi. rewrite <- (insert_delete_id m i x Hi) at 2.
  rewrite total_insert by apply lookup_delete_eq. lia.
Qed.

Lemma total_update (m : gmap uuid A) i x y :
  m !! i = Some x →
  table_total P f (<[i:=y]> m) = table_total P f m + (row_share P f y - row_share P f x).
Proof.
  intros Hi. rewrite <- insert_delete_eq.
  rewrite total_insert by apply lookup_delete_eq.
  rewrite (total_delete m i x Hi). lia.
Qed.

End table_sums.

Lemma total_sales_insert p m i x :
  m !! i = None → total_sales p (<[i:=x]> m) = total_sales p m + sale_share p x.
Proof.
  apply (total_insert (λ ds, Sql.holds (Sql.eq (partner_id ds) (Some p))) total_amount).
Qed.

Lemma total_sales_delete p m i x :
  m !! i = Some x → total_sales p (delete i m) = total_sales p m - sale_share p x.
Proof.
  apply (total_delete (λ ds, Sql.holds (Sql.eq (partner_id ds) (Some p))) total_amount).
Qed.

Lemma total_sales_update p m i x y :
  m !! i = Some x →
  total_sales p (<[i:=y]> m) = total_sales p m + (sale_share p y - sale_share p x).
Proof.
  apply (total_update (λ ds, Sql.holds (Sql.eq (partner_id ds) (Some p))) total_amount).
Qed.

Lemma approved_net_insert p m i x :
  m !! i = None → approved_net p (<[i:=x]> m) = approved_net p m + transaction_share p x.
Proof.
  apply (total_insert
    (λ pt, Sql.holds (Sql.AND (Sql.OR (Sql.eq (Some (from_partner_id pt)) (Some p))
                                      (Sql.eq (Some (to_partner_id pt)) (Some p)))
                              (status_is pt approved)))
    (λ pt, if bool_decide (to_partner_id pt = p) then amount pt
           else if bool_decide (from_partner_id pt = p) then - amount pt else 0)).
Qed.

Lemma approved_net_delete p m i x :
  m !! i = Some x → approved_net p (delete i m) = approved_net p m - transaction_share p x.
Proof.
  apply (total_delete
    (λ pt, Sql.holds (Sql.AND (Sql.OR (Sql.eq (Some (from_partner_id pt)) (Some p))
                                      (Sql.eq (Some (to_partner_id pt)) (Some p)))
                              (status_is pt approved)))
    (λ pt, if bool_decide (to_partner_id pt = p) then amount pt
           else if bool_decide (from_partner_id pt = p) then - amount pt else 0)).
Qed.

Lemma approved_net_update p m i x y :
  m !! i = Some x →
  approved_net p (<[i:=y]> m) =
    approved_net p m + (transaction_share p y - transaction_share p x).
Proof.
  apply (total_update
    (λ pt, Sql.holds (Sql.AND (Sql.OR (Sql.eq (Some (from_partner_id pt)) (Some p))
                                      (Sql.eq (Some (to_partner_id pt)) (Some p)))
                              (status_is pt approved)))
    (λ pt, if bool_decide (to_partner_id pt = p) then amount pt
           else if bool_decide (from_partner_id pt = p) then - amount pt else 0)).
Qed.

(** *** What the triggers add to one partner's balance *)

Lemma transaction_share_cases p r :
  from_partner_id r ≠ to_partner_id r →
  transaction_share p r =
    if bool_decide (status r = Some approved) then
      if bool_decide (to_partner_id r = p) then amount r
      else if bool_decide (from_partner_id r = p) then - amount r else 0
    else 0.
Proof.
  intros Hne. unfold transaction_share. tv_cases.
  destruct (status r) as [[]|]; simpl; repeat case_bool_decide; simpl; congruence.
Qed.

Lemma sale_share_cases p r :
  sale_share p r = if bool_decide (partner_id r = Some p) then total_amount r else 0.
Proof.
  unfold sale_share. tv_cases.
  destruct (partner_id r); simpl; repeat case_bool_decide; simpl; congruence.
Qed.

Ltac lookup_cases :=
  rewrite ?update_partners_lookup;
  repeat match goal with
  | |- context [may_update ?c ?p] => destruct (may_update c p)
  end;
  rewrite ?andb_true_r, ?andb_false_r;
  repeat case_bool_decide; simplify_eq; simpl; try done;
  repeat match goal with
  | |- context [?t !! ?k] => destruct (t !! k) eqn:?
  end; simpl in *; simplify_eq; try done; try (f_equal; lia).

(** A balance that the role may not update is left alone by the triggers. *)
Lemma sales_trigger_hidden c ev t p :
  may_update c p = false → update_partner_balance_from_sales c ev t !! p = t !! p.
Proof.
  intros Hm. unfold update_partner_balance_from_sales.
  repeat case_match; rewrite ?update_partners_lookup, ?Hm, ?andb_false_r; done.
Qed.

Lemma business_trigger_hidden c ev t p :
  may_update c p = false → update_business_partner_balances c ev t !! p = t !! p.
Proof.
  intros Hm. unfold update_business_partner_balances.
  repeat case_match; rewrite ?update_partners_lookup, ?Hm, ?andb_false_r; done.
Qed.

Lemma original_trigger_hidden c ev t p :
  may_update c p = false → Earlier.update_partner_balances c ev t !! p = t !! p.
Proof.
  intros Hm. unfold Earlier.update_partner_balances.
  repeat case_match; rewrite ?update_partners_lookup, ?Hm, ?andb_false_r; done.
Qed.

(** A balance that the role may update moves by the change of the row's
    share. *)
Lemma sales_trigger_visible c ev t p :
  may_update c p = true →
  update_partner_balance_from_sales c ev t !! p =
    (λ b, b + event_delta (sale_share p) ev) <$> t !! p.
Proof.
  intros Hm.
  destruct ev as [NEW|OLD NEW|OLD]; simpl; rewrite !sale_share_cases;
    unfold update_partner_balance_from_sales; tv_cases.
  - destruct (partner_id NEW) as [q|]; rewrite ?update_partners_lookup, ?Hm; lookup_cases.
  - destruct (partner_id OLD) as [q|], (partner_id NEW) as [q'|]; simpl;
      repeat case_bool_decide; simpl; simplify_eq;
      rewrite ?update_partners_lookup, ?Hm; lookup_cases.
  - destruct (partner_id OLD) as [q|]; rewrite ?update_partners_lookup, ?Hm; lookup_cases.
Qed.

Lemma business_trigger_visible c ev t p :
  may_update c p = true →
  Forall (λ r, from_partner_id r ≠ to_partner_id r) (event_rows ev) →
  match ev with UPDATE OLD NEW => keeps_parties OLD NEW = true | _ => True end →
  update_business_partner_balances c ev t !! p =
    (λ b, b + event_delta (transaction_share p) ev) <$> t !! p.
Proof.
  intros Hm Hrows Hkeep.
  destruct ev as [NEW|OLD NEW|OLD]; simpl in *;
    repeat (apply Forall_cons in Hrows as [? Hrows]);
    rewrite !transaction_share_cases by done;
    unfold update_business_partner_balances, keeps_parties in *; tv_cases.
  - destruct (status NEW) as [[]|]; simpl; rewrite ?update_partners_lookup, ?Hm; lookup_cases.
  - destruct (status OLD) as [[]|], (status NEW) as [[]|]; simpl in *; try done;
      repeat case_bool_decide; simpl; destruct_and?; simplify_eq;
      try (rewrite bool_decide_eq_true_2 by done);
      try (rewrite bool_decide_eq_false_2 by done); simpl;
      rewrite ?update_partners_lookup, ?Hm; lookup_cases.
  - destruct (status OLD) as [[]|]; simpl; rewrite ?update_partners_lookup, ?Hm; lookup_cases.
Qed.

Lemma sales_trigger_lookup c ev t p :
  update_partner_balance_from_sales c ev t !! p =
    (λ b, b + (if may_update c p then event_delta (sale_share p) ev else 0)) <$> t !! p.
Proof.
  destruct (may_update c p) eqn:Hm.
  - by apply sales_trigger_visible.
  - rewrite sales_trigger_hidden by done.
    destruct (t !! p); simpl; [f_equal; lia|done].
Qed.

Lemma business_trigger_lookup c ev t p :
  Forall (λ r, from_partner_id r ≠ to_partner_id r) (event_rows ev) →
  match ev with UPDATE OLD NEW => keeps_parties OLD NEW = true | _ => True end →
  update_business_partner_balances c ev t !! p =
    (λ b, b + (if may_update c p then event_delta (transaction_share p) ev else 0))
      <$> t !! p.
Proof.
  intros Hrows Hkeep. destruct (may_update c p) eqn:Hm.
  - by apply business_trigger_visible.
  - rewrite business_trigger_hidden by done.
    destruct (t !! p); simpl; [f_equal; lia|done].
Qed.

(** *** One statement at a time *)

Lemma recalculate_balances_lookup st p :
  partners (recalculate_balances st) !! p =
    (λ _, total_sales p (daily_sales st) + approved_net p (partner_transactions st))
      <$> partners st !! p.
Proof.
  unfold recalculate_balances. simpl.
  rewrite !map_lookup_imap, lookup_fmap. by destruct (partners st !! p).
Qed.

Lemma reconciled_recalculate st :
  reconciled st ↔ partners (recalculate_balances st) = partners st.
Proof.
  split.
  - intros Hrec. apply map_eq. intros p. rewrite recalculate_balances_lookup.
    destruct (partners st !! p) as [b|] eqn:Hp; [|done]. simpl.
    by rewrite (Hrec p b Hp).
  - intros Heq p b Hp. pose proof (recalculate_balances_lookup st p) as Hl.
    rewrite Heq, Hp in Hl. simpl in Hl. by injection Hl.
Qed.

(** If a statement moves each balance by what it adds to the two sums,
    reconciled balances stay reconciled. *)
Lemma reconciled_after st st' (ds dt : uuid → Z) :
  reconciled st →
  (∀ p, partners st' !! p = (λ b, b + (ds p + dt p)) <$> partners st !! p) →
  (∀ p, total_sales p (daily_sales st') = total_sales p (daily_sales st) + ds p) →
  (∀ p, approved_net p (partner_transactions st') =
        approved_net p (partner_transactions st) + dt p) →
  reconciled st'.
Proof.
  intros Hrec Hb Hs Ht p b' Hp. rewrite Hb in Hp.
  destruct (partners st !! p) as [b|] eqn:Hp0; [|done].
  simpl in Hp. injection Hp as <-. rewrite Hs, Ht, (Hrec p b Hp0). lia.
Qed.

Lemma lookup_fmap_add_0 (t : gmap uuid Z) p : t !! p = (λ b, b + (0 + 0)) <$> t !! p.
Proof. destruct (t !! p); simpl; [f_equal; lia|done]. Qed.

Lemma approval_handler_keeps_parties d now OLD NEW :
  keeps_parties OLD (transaction_approval_handler d now OLD NEW) = keeps_parties OLD NEW.
Proof.
  pose proof (approval_handler_frame d now OLD NEW) as (Hs & _ & Hf & Ht).
  unfold keeps_parties. by rewrite Hs, Hf, Ht.
Qed.

Ltac proj_simpl :=
  cbn [partners daily_sales partner_transactions personal_transactions
       personal_balances set_partners set_daily_sales set_personal_balances
       set_tx_table transaction_balance_update tx_table].

(** Issued by the owner of the tables, a statement keeps reconciled
    balances reconciled. *)
Lemma perform_reconciled now s st st' :
  reconciled st → parties_differ st → edit_keeps_parties s st = true →
  perform table_owner now s st = Ok st' → reconciled st'.
Proof.
  intros Hrec Hdiff Hkeep H.
  destruct s as [i N|i N|i|d i N|d i N|d i]; unfold perform in H.
  - ok_inv H. apply Ok_inj in H. subst st'.
    apply require_Ok, bool_decide_eq_true_1 in Hc.
    apply (reconciled_after st _ (λ p, sale_share p N) (λ _, 0) Hrec); intros p; proj_simpl.
    + rewrite sales_trigger_visible by done. simpl.
      destruct (partners st !! p); simpl; [f_equal; lia|done].
    + by apply total_sales_insert.
    + lia.
  - destruct (daily_sales st !! i) as [O|] eqn:HO; [|apply Ok_inj in H; by subst].
    ok_inv H. apply Ok_inj in H. subst st'.
    apply (reconciled_after st _ (λ p, sale_share p N - sale_share p O) (λ _, 0) Hrec);
      intros p; proj_simpl.
    + rewrite sales_trigger_visible by done. simpl.
      destruct (partners st !! p); simpl; [f_equal; lia|done].
    + by apply total_sales_update.
    + lia.
  - destruct (daily_sales st !! i) as [O|] eqn:HO; [|apply Ok_inj in H; by subst].
    apply Ok_inj in H. subst st'.
    apply (reconciled_after st _ (λ p, - sale_share p O) (λ _, 0) Hrec); intros p; proj_simpl.
    + rewrite sales_trigger_visible by done. simpl.
      destruct (partners st !! p); simpl; [f_equal; lia|done].
    + rewrite (total_sales_delete _ _ _ _ HO). lia.
    + lia.
  - ok_inv H. apply Ok_inj in H. subst st'.
    apply require_Ok, bool_decide_eq_true_1 in Hc.
    pose proof (transaction_constraints_distinct _ _ _ Hc0) as Hne.
    destruct d.
    + apply (reconciled_after st _ (λ _, 0) (λ p, transaction_share p N) Hrec);
        intros p; proj_simpl.
      * rewrite business_trigger_visible by (try done; by repeat constructor). simpl.
        destruct (partners st !! p); simpl; [f_equal; lia|done].
      * lia.
      * by apply approved_net_insert.
    + apply (reconciled_after st _ (λ _, 0) (λ _, 0) Hrec); intros p; proj_simpl;
        [apply lookup_fmap_add_0|lia|lia].
  - destruct (tx_table d st !! i) as [O|] eqn:HO; [|apply Ok_inj in H; by subst].
    ok_inv H. apply Ok_inj in H. subst st'.
    pose proof (transaction_constraints_distinct _ _ _ Hc) as Hne.
    destruct d.
    + simpl in Hkeep, HO. rewrite HO in Hkeep.
      set (N' := transaction_approval_handler Business now O N) in *.
      apply (reconciled_after st _ (λ _, 0)
               (λ p, transaction_share p N' - transaction_share p O) Hrec);
        intros p; proj_simpl.
      * rewrite business_trigger_visible.
        -- simpl. destruct (partners st !! p); simpl; [f_equal; lia|done].
        -- done.
        -- repeat constructor; [by eapply Hdiff|done].
        -- unfold N'. by rewrite approval_handler_keeps_parties.
      * lia.
      * by apply approved_net_update.
    + apply (reconciled_after st _ (λ _, 0) (λ _, 0) Hrec); intros p; proj_simpl;
        [apply lookup_fmap_add_0|lia|lia].
  - destruct (tx_table d st !! i) as [O|] eqn:HO; [|apply Ok_inj in H; by subst].
    apply Ok_inj in H. subst st'.
    destruct d.
    + apply (reconciled_after st _ (λ _, 0) (λ p, - transaction_share p O) Hrec);
        intros p; proj_simpl.
      * rewrite business_trigger_visible.
        -- simpl. destruct (partners st !! p); simpl; [f_equal; lia|done].
        -- done.
        -- repeat constructor. by eapply Hdiff.
        -- done.
      * lia.
      * simpl in HO. rewrite (approved_net_delete _ _ _ _ HO). lia.
    + apply (reconciled_after st _ (λ _, 0) (λ _, 0) Hrec); intros p; proj_simpl;
        [apply lookup_fmap_add_0|lia|lia].
Qed.

Lemma exec_parties_differ c now s st st' :
  parties_differ st → exec c now s st = Ok st' → parties_differ st'.
Proof.
  intros Hdiff H id r Hr.
  change (partner_transactions st') with (tx_table Business st') in Hr.
  destruct (exec_row_origin _ _ _ _ _ _ _ _ H Hr) as [Hold|Hnew].
  - by eapply Hdiff.
  - by eapply transaction_constraints_distinct.
Qed.

Lemma run_reconciled l st :
  issued_by_owner l →
  reconciled st → parties_differ st → edits_keep_parties l st = true →
  reconciled (run l st).
Proof.
  revert st. induction l as [|s l IH]; intros st Ho Hrec Hdiff Hkeep; [done|].
  apply Forall_cons in Ho as [Hs Ho].
  simpl in Hkeep. apply andb_true_iff in Hkeep as [Hk1 Hk2].
  simpl. unfold step in *.
  destruct (exec s.1.1 s.1.2 s.2 st) as [st'|e] eqn:He; [|by apply IH].
  apply IH; [done| |by eapply exec_parties_differ|done].
  rewrite Hs, exec_owner in He. by eapply perform_reconciled.
Qed.

Lemma all_zero_reconciled st : all_zero st → reconciled st ∧ parties_differ st.
Proof.
  intros (Hz & Hs & Ht). split.
  - intros p b Hp. rewrite (Hz p b Hp), Hs, Ht.
    unfold total_sales, approved_net. by rewrite map_to_list_empty.
  - intros id r Hr. by rewrite Ht, lookup_empty in Hr.
Qed.

Lemma fresh_all_zero : all_zero Sample.fresh.
Proof.
  split; [|done]. intros p b Hp.
  unfold Sample.fresh in Hp. simpl in Hp.
  repeat (apply lookup_insert_Some in Hp as [[_ <-]|[_ Hp]]; [done|]).
  by apply lookup_singleton_Some in Hp as [_ <-].
Qed.

Lemma as_owner_issued_by_owner l : issued_by_owner (Sample.as_owner l).
Proof. unfold issued_by_owner, Sample.as_owner. apply Forall_fmap. by apply Forall_true. Qed.

(** Incremental mutation against full recalculation, where they agree:
    along any sequence of sale and transaction statements issued by the
    owner of the tables and started from balances 0 and empty tables, the
    balances kept by the triggers are the ones the recalculation derives
    from the rows, provided no update of an approved business transaction
    changes its parties (or involves a NULL status). *)
Theorem incremental_matches_recalculation l init :
  all_zero init →
  issued_by_owner l →
  edits_keep_parties l init = true →
  partners (recalculate_balances (run l init)) = partners (run l init).
Proof.
  intros Hz Ho Hkeep. apply reconciled_recalculate.
  destruct (all_zero_reconciled _ Hz) as [Hrec Hdiff].
  by apply run_reconciled.
Qed.

Lemma incremental_matches_recalculation_witness :
  partners (recalculate_balances
              (run (Sample.as_owner Sample.approved_history) Sample.fresh))
  = partners (run (Sample.as_owner Sample.approved_history) Sample.fresh).
Proof.
  apply incremental_matches_recalculation;
    [apply fresh_all_zero|apply as_owner_issued_by_owner|by vm_compute].
Defined.

(** Recalculating twice is recalculating once. *)
Theorem recalculate_balances_idempotent st :
  recalculate_balances (recalculate_balances st) = recalculate_balances st.
Proof.
  assert (Hp : partners (recalculate_balances (recalculate_balances st))
               = partners (recalculate_balances st)).
  { apply map_eq. intros p. rewrite !recalculate_balances_lookup. simpl.
    by destruct (partners st !! p). }
  unfold recalculate_balances at 1 3. unfold set_partners. simpl. f_equal.
  apply Hp.
Qed.

(** ** The ledger scenario *)

(** A sale of 1000 attributed to Alice, entered by her; a pending transfer
    of 300 to Bob changes nothing. *)
Example scenario_sale_then_pending :
  partners (run (take 2 Sample.approved_history) Sample.fresh)
  = {[ Sample.alice := 1000; Sample.bob := 0; Sample.carol := 0 ]}.
Proof. by vm_compute. Qed.

(** Bob approves on the page: the trigger writes with his rights, his
    balance gets the 300, Alice's row is hidden from the update. *)
Example scenario_approved :
  partners Sample.after_approval
  = {[ Sample.alice := 1000; Sample.bob := 300; Sample.carol := 0 ]}.
Proof. by vm_compute. Qed.

(** The same statements issued by the owner of the tables move both. *)
Example scenario_approved_as_owner :
  partners (run (Sample.as_owner Sample.approved_history) Sample.fresh)
  = {[ Sample.alice := 700; Sample.bob := 300; Sample.carol := 0 ]}.
Proof. by vm_compute. Qed.

(** The personal transfer of 50 from Alice to Bob lowers the balance of the
    pair (Alice, Bob) by 50 and leaves the partner balances alone. *)
Example scenario_personal :
  personal_balances Sample.after_personal_approval
    = {[ (Sample.alice, Sample.bob) := -50 ]} ∧
  partners Sample.after_personal_approval = partners Sample.fresh.
Proof. by vm_compute. Qed.

(** ** What no statement does: the set of partners *)

Lemma update_partners_dom c f p (t : gmap uuid Z) : dom (update_partners c f p t) = dom t.
Proof. unfold update_partners. destruct (may_update c p); by rewrite ?dom_alter_L. Qed.

Lemma sales_trigger_dom c ev t : dom (update_partner_balance_from_sales c ev t) = dom t.
Proof.
  destruct ev; unfold update_partner_balance_from_sales;
    repeat case_match; by rewrite ?update_partners_dom.
Qed.

Lemma business_trigger_dom c ev t : dom (update_business_partner_balances c ev t) = dom t.
Proof.
  destruct ev; unfold update_business_partner_balances;
    repeat case_match; by rewrite ?update_partners_dom.
Qed.

Lemma perform_partners_dom c now s st st' :
  perform c now s st = Ok st' → dom (partners st') = dom (partners st).
Proof.
  intros H. destruct s as [i N|i N|i|d i N|d i N|d i]; unfold perform in H.
  - ok_inv H. apply Ok_inj in H. subst st'. apply sales_trigger_dom.
  - destruct (daily_sales st !! i); [|apply Ok_inj in H; by subst].
    ok_inv H. apply Ok_inj in H. subst st'. apply sales_trigger_dom.
  - destruct (daily_sales st !! i); [|apply Ok_inj in H; by subst].
    apply Ok_inj in H. subst st'. apply sales_trigger_dom.
  - ok_inv H. apply Ok_inj in H. subst st'.
    destruct d; [apply business_trigger_dom|done].
  - destruct (tx_table d st !! i); [|apply Ok_inj in H; by subst].
    ok_inv H. apply Ok_inj in H. subst st'.
    destruct d; [apply business_trigger_dom|done].
  - destruct (tx_table d st !! i); [|apply Ok_inj in H; by subst].
    apply Ok_inj in H. subst st'.
    destruct d; [apply business_trigger_dom|done].
Qed.

Lemma exec_partners_dom c now s st st' :
  exec c now s st = Ok st' → dom (partners st') = dom (partners st).
Proof.
  intros H. apply exec_Ok in H as [[_ ->]|[_ H]]; [done|].
  by eapply perform_partners_dom.
Qed.

Lemma step_partners_dom st s : dom (partners (step st s)) = dom (partners st).
Proof.
  unfold step. destruct (exec s.1.1 s.1.2 s.2 st) eqn:He; [|done].
  by eapply exec_partners_dom.
Qed.

(** No sequence of sale and transaction statements adds or removes a
    partner: the triggers only ever update existing partner rows. *)
Theorem partner_set_fixed l st : dom (partners (run l st)) = dom (partners st).
Proof.
  revert st. induction l as [|s l IH]; intros st; [done|].
  simpl. by rewrite IH, step_partners_dom.
Qed.

Lemma is_Some_partners_dom (t t' : gmap uuid Z) p :
  dom t' = dom t → is_Some (t !! p) → is_Some (t' !! p).
Proof. intros Hd. rewrite <- !elem_of_dom. by rewrite Hd. Qed.

(** ** Invariants of the tables *)

Lemma constraints_wellformed d r st :
  transaction_constraints d r st = Ok () →
  from_partner_id r ≠ to_partner_id r ∧
  is_Some (partners st !! from_partner_id r) ∧
  is_Some (partners st !! to_partner_id r) ∧
  (d = Personal → amount r > 0).
Proof.
  intros H. split; [by eapply transaction_constraints_distinct|].
  destruct (transaction_constraints_references _ _ _ H) as [Hf Ht].
  split; [done|]. split; [done|].
  apply transaction_constraints_Ok in H as (_ & _ & Ha & _).
  intros Hd. specialize (Ha Hd). by apply bool_decide_eq_true_1 in Ha.
Qed.

Lemma step_rows_wellformed st s : rows_wellformed st → rows_wellformed (step st s).
Proof.
  intros Hwf d id r Hr. pose proof (step_partners_dom st s) as Hdom.
  unfold step in *. destruct (exec s.1.1 s.1.2 s.2 st) as [st'|e] eqn:He; [|by eapply Hwf].
  assert (Hst : from_partner_id r ≠ to_partner_id r ∧
                is_Some (partners st !! from_partner_id r) ∧
                is_Some (partners st !! to_partner_id r) ∧
                (d = Personal → amount r > 0)).
  { destruct (exec_row_origin _ _ _ _ _ _ _ _ He Hr) as [Hold|Hnew].
    - by eapply Hwf.
    - by eapply constraints_wellformed. }
  destruct Hst as (? & ? & ? & ?).
  repeat split; try done; by eapply is_Some_partners_dom.
Qed.

Lemma run_rows_wellformed l st : rows_wellformed st → rows_wellformed (run l st).
Proof.
  revert st. induction l as [|s l IH]; intros st Hwf; [done|].
  simpl. by apply IH, step_rows_wellformed.
Qed.

Lemma fresh_rows_wellformed : rows_wellformed Sample.fresh.
Proof. intros d id r Hr. destruct d; simpl in Hr; by rewrite lookup_empty in Hr. Qed.

(** Along any sequence of statements the stored transactions keep two
    different parties that are both partners, and personal amounts stay
    positive. *)
Theorem rows_stay_wellformed l st : rows_wellformed st → rows_wellformed (run l st).
Proof. apply run_rows_wellformed. Qed.

Lemma rows_stay_wellformed_witness : rows_wellformed Sample.after_approval.
Proof.
  apply (rows_stay_wellformed Sample.approved_history Sample.fresh).
  intros d id r Hr. destruct d; simpl in Hr; by rewrite lookup_empty in Hr.
Defined.

Lemma daily_sales_constraints_date NEW others st :
  daily_sales_constraints NEW others st = Ok () →
  ∀ j r, others !! j = Some r → date r ≠ date NEW.
Proof.
  unfold daily_sales_constraints. intros H. ok_inv H.
  apply require_Ok, negb_true_iff, bool_decide_eq_false_1 in Hc.
  intros j r Hj Hd. apply Hc, map_Exists_lookup. by exists j, r.
Qed.

Lemma daily_sales_after_tx c d ev t st :
  daily_sales (transaction_balance_update c d ev (set_tx_table d t st)) = daily_sales st.
Proof. by destruct d. Qed.

Ltac proj_simpl_sales :=
  cbn [daily_sales set_partners set_daily_sales] in *.

Lemma perform_dates_unique c now s st st' :
  dates_unique st → perform c now s st = Ok st' → dates_unique st'.
Proof.
  intros Hu H. destruct s as [i N|i N|i|d i N|d i N|d i]; unfold perform in H.
  - ok_inv H. apply Ok_inj in H. subst st'.
    pose proof (daily_sales_constraints_date _ _ _ Hc0) as Hd.
    intros a b r r' Ha Hb Heq. proj_simpl_sales.
    apply lookup_insert_Some in Ha as [[<- <-]|[Hai Ha]];
      apply lookup_insert_Some in Hb as [[<- <-]|[Hbi Hb]]; try done.
    + by destruct (Hd _ _ Hb).
    + by destruct (Hd _ _ Ha).
    + by eapply Hu.
  - destruct (daily_sales st !! i) as [O|] eqn:HO; [|apply Ok_inj in H; by subst].
    ok_inv H. apply Ok_inj in H. subst st'.
    pose proof (daily_sales_constraints_date _ _ _ Hc) as Hd.
    intros a b r r' Ha Hb Heq. proj_simpl_sales.
    apply lookup_insert_Some in Ha as [[<- <-]|[Hai Ha]];
      apply lookup_insert_Some in Hb as [[<- <-]|[Hbi Hb]]; try done.
    + destruct (Hd b r'); [|done]. by apply lookup_delete_Some.
    + destruct (Hd a r); [|done]. by apply lookup_delete_Some.
    + by eapply Hu.
  - destruct (daily_sales st !! i) as [O|] eqn:HO; [|apply Ok_inj in H; by subst].
    apply Ok_inj in H. subst st'.
    intros a b r r' Ha Hb Heq. proj_simpl_sales.
    apply lookup_delete_Some in Ha as [_ Ha]. apply lookup_delete_Some in Hb as [_ Hb].
    by eapply Hu.
  - ok_inv H. apply Ok_inj in H. subst st'.
    unfold dates_unique. by rewrite daily_sales_after_tx.
  - destruct (tx_table d st !! i); [|apply Ok_inj in H; by subst].
    ok_inv H. apply Ok_inj in H. subst st'.
    unfold dates_unique. by rewrite daily_sales_after_tx.
  - destruct (tx_table d st !! i); [|apply Ok_inj in H; by subst].
    apply Ok_inj in H. subst st'.
    unfold dates_unique. by rewrite daily_sales_after_tx.
Qed.

Lemma exec_dates_unique c now s st st' :
  dates_unique st → exec c now s st = Ok st' → dates_unique st'.
Proof.
  intros Hu H. apply exec_Ok in H as [[_ ->]|[_ H]]; [done|].
  by eapply perform_dates_unique.
Qed.

Lemma run_dates_unique l st : dates_unique st → dates_unique (run l st).
Proof.
  revert st. induction l as [|s l IH]; intros st Hu; [done|].
  simpl. apply IH. unfold step.
  destruct (exec s.1.1 s.1.2 s.2 st) eqn:He; [by eapply exec_dates_unique|done].
Qed.

(** Along any sequence of statements there is at most one sale entry per
    date: the UNIQUE constraint on [date] is kept by inserts and by
    updates of the date. *)
Theorem dates_stay_unique l st : dates_unique st → dates_unique (run l st).
Proof. apply run_dates_unique. Qed.

Lemma dates_stay_unique_witness : dates_unique Sample.after_approval.
Proof.
  apply (dates_stay_unique Sample.approved_history Sample.fresh).
  intros i j r r' Hi. cbn in Hi. by rewrite lookup_empty in Hi.
Defined.

(** ** Transfers conserve the total *)

Lemma total_balance_alter f k (t : gmap uuid Z) b :
  t !! k = Some b → total_balance (alter f k t) = total_balance t + (f b - b).
Proof.
  intros Hk. rewrite (alter_alt_Some _ _ _ _ Hk). unfold total_balance.
  rewrite (total_update _ _ t k b (f b) Hk). unfold row_share. lia.
Qed.

(** Written by the owner of the tables, a conditional pair of opposite
    adjustments on two different existing partners keeps the total and the
    set of partners. *)
Lemma transfer_total (c : bool) f g (src dst : uuid) (t : gmap uuid Z) :
  src ≠ dst → is_Some (t !! src) → is_Some (t !! dst) →
  (∀ x y, (g x - x) + (f y - y) = 0) →
  let t' := if c then update_partners table_owner f dst (update_partners table_owner g src t)
            else t in
  total_balance t' = total_balance t ∧ (∀ p, is_Some (t' !! p) ↔ is_Some (t !! p)).
Proof.
  intros Hne [x Hx] [y Hy] Hfg. destruct c; simpl; [|done].
  rewrite !update_partners_owner. split.
  - rewrite (total_balance_alter f dst _ y) by by rewrite lookup_alter_ne.
    rewrite (total_balance_alter g src _ x) by done. specialize (Hfg x y). lia.
  - intros p. by rewrite !lookup_alter_is_Some.
Qed.

Lemma business_trigger_total ev t :
  Forall (λ r, from_partner_id r ≠ to_partner_id r ∧
               is_Some (t !! from_partner_id r) ∧ is_Some (t !! to_partner_id r))
         (event_rows ev) →
  total_balance (update_business_partner_balances table_owner ev t) = total_balance t.
Proof.
  intros Hrows.
  destruct ev as [NEW|OLD NEW|OLD]; simpl in Hrows;
    repeat (apply Forall_cons in Hrows as [(? & ? & ?) Hrows]);
    unfold update_business_partner_balances.
  - by apply transfer_total; [..|intros; lia].
  - match goal with
    | |- total_balance (if ?c3 then update_partners _ ?f3 _ (update_partners _ ?g3 _
                          (if ?c2 then update_partners _ ?f2 _ (update_partners _ ?g2 _
                             (if ?c1 then update_partners _ ?f1 _ (update_partners _ ?g1 _ t)
                              else t))
                           else _)) else _) = _ =>
        destruct (transfer_total c1 f1 g1 (from_partner_id OLD) (to_partner_id OLD) t)
          as [E1 S1]; [done|done|done|intros; lia|];
        set (t1 := if c1 then update_partners table_owner f1 (to_partner_id OLD)
                                (update_partners table_owner g1 (from_partner_id OLD) t)
                   else t) in *;
        destruct (transfer_total c2 f2 g2 (from_partner_id NEW) (to_partner_id NEW) t1)
          as [E2 S2]; [done|by apply S1|by apply S1|intros; lia|];
        set (t2 := if c2 then update_partners table_owner f2 (to_partner_id NEW)
                                (update_partners table_owner g2 (from_partner_id NEW) t1)
                   else t1) in *;
        destruct (transfer_total c3 f3 g3 (from_partner_id NEW) (to_partner_id NEW) t2)
          as [E3 S3]; [done|by apply S2, S1|by apply S2, S1|intros; lia|];
        rewrite E3, E2, E1; done
    end.
  - by apply transfer_total; [..|intros; lia].
Qed.

Lemma perform_conserves_total now s st st' :
  rows_wellformed st → on_transactions s = true →
  perform table_owner now s st = Ok st' →
  total_balance (partners st') = total_balance (partners st).
Proof.
  intros Hwf Htx H.
  destruct s as [| | |d i N|d i N|d i]; try done; unfold perform in H.
  - ok_inv H. apply Ok_inj in H. subst st'.
    destruct d; [|done]. proj_simpl. apply business_trigger_total.
    destruct (constraints_wellformed _ _ _ Hc0) as (? & ? & ? & _).
    by repeat constructor.
  - destruct (tx_table d st !! i) as [O|] eqn:HO; [|apply Ok_inj in H; by subst].
    ok_inv H. apply Ok_inj in H. subst st'.
    destruct d; [|done]. proj_simpl. apply business_trigger_total.
    destruct (constraints_wellformed _ _ _ Hc) as (? & ? & ? & _).
    destruct (Hwf Business i O HO) as (? & ? & ? & _).
    by repeat constructor.
  - destruct (tx_table d st !! i) as [O|] eqn:HO; [|apply Ok_inj in H; by subst].
    apply Ok_inj in H. subst st'.
    destruct d; [|done]. proj_simpl. apply business_trigger_total.
    destruct (Hwf Business i O HO) as (? & ? & ? & _).
    by repeat constructor.
Qed.

(** Issued by the owner of the tables, transactions move money between
    partners and never create or destroy it: along any sequence of
    business and personal transaction statements (inserts, approvals,
    rejections, edits, deletes) the sum of all partner balances stays what
    it was. *)
Theorem transactions_conserve_total l st :
  rows_wellformed st →
  issued_by_owner l →
  Forall (λ s, on_transactions s.2 = true) l →
  total_balance (partners (run l st)) = total_balance (partners st).
Proof.
  revert st. induction l as [|s l IH]; intros st Hwf Ho Hl; [done|].
  apply Forall_cons in Hl as [Hs Hl]. apply Forall_cons in Ho as [Hc Ho]. simpl.
  rewrite IH by (try apply step_rows_wellformed; done).
  unfold step. rewrite Hc, exec_owner.
  destruct (perform table_owner s.1.2 s.2 st) eqn:He; [|done].
  by eapply perform_conserves_total.
Qed.

Lemma transactions_conserve_total_witness :
  total_balance (partners (run (Sample.as_owner (drop 1 Sample.approved_history))
                             (run (take 1 Sample.approved_history) Sample.fresh)))
  = total_balance (partners (run (take 1 Sample.approved_history) Sample.fresh)).
Proof.
  apply (transactions_conserve_total (Sample.as_owner (drop 1 Sample.approved_history))
           (run (take 1 Sample.approved_history) Sample.fresh)).
  - apply run_rows_wellformed, fresh_rows_wellformed.
  - apply as_owner_issued_by_owner.
  - by repeat constructor.
Defined.

(** ** Recalculation as repair *)




(** ** Sales: what an update does to each balance *)

Lemma exec_update_sale_visible c now id OLD NEW st st' :
  daily_sales st !! id = Some OLD →
  admits c (daily_sales_policy OLD) = true →
  exec c now (UpdateSale id NEW) st = Ok st' →
  admits c (daily_sales_policy NEW) = true ∧ perform c now (UpdateSale id NEW) st = Ok st'.
Proof.
  intros HO Hu. unfold exec, row_level_security, perform. rewrite HO, Hu.
  by destruct (admits c (daily_sales_policy NEW)).
Qed.

(** An update of a sale entry by a role that may update it takes the old
    total from the partner the entry was attributed to (if any) and gives
    the new total to the partner it is attributed to now (if any), also
    when the attribution is or becomes NULL; but it does so only on the
    balances that the role may update.  From the page that is the balance
    of the partner who is signed in, and no other. *)
Theorem sale_update_effect c now id OLD NEW st st' p b :
  daily_sales st !! id = Some OLD →
  admits c (daily_sales_policy OLD) = true →
  exec c now (UpdateSale id NEW) st = Ok st' →
  partners st !! p = Some b →
  partners st' !! p =
    Some (b + (if may_update c p
               then (if bool_decide (partner_id NEW = Some p) then total_amount NEW else 0)
                    - (if bool_decide (partner_id OLD = Some p) then total_amount OLD else 0)
               else 0)).
Proof.
  intros HO Hu H Hp. apply (exec_update_sale_visible _ _ _ OLD) in H as [_ H]; [|done|done].
  unfold perform in H. rewrite HO in H.
  ok_inv H. apply Ok_inj in H. subst st'. proj_simpl.
  rewrite sales_trigger_lookup, Hp. simpl. by rewrite !sale_share_cases.
Qed.

(** Alice moves her sale of 1000 to Bob and makes it 1200: on the page she
    loses her 1000 and Bob gets nothing. *)
Lemma sale_update_effect_witness :
  let st := step Sample.fresh
              (authenticated Sample.alice, 1%N,
                 InsertSale 100%N (Sample.sale 20%N 500 500 (Some Sample.alice))) in
  let st' := step st (authenticated Sample.alice, 2%N,
                        UpdateSale 100%N (Sample.sale 20%N 700 500 (Some Sample.bob))) in
  partners st' !! Sample.alice = Some (1000 + (0 - 1000)) ∧
  partners st' !! Sample.bob = Some (0 + 0).
Proof.
  intros st st'. split.
  - apply (sale_update_effect (authenticated Sample.alice) 2%N 100%N
             (Sample.sale 20%N 500 500 (Some Sample.alice))
             (Sample.sale 20%N 700 500 (Some Sample.bob)) st); by vm_compute.
  - apply (sale_update_effect (authenticated Sample.alice) 2%N 100%N
             (Sample.sale 20%N 500 500 (Some Sample.alice))
             (Sample.sale 20%N 700 500 (Some Sample.bob)) st); by vm_compute.
Defined.

(** ** The earlier triggers against the later ones *)

(** The first version of the sales trigger compares the partner ids with
    [!=], which is NULL when either side is NULL.  It does what the later
    version does, except on an update that changes the attribution from or
    to NULL and keeps the total: that one it ignores. *)
Theorem earlier_sales_trigger c ev t :
  Earlier.update_partner_balance_from_sales c ev t =
    match ev with
    | UPDATE OLD NEW =>
        if bool_decide (total_amount OLD = total_amount NEW
                        ∧ partner_id OLD ≠ partner_id NEW
                        ∧ (partner_id OLD = None ∨ partner_id NEW = None))
        then t
        else update_partner_balance_from_sales c ev t
    | _ => update_partner_balance_from_sales c ev t
    end.
Proof.
  destruct ev as [NEW|OLD NEW|OLD]; try done.
  unfold Earlier.update_partner_balance_from_sales, update_partner_balance_from_sales.
  tv_cases.
  destruct (partner_id OLD) as [p|], (partner_id NEW) as [q|]; simpl;
    repeat case_bool_decide; simpl; try done;
    destruct_and?; destruct_or?; simplify_eq; try done; exfalso; intuition congruence.
Qed.

(** On approved rows the approval-gated business trigger does what the
    original trigger did, as long as an update keeps the two parties. *)
Theorem gated_trigger_agrees_with_original c ev t :
  Forall (λ r, status r = Some approved) (event_rows ev) →
  match ev with
  | UPDATE OLD NEW => from_partner_id NEW = from_partner_id OLD
                      ∧ to_partner_id NEW = to_partner_id OLD
  | _ => True
  end →
  update_business_partner_balances c ev t = Earlier.update_partner_balances c ev t.
Proof.
  intros Hrows Hkeep.
  destruct ev as [NEW|OLD NEW|OLD]; simpl in Hrows;
    repeat (apply Forall_cons in Hrows as [? Hrows]).
  - unfold update_business_partner_balances. rewrite status_is_holds.
    by rewrite bool_decide_eq_true_2.
  - rewrite business_update_both_approved by done.
    destruct Hkeep as [Hf Ht]. unfold Earlier.update_partner_balances.
    rewrite Hf, Ht. clear.
    generalize (from_partner_id OLD), (to_partner_id OLD), (amount OLD), (amount NEW).
    intros src dst a a'. apply map_eq. intros p.
    case_bool_decide; subst; lookup_cases.
  - unfold update_business_partner_balances. rewrite status_is_holds.
    by rewrite bool_decide_eq_true_2.
Qed.

Lemma gated_trigger_agrees_with_original_witness :
  update_business_partner_balances (authenticated Sample.bob)
    (UPDATE (Sample.transfer Sample.alice Sample.bob 300 approved (Some Sample.bob) (Some 3%N))
            (Sample.transfer Sample.alice Sample.bob 450 approved (Some Sample.bob) (Some 3%N)))
    (partners Sample.after_approval)
  = Earlier.update_partner_balances (authenticated Sample.bob)
    (UPDATE (Sample.transfer Sample.alice Sample.bob 300 approved (Some Sample.bob) (Some 3%N))
            (Sample.transfer Sample.alice Sample.bob 450 approved (Some Sample.bob) (Some 3%N)))
    (partners Sample.after_approval).
Proof.
  apply gated_trigger_agrees_with_original; [by repeat constructor|done].
Defined.

(** ** Approval and its withdrawal *)

Lemma business_update_to_approved c OLD NEW t :
  status OLD = Some pending ∨ status OLD = Some rejected →
  status NEW = Some approved →
  update_business_partner_balances c (UPDATE OLD NEW) t =
    update_partners c (λ b, b + amount NEW) (to_partner_id NEW)
      (update_partners c (λ b, b - amount NEW) (from_partner_id NEW) t).
Proof.
  intros Ho Hn. unfold update_business_partner_balances. tv_cases.
  destruct Ho as [-> | ->]; rewrite Hn; simpl; repeat case_bool_decide; done.
Qed.

Lemma business_update_from_approved c OLD NEW t :
  status OLD = Some approved →
  status NEW = Some pending ∨ status NEW = Some rejected →
  update_business_partner_balances c (UPDATE OLD NEW) t =
    update_partners c (λ b, b - amount OLD) (to_partner_id OLD)
      (update_partners c (λ b, b + amount OLD) (from_partner_id OLD) t).
Proof.
  intros Ho Hn. unfold update_business_partner_balances. tv_cases.
  destruct Hn as [-> | ->]; rewrite Ho; simpl; repeat case_bool_decide; done.
Qed.

Lemma business_delete_approved c OLD t :
  status OLD = Some approved →
  update_business_partner_balances c (DELETE OLD) t =
    update_partners c (λ b, b - amount OLD) (to_partner_id OLD)
      (update_partners c (λ b, b + amount OLD) (from_partner_id OLD) t).
Proof.
  intros Ho. unfold update_business_partner_balances.
  by rewrite status_is_holds, bool_decide_eq_true_2.
Qed.

Lemma personal_update_from_approved OLD NEW t :
  status OLD = Some approved →
  status NEW = Some pending ∨ status NEW = Some rejected →
  update_personal_balances (UPDATE OLD NEW) t =
    update_personal_balance (λ b, b - signed_amount OLD) (pair_of OLD) t.
Proof.
  intros Ho Hn. unfold update_personal_balances. tv_cases.
  destruct Hn as [-> | ->]; rewrite Ho; simpl; repeat case_bool_decide; done.
Qed.

(** A transfer applied and taken back by the same role leaves the
    balances as they were. *)
Lemma transfer_undo c (src dst : uuid) (a : Z) (t : gmap uuid Z) :
  update_partners c (λ b, b - a) dst (update_partners c (λ b, b + a) src
    (update_partners c (λ b, b + a) dst (update_partners c (λ b, b - a) src t))) = t.
Proof. apply map_eq. intros p. lookup_cases. Qed.

Lemma upsert_undo (k k' : uuid * uuid) (d : Z) (t : gmap (uuid * uuid) Z) :
  default 0 (update_personal_balance (λ b, b - d) k (upsert_personal_balance k d t) !! k')
  = default 0 (t !! k').
Proof.
  unfold update_personal_balance. destruct (decide (k = k')) as [<-|Hk].
  - rewrite lookup_alter_eq, upsert_lookup_eq. destruct (t !! k); simpl; lia.
  - by rewrite lookup_alter_ne, upsert_lookup_ne.
Qed.

(** The effect of one statement on the balances and on the row it
    addresses, for an UPDATE or a DELETE of an existing transaction that
    the role may see. *)
Lemma exec_update_tx c now d id OLD NEW st st' :
  tx_table d st !! id = Some OLD →
  admits c (transaction_update_policy OLD) = true →
  exec c now (UpdateTx d id NEW) st = Ok st' →
  let r := transaction_approval_handler d now OLD NEW in
  admits c (transaction_update_policy r) = true ∧
  transaction_constraints d r st = Ok () ∧
  tx_table d st' !! id = Some r ∧
  partners st' = (match d with
                  | Business => update_business_partner_balances c (UPDATE OLD r) (partners st)
                  | Personal => partners st
                  end) ∧
  personal_balances st' = (match d with
                           | Business => personal_balances st
                           | Personal => update_personal_balances (UPDATE OLD r)
                                           (personal_balances st)
                           end).
Proof.
  intros HO Hu H r. apply (exec_update_tx_visible _ _ _ _ OLD) in H as [Hw H]; [|done|done].
  unfold perform in H. rewrite HO in H.
  ok_inv H. apply Ok_inj in H. subst st'.
  split; [done|]. split; [done|]. split.
  - by rewrite tx_table_after_trigger, tx_table_set, lookup_insert_eq.
  - by destruct d.
Qed.

Lemma exec_delete_tx c now d id OLD st st' :
  tx_table d st !! id = Some OLD →
  admits c (involved_policy OLD) = true →
  exec c now (DeleteTx d id) st = Ok st' →
  tx_table d st' !! id = None ∧
  partners st' = (match d with
                  | Business => update_business_partner_balances c (DELETE OLD) (partners st)
                  | Personal => partners st
                  end) ∧
  personal_balances st' = (match d with
                           | Business => personal_balances st
                           | Personal => update_personal_balances (DELETE OLD)
                                           (personal_balances st)
                           end).
Proof.
  intros HO Hu H. rewrite (exec_delete_tx_visible _ _ _ _ OLD) in H by done.
  unfold perform in H. rewrite HO in H.
  apply Ok_inj in H. subst st'. split.
  - by rewrite tx_table_after_trigger, tx_table_set, lookup_delete_eq.
  - by destruct d.
Qed.

(** Approving a pending or rejected transaction and then taking the
    approval back (setting it to pending or rejected again, or deleting
    the transaction), each by a role that may do so.  Every pairwise
    balance is back at its value (a pair row the approval created stays,
    at 0), whoever the two roles are.  Every partner balance is as it was
    when a business transaction is approved and taken back by the same
    role (the trigger writes both times what that role may write). *)
Theorem approval_then_withdrawal c1 c2 now1 now2 d id OLD R1 s2 st st1 st2 :
  tx_table d st !! id = Some OLD →
  status OLD = Some pending ∨ status OLD = Some rejected →
  status R1 = Some approved →
  admits c1 (transaction_update_policy OLD) = true →
  (s2 = DeleteTx d id ∧
   admits c2 (involved_policy (transaction_approval_handler d now1 OLD R1)) = true) ∨
    (∃ R2, s2 = UpdateTx d id R2 ∧ (status R2 = Some pending ∨ status R2 = Some rejected) ∧
           admits c2 (transaction_update_policy
                        (transaction_approval_handler d now1 OLD R1)) = true) →
  exec c1 now1 (UpdateTx d id R1) st = Ok st1 →
  exec c2 now2 s2 st1 = Ok st2 →
  (d = Business → c2 = c1) →
  partners st2 = partners st ∧
  ∀ k, default 0 (personal_balances st2 !! k) = default 0 (personal_balances st !! k).
Proof.
  intros HO Hso Hs1 Hu1 Hs2 H1 H2 Hsame.
  destruct (exec_update_tx _ _ _ _ _ _ _ _ HO Hu1 H1) as (_ & _ & Hr1 & Hp1 & Hb1).
  pose proof (approval_handler_frame d now1 OLD R1) as (Hst1 & _).
  set (r1 := transaction_approval_handler d now1 OLD R1) in *.
  assert (Har : status r1 = Some approved) by congruence.
  assert (Hp2 : partners st2 = match d with
                  | Business => update_partners c2 (λ b, b - amount r1) (to_partner_id r1)
                      (update_partners c2 (λ b, b + amount r1) (from_partner_id r1)
                         (partners st1))
                  | Personal => partners st1
                  end ∧
                personal_balances st2 = match d with
                  | Business => personal_balances st1
                  | Personal => update_personal_balance (λ b, b - signed_amount r1)
                                  (pair_of r1) (personal_balances st1)
                  end).
  { destruct Hs2 as [[-> Hu2] | (R2 & -> & Hs2 & Hu2)].
    - destruct (exec_delete_tx _ _ _ _ _ _ _ Hr1 Hu2 H2) as (_ & Hp & Hb).
      rewrite Hp, Hb. destruct d;
        by rewrite ?business_delete_approved, ?personal_delete_approved.
    - destruct (exec_update_tx _ _ _ _ _ _ _ _ Hr1 Hu2 H2) as (_ & _ & _ & Hp & Hb).
      pose proof (approval_handler_frame d now2 r1 R2) as (Hst2 & _).
      rewrite Hp, Hb. destruct d.
      + rewrite business_update_from_approved; [done|done|]. by rewrite Hst2.
      + rewrite personal_update_from_approved; [done|done|]. by rewrite Hst2. }
  destruct Hp2 as [-> ->]. rewrite Hp1, Hb1. destruct d.
  - rewrite (Hsame eq_refl).
    rewrite business_update_to_approved by done. split; [apply transfer_undo|done].
  - rewrite personal_update_to_approved by done. split; [done|].
    intros k. apply upsert_undo.
Qed.

(** Bob approves on the page and then deletes the transaction. *)
Lemma approval_then_withdrawal_witness :
  let st := run (take 2 Sample.approved_history) Sample.fresh in
  let st2 := run (drop 2 Sample.approved_history ++
                  [(authenticated Sample.bob, 4%N, DeleteTx Business 200%N)]) st in
  partners st2 = partners st ∧
  ∀ k, default 0 (personal_balances st2 !! k) = default 0 (personal_balances st !! k).
Proof.
  apply (approval_then_withdrawal (authenticated Sample.bob) (authenticated Sample.bob)
           3%N 4%N Business 200%N
           (Sample.transfer Sample.alice Sample.bob 300 pending None None)
           (Sample.transfer Sample.alice Sample.bob 300 approved (Some Sample.bob) None)
           (DeleteTx Business 200%N)
           (run (take 2 Sample.approved_history) Sample.fresh)
           Sample.after_approval);
    try by vm_compute.
  - by left.
  - left. split; [done|by vm_compute].
Defined.

(** ** The approval columns on a decision *)

Lemma approval_handler_approved_by d now OLD NEW :
  status NEW ≠ Some pending →
  approved_by (transaction_approval_handler d now OLD NEW) = approved_by NEW.
Proof.
  intros Hs. destruct d; simpl;
    unfold handle_business_transaction_approval, handle_transaction_approval;
    cbv zeta; tv_cases;
    destruct (status NEW) as [[]|] eqn:E, (status OLD) as [[]|];
    simpl; rewrite ?E; simpl; done.
Qed.

(** When an update approves a transaction that was not approved, the
    stored approval time is the time of the statement, whatever the client
    sent, and the stored row names an approver. *)
Theorem approval_is_stamped c now d id OLD NEW st st' :
  tx_table d st !! id = Some OLD →
  admits c (transaction_update_policy OLD) = true →
  status OLD ≠ Some approved →
  status NEW = Some approved →
  exec c now (UpdateTx d id NEW) st = Ok st' →
  ∃ r, tx_table d st' !! id = Some r ∧
       status r = Some approved ∧ approved_at r = Some now ∧
       approved_by r = approved_by NEW ∧ is_Some (approved_by r).
Proof.
  intros HO Hu Hso Hsn H.
  destruct (exec_update_tx _ _ _ _ _ _ _ _ HO Hu H) as (_ & Hc & Hr & _).
  pose proof (approval_handler_frame d now OLD NEW) as (Hst & _).
  eexists. split; [done|]. split; [congruence|].
  assert (Hat : approved_at (transaction_approval_handler d now OLD NEW) = Some now).
  { clear -Hso Hsn. destruct d; simpl;
      unfold handle_business_transaction_approval, handle_transaction_approval;
      cbv zeta; tv_cases; rewrite ?Hsn; destruct (status OLD) as [[]|]; simpl;
      rewrite ?Hsn; simpl; done. }
  split; [done|]. split; [apply approval_handler_approved_by; congruence|].
  apply constraints_status_invariant in Hc as (_ & Hap & _).
  apply Hap. congruence.
Qed.

Lemma approval_is_stamped_witness :
  ∃ r, tx_table Business Sample.after_approval !! 200%N = Some r ∧
       status r = Some approved ∧ approved_at r = Some 3%N ∧
       approved_by r = Some Sample.bob ∧ is_Some (approved_by r).
Proof.
  apply (approval_is_stamped (authenticated Sample.bob) 3%N Business 200%N
           (Sample.transfer Sample.alice Sample.bob 300 pending None None)
           (Sample.transfer Sample.alice Sample.bob 300 approved (Some Sample.bob) None)
           (run (take 2 Sample.approved_history) Sample.fresh));
    by vm_compute.
Defined.

(** A transaction cannot be approved or rejected by nobody: an insert, or
    an update of a row that the role may update, that leaves [approved_by]
    NULL on an approved or rejected row is refused, and the database stays
    as it was. *)
Theorem decision_without_approver_refused c now d id NEW s st :
  status NEW = Some approved ∨ status NEW = Some rejected →
  approved_by NEW = None →
  s = InsertTx d id NEW ∨
    (s = UpdateTx d id NEW ∧
     ∃ OLD, tx_table d st !! id = Some OLD ∧
            admits c (transaction_update_policy OLD) = true) →
  (∃ e, exec c now s st = Err e) ∧ step st (c, now, s) = st.
Proof.
  intros Hs Hby Hstmt.
  assert (Hno : ∀ r, status r = status NEW → approved_by r = None →
                     transaction_constraints d r st ≠ Ok ()).
  { intros r Hsr Hbr Hc. apply constraints_status_invariant in Hc as (_ & Ha & Hr).
    rewrite Hsr, Hbr in *. destruct Hs as [Hs|Hs].
    - by destruct (Ha Hs) as [[? ?] _].
    - by destruct (Hr Hs). }
  assert (He : ∃ e, exec c now s st = Err e).
  { destruct Hstmt as [-> | [-> (OLD & HO & Hu)]]; unfold exec, row_level_security, perform.
    - destruct (admits c (involved_policy NEW)); [|by eexists].
      destruct (require _ _) as [[]|e]; simpl; [|by eexists].
      specialize (Hno NEW eq_refl Hby).
      destruct (transaction_constraints d NEW st) as [[]|e]; simpl; [done|by eexists].
    - rewrite HO, Hu.
      destruct (admits c (transaction_update_policy (transaction_approval_handler _ _ _ _)));
        [|by eexists].
      pose proof (approval_handler_frame d now OLD NEW) as (Hst & _).
      assert (Hb : approved_by (transaction_approval_handler d now OLD NEW) = None).
      { rewrite approval_handler_approved_by; [done|]. destruct Hs; congruence. }
      specialize (Hno _ Hst Hb).
      destruct (transaction_constraints d _ st) as [[]|e]; simpl; [done|by eexists]. }
  split; [done|]. destruct He as [e He]. unfold step. simpl. by rewrite He.
Qed.

Lemma decision_without_approver_refused_witness :
  let st := run (take 2 Sample.approved_history) Sample.fresh in
  let s := UpdateTx Business 200%N
             (Sample.transfer Sample.alice Sample.bob 300 approved None None) in
  (∃ e, exec (authenticated Sample.bob) 3%N s st = Err e) ∧
  step st (authenticated Sample.bob, 3%N, s) = st.
Proof.
  apply (decision_without_approver_refused (authenticated Sample.bob) 3%N Business 200%N
           (Sample.transfer Sample.alice Sample.bob 300 approved None None)).
  - by left.
  - done.
  - right. split; [done|].
    exists (Sample.transfer Sample.alice Sample.bob 300 pending None None).
    by vm_compute.
Defined.

(** ** Submitting a transaction *)

(** Submitting a business transaction never moves a balance: a transfer
    to oneself is turned down before any insert and leaves the database as
    it was, and a submitted transaction is stored pending, with no
    approver, under a key that was free. *)
Theorem business_submit_is_pending user now new_id data st :
  let out := handleTransactionSubmit user now new_id data st in
  partners out.2 = partners st ∧
  personal_balances out.2 = personal_balances st ∧
  (form_from_partner_id data = form_to_partner_id data →
     out.1 ≠ Submitted ∧ out.2 = st) ∧
  (out.1 = Submitted →
     partner_transactions st !! new_id = None ∧
     partner_transactions out.2 !! new_id = Some (submitted_row data)).
Proof.
  cbv zeta. unfold handleTransactionSubmit.
  destruct user as [u|]; [|cbn [fst snd]; repeat split; done].
  case_bool_decide as Hsame; [cbn [fst snd]; repeat split; done|].
  destruct (exec (authenticated u) now (InsertTx Business new_id (submitted_row data)) st)
    as [st'|e] eqn:He; cbn [fst snd]; [|repeat split; done].
  apply exec_insert_tx in He as [_ He].
  assert (Hb : partners st' = partners st ∧ personal_balances st' = personal_balances st).
  { unfold perform in He. ok_inv He. apply Ok_inj in He. subst st'.
    rewrite unapproved_event_frame by (by repeat constructor).
    apply set_tx_table_balances. }
  destruct Hb as [Hp Hb]. repeat split; try done.
  - unfold perform in He. ok_inv He. by apply require_Ok, bool_decide_eq_true_1 in Hc.
  - unfold perform in He. ok_inv He. apply Ok_inj in He. subst st'.
    change (partner_transactions ?x) with (tx_table Business x).
    by rewrite tx_table_after_trigger, tx_table_set, lookup_insert_eq.
Qed.

(** The personal form has no check of its own: a personal transaction to
    oneself, or with an amount that is not positive, is refused by the
    table, and nothing changes. *)
Theorem personal_submit_refused user now new_id data st :
  form_from_partner_id data = form_to_partner_id data ∨ form_amount data ≤ 0 →
  ∃ e, handlePersonalTransactionSubmit (Some user) now new_id data st = (SubmitFailed e, st).
Proof.
  intros Hbad. unfold handlePersonalTransactionSubmit.
  destruct (exec (authenticated user) now (InsertTx Personal new_id (submitted_row data)) st)
    as [st'|e] eqn:He; [|by eexists].
  apply exec_insert_tx in He as [_ He].
  unfold perform in He. ok_inv He.
  destruct (constraints_wellformed _ _ _ Hc0) as (Hne & _ & _ & Ha).
  specialize (Ha eq_refl). simpl in *. destruct Hbad; [done|lia].
Qed.

Lemma personal_submit_refused_witness :
  ∃ e, handlePersonalTransactionSubmit (Some Sample.alice) 1%N 300%N
         {| form_from_partner_id := Sample.alice; form_to_partner_id := Sample.bob;
            form_amount := 0; form_transaction_date := 20%N |} Sample.fresh
       = (SubmitFailed e, Sample.fresh).
Proof. apply personal_submit_refused. right. simpl. lia. Defined.

(** ** Editing a sale through the page *)

Lemma checkDateExists_spec d ex st :
  checkDateExists d (Some ex) st = true ↔
  ∃ id r, daily_sales st !! id = Some r ∧ date r = d ∧ id ≠ ex.
Proof.
  unfold checkDateExists. rewrite bool_decide_eq_true. split.
  - intros Hlen.
    destruct (filter _ (map_to_list (daily_sales st))) as [|[id r] l] eqn:Hf;
      [simpl in Hlen; lia|].
    assert (Hin : (id, r) ∈ filter (λ row : uuid * daily_sale,
                     date row.2 = d ∧ row.1 ≠ ex) (map_to_list (daily_sales st))).
    { rewrite Hf. apply list_elem_of_here. }
    apply list_elem_of_filter in Hin as [[Hd Hx] Hin].
    apply elem_of_map_to_list in Hin. by exists id, r.
  - intros (id & r & Hl & Hd & Hx).
    assert (Hin : (id, r) ∈ filter (λ row : uuid * daily_sale,
                     date row.2 = d ∧ row.1 ≠ ex) (map_to_list (daily_sales st))).
    { apply list_elem_of_filter. split; [done|]. by apply elem_of_map_to_list. }
    destruct (filter _ _); [by apply elem_of_nil in Hin|simpl; lia].
Qed.

(** Editing a sale entry on the page without changing its date is not
    taken for a duplicate.  Edited by the partner who created it, the
    update goes through, keeps the entry's partner and creator, stores as
    total what JavaScript makes of online + cash, and moves by the change
    of the total the balance of the entry's partner if that is the partner
    who is signed in, and no other balance.  Edited by anyone else, the
    entry is hidden from the update: the page reports no error and
    nothing has changed. *)
Theorem edit_sale_keeps_date js_add user now new_id id OLD data st :
  dates_unique st →
  daily_sales st !! id = Some OLD →
  form_date data = date OLD →
  references_partner (partner_id OLD) st = true →
  is_Some (partners st !! created_by OLD) →
  let total := js_add (form_online_amount data) (form_cash_amount data) in
  ∃ st', handleSubmit js_add (Some user) now (Some id) new_id data st = (Completed, st') ∧
    (user ≠ created_by OLD → st' = st) ∧
    (user = created_by OLD →
     (∃ r, daily_sales st' !! id = Some r ∧ total_amount r = total ∧
           partner_id r = partner_id OLD ∧ created_by r = created_by OLD) ∧
     (∀ p b, partners st !! p = Some b →
        partners st' !! p =
          Some (b + (if bool_decide (partner_id OLD = Some p ∧ p = user)
                     then total - total_amount OLD else 0)))).
Proof.
  intros Hu HO Hd Hfk Hcb total. unfold handleSubmit.
  assert (Hno : checkDateExists (form_date data) (Some id) st = false).
  { apply not_true_is_false. rewrite checkDateExists_spec.
    intros (j & r & Hj & Hdj & Hne). apply Hne.
    apply (Hu j id r OLD Hj HO). congruence. }
  rewrite Hno, HO. unfold exec, row_level_security, perform. rewrite HO.
  unfold admits, daily_sales_policy, Sql.holds, Sql.eq. cbn [created_by].
  case_bool_decide as Hcr.
  - set (NEW := {| date := form_date data; total_amount := total;
                   online_amount := form_online_amount data;
                   cash_amount := form_cash_amount data; notes := form_notes data;
                   partner_id := partner_id OLD; created_by := created_by OLD |}).
    assert (Hc : daily_sales_constraints NEW (delete id (daily_sales st)) st = Ok ()).
    { unfold daily_sales_constraints, date_taken.
      rewrite bool_decide_eq_false_2.
      - simpl. rewrite Hfk. simpl. by rewrite bool_decide_eq_true_2.
      - intros (j & r & Hj & Hdj). apply lookup_delete_Some in Hj as [Hne Hj].
        apply Hne. symmetry. apply (Hu j id r OLD Hj HO). simpl in Hdj. congruence. }
    fold total. fold NEW. rewrite Hc. cbn [mbind result_bind].
    eexists. split; [reflexivity|]. split; [done|]. intros _. split.
    + exists NEW. proj_simpl. by rewrite lookup_insert_eq.
    + intros p b Hp. proj_simpl.
      rewrite sales_trigger_lookup, may_update_authenticated, Hp.
      cbn [event_delta fmap option_fmap option_map].
      rewrite !sale_share_cases. cbn [partner_id total_amount NEW]. f_equal.
      repeat case_bool_decide; destruct_and?; simplify_eq; try lia;
        exfalso; intuition congruence.
  - eexists. split; [reflexivity|]. split; [done|]. intros E. by destruct Hcr.
Qed.

Lemma edit_sale_keeps_date_witness :
  let st := step Sample.fresh
              (authenticated Sample.alice, 1%N,
                 InsertSale 100%N (Sample.sale 20%N 500 500 (Some Sample.alice))) in
  let data := {| form_date := 20%N; form_online_amount := 800;
                 form_cash_amount := 500; form_notes := None |} in
  let total := 800 + 500 in
  ∃ st', handleSubmit Z.add (Some Sample.alice) 2%N (Some 100%N) 101%N data st
           = (Completed, st') ∧
    (Sample.alice ≠ Sample.alice → st' = st) ∧
    (Sample.alice = Sample.alice →
     (∃ r, daily_sales st' !! 100%N = Some r ∧ total_amount r = total ∧
           partner_id r = Some Sample.alice ∧ created_by r = Sample.alice) ∧
     (∀ p b, partners st !! p = Some b →
        partners st' !! p =
          Some (b + (if bool_decide (Some Sample.alice = Some p ∧ p = Sample.alice)
                     then total - (500 + 500) else 0)))).
Proof.
  apply (edit_sale_keeps_date Z.add Sample.alice 2%N 101%N 100%N
           (Sample.sale 20%N 500 500 (Some Sample.alice))).
  - apply (run_dates_unique
             [(authenticated Sample.alice, 1%N,
                 InsertSale 100%N (Sample.sale 20%N 500 500 (Some Sample.alice)))]
             Sample.fresh).
    intros i j r r' Hi. cbn in Hi. by rewrite lookup_empty in Hi.
  - by vm_compute.
  - done.
  - by vm_compute.
  - vm_compute. by eexists.
Defined.

(** ** The personal balances as stored and as shown *)

Lemma personal_trigger_canonical (ev : tg_event transaction) (t : gmap (uuid * uuid) Z) :
  (∀ a b x, t !! (a, b) = Some x → (a < b)%N) →
  match ev with
  | INSERT NEW | UPDATE _ NEW => from_partner_id NEW ≠ to_partner_id NEW
  | DELETE _ => True
  end →
  ∀ a b x, update_personal_balances ev t !! (a, b) = Some x → (a < b)%N.
Proof.
  intros Hcan Hne a b x.
  assert (Hup : ∀ (t0 : gmap (uuid * uuid) Z) r d,
            from_partner_id r ≠ to_partner_id r →
            (∀ a b x, t0 !! (a, b) = Some x → (a < b)%N) →
            ∀ a b x, upsert_personal_balance (pair_of r) d t0 !! (a, b) = Some x → (a < b)%N).
  { intros t0 r d Hr Ht0 a0 b0 x0 Hl. destruct (decide (pair_of r = (a0, b0))) as [E|E].
    - unfold pair_of in E. injection E as <- <-. lia.
    - rewrite upsert_lookup_ne in Hl by done. by eapply Ht0. }
  assert (Hal : ∀ (t0 : gmap (uuid * uuid) Z) f k,
            (∀ a b x, t0 !! (a, b) = Some x → (a < b)%N) →
            ∀ a b x, update_personal_balance f k t0 !! (a, b) = Some x → (a < b)%N).
  { intros t0 f k Ht0 a0 b0 x0 Hl.
    assert (is_Some (t0 !! (a0, b0))) as [y Hy].
    { apply (lookup_alter_is_Some f t0 k). by eexists. }
    by eapply Ht0. }
  destruct ev as [NEW|OLD NEW|OLD]; unfold update_personal_balances;
    repeat case_match; eauto.
Qed.

Lemma perform_pairs_canonical c now s st st' :
  pairs_canonical st → perform c now s st = Ok st' → pairs_canonical st'.
Proof.
  intros Hcan H. destruct s as [i N|i N|i|d i N|d i N|d i]; unfold perform in H.
  - ok_inv H. apply Ok_inj in H. by subst st'.
  - destruct (daily_sales st !! i); [|apply Ok_inj in H; by subst].
    ok_inv H. apply Ok_inj in H. by subst st'.
  - destruct (daily_sales st !! i); [|apply Ok_inj in H; by subst].
    apply Ok_inj in H. by subst st'.
  - ok_inv H. apply Ok_inj in H. subst st'.
    destruct d; [done|]. unfold pairs_canonical. proj_simpl.
    apply personal_trigger_canonical; [done|].
    by eapply transaction_constraints_distinct.
  - destruct (tx_table d st !! i); [|apply Ok_inj in H; by subst].
    ok_inv H. apply Ok_inj in H. subst st'.
    destruct d; [done|]. unfold pairs_canonical. proj_simpl.
    apply personal_trigger_canonical; [done|].
    by eapply transaction_constraints_distinct.
  - destruct (tx_table d st !! i); [|apply Ok_inj in H; by subst].
    apply Ok_inj in H. subst st'.
    destruct d; [done|]. unfold pairs_canonical. proj_simpl.
    by apply personal_trigger_canonical.
Qed.

Lemma exec_pairs_canonical c now s st st' :
  pairs_canonical st → exec c now s st = Ok st' → pairs_canonical st'.
Proof.
  intros Hcan H. apply exec_Ok in H as [[_ ->]|[_ H]]; [done|].
  by eapply perform_pairs_canonical.
Qed.

Lemma run_pairs_canonical l st : pairs_canonical st → pairs_canonical (run l st).
Proof.
  revert st. induction l as [|s l IH]; intros st Hc; [done|].
  simpl. apply IH. unfold step.
  destruct (exec s.1.1 s.1.2 s.2 st) eqn:He; [by eapply exec_pairs_canonical|done].
Qed.

Lemma fresh_pairs_canonical : pairs_canonical Sample.fresh.
Proof. intros a b x Hx. cbn in Hx. by rewrite lookup_empty in Hx. Qed.

(** Along any sequence of statements every row of [personal_balances]
    is keyed by a pair of two different partners in order: the trigger
    creates rows at (LEAST, GREATEST) only, and personal transactions have
    two different parties. *)
Theorem pairs_stay_canonical l st : pairs_canonical st → pairs_canonical (run l st).
Proof. apply run_pairs_canonical. Qed.

Lemma pairs_stay_canonical_witness : pairs_canonical Sample.after_personal_approval.
Proof.
  apply (pairs_stay_canonical Sample.personal_history Sample.fresh).
  intros a b x Hx. cbn in Hx. by rewrite lookup_empty in Hx.
Defined.

Lemma elem_of_processedBalances u st (e : uuid * Z) :
  e ∈ processedBalances u st ↔
  ∃ a b bal, personal_balances st !! (a, b) = Some bal ∧ (a = u ∨ b = u) ∧
             e = processBalance u ((a, b), bal).
Proof.
  unfold processedBalances. rewrite list_elem_of_fmap. split.
  - intros ([[a b] bal] & -> & Hin).
    apply list_elem_of_filter in Hin as [Hu Hin].
    apply elem_of_map_to_list in Hin. by exists a, b, bal.
  - intros (a & b & bal & Hl & Hu & ->). exists ((a, b), bal). split; [done|].
    apply list_elem_of_filter. split; [done|]. by apply elem_of_map_to_list.
Qed.

(** What one partner is shown about another is the opposite of what the
    other is shown about the first. *)
Theorem views_are_opposite st u v x :
  pairs_canonical st →
  (v, x) ∈ processedBalances u st →
  (u, - x) ∈ processedBalances v st.
Proof.
  intros Hcan Hin. apply elem_of_processedBalances in Hin as (a & b & bal & Hl & Hu & He).
  pose proof (Hcan a b bal Hl) as Hlt.
  apply elem_of_processedBalances. exists a, b, bal. split; [done|].
  unfold processBalance in *. simpl in *.
  destruct Hu as [-> | ->].
  - rewrite bool_decide_eq_true_2 in He by done. injection He as -> ->.
    split; [by right|]. rewrite bool_decide_eq_false_2 by lia. done.
  - rewrite bool_decide_eq_false_2 in He by lia. injection He as -> ->.
    split; [by left|]. rewrite bool_decide_eq_true_2 by done.
    by rewrite Z.opp_involutive.
Qed.

Lemma views_are_opposite_witness :
  (Sample.alice, - - 50) ∈ processedBalances Sample.bob Sample.after_personal_approval.
Proof.
  apply views_are_opposite;
    [apply (run_pairs_canonical Sample.personal_history), fresh_pairs_canonical|].
  vm_compute. apply list_elem_of_here.
Defined.

(** An approved personal transfer as the two parties are shown it: the
    sender's balance with the receiver goes down by the amount (from 0 if
    the page showed none), and the receiver's balance with the sender goes
    up by it, whichever of the two has the smaller id. *)
Theorem approved_transfer_as_shown c now id NEW st st' :
  pairs_canonical st →
  status NEW = Some approved →
  exec c now (InsertTx Personal id NEW) st = Ok st' →
  ∃ prior,
    ((to_partner_id NEW, prior) ∈ processedBalances (from_partner_id NEW) st
     ∨ (prior = 0 ∧ ∀ x, (to_partner_id NEW, x) ∉ processedBalances (from_partner_id NEW) st)) ∧
    (to_partner_id NEW, prior - amount NEW) ∈ processedBalances (from_partner_id NEW) st' ∧
    (from_partner_id NEW, amount NEW - prior) ∈ processedBalances (to_partner_id NEW) st'.
Proof.
  intros Hcan Hs H. apply exec_insert_tx in H as [_ H].
  unfold perform in H. ok_inv H. apply Ok_inj in H. subst st'.
  pose proof (transaction_constraints_distinct _ _ _ Hc0) as Hne.
  setoid_rewrite elem_of_processedBalances.
  rewrite personal_balances_after_trigger, personal_insert_approved by done.
  rewrite (proj2 (set_tx_table_balances _ _ _)).
  unfold pair_of, signed_amount, processBalance. simpl.
  generalize dependent (amount NEW). generalize dependent (from_partner_id NEW).
  generalize dependent (to_partner_id NEW). clear -Hcan.
  intros t f Hne amt.
  destruct (N.ltb_spec f t) as [Hlt|Hge].
  - rewrite N.min_l, N.max_r by lia.
    assert (Hup : upsert_personal_balance (f, t) (- amt) (personal_balances st) !! (f, t)
                  = Some (default 0 (personal_balances st !! (f, t)) - amt)).
    { rewrite upsert_lookup_eq.
      destruct (personal_balances st !! (f, t)); simpl; f_equal; lia. }
    exists (default 0 (personal_balances st !! (f, t))). split; [|split].
    + destruct (personal_balances st !! (f, t)) as [b|] eqn:Hb; simpl.
      * left. exists f, t, b. rewrite bool_decide_eq_true_2 by done. auto.
      * right. split; [done|]. intros x (a & b & bal & Hl & Hu & He).
        pose proof (Hcan a b bal Hl). destruct Hu as [-> | ->].
        -- rewrite bool_decide_eq_true_2 in He by done. injection He as <- ->.
           by pose proof (eq_trans (eq_sym Hl) Hb).
        -- rewrite bool_decide_eq_false_2 in He by lia. injection He as <- ->.
           by destruct (N.lt_asymm _ _ Hlt).
    + exists f, t, (default 0 (personal_balances st !! (f, t)) - amt).
      split; [exact Hup|]. rewrite bool_decide_eq_true_2 by done. auto.
    + exists f, t, (default 0 (personal_balances st !! (f, t)) - amt).
      split; [exact Hup|]. rewrite bool_decide_eq_false_2 by done.
      split; [by right|]. f_equal. lia.
  - assert (Hlt : (t < f)%N) by lia. rewrite N.min_r, N.max_l by lia.
    assert (Hup : upsert_personal_balance (t, f) amt (personal_balances st) !! (t, f)
                  = Some (default 0 (personal_balances st !! (t, f)) + amt)).
    { rewrite upsert_lookup_eq.
      destruct (personal_balances st !! (t, f)); simpl; f_equal; lia. }
    exists (- default 0 (personal_balances st !! (t, f))). split; [|split].
    + destruct (personal_balances st !! (t, f)) as [b|] eqn:Hb; simpl.
      * left. exists t, f, b. rewrite bool_decide_eq_false_2 by done. auto.
      * right. split; [done|]. intros x (a & b & bal & Hl & Hu & He).
        pose proof (Hcan a b bal Hl). destruct Hu as [-> | ->].
        -- rewrite bool_decide_eq_true_2 in He by done. injection He as <- ->.
           by destruct (N.lt_asymm _ _ Hlt).
        -- rewrite bool_decide_eq_false_2 in He by lia. injection He as <- ->.
           by pose proof (eq_trans (eq_sym Hl) Hb).
    + exists t, f, (default 0 (personal_balances st !! (t, f)) + amt).
      split; [exact Hup|]. rewrite bool_decide_eq_false_2 by done.
      split; [by right|]. f_equal. lia.
    + exists t, f, (default 0 (personal_balances st !! (t, f)) + amt).
      split; [exact Hup|]. rewrite bool_decide_eq_true_2 by done.
      split; [by left|]. f_equal. lia.
Qed.

Lemma approved_transfer_as_shown_witness :
  let NEW := Sample.transfer Sample.bob Sample.alice 50 approved (Some Sample.alice) (Some 1%N) in
  let st' := step Sample.fresh (authenticated Sample.bob, 1%N, InsertTx Personal 300%N NEW) in
  ∃ prior,
    ((Sample.alice, prior) ∈ processedBalances Sample.bob Sample.fresh
     ∨ (prior = 0 ∧ ∀ x, (Sample.alice, x) ∉ processedBalances Sample.bob Sample.fresh)) ∧
    (Sample.alice, prior - 50) ∈ processedBalances Sample.bob st' ∧
    (Sample.bob, 50 - prior) ∈ processedBalances Sample.alice st'.
Proof.
  apply (approved_transfer_as_shown (authenticated Sample.bob) 1%N 300%N
           (Sample.transfer Sample.bob Sample.alice 50 approved (Some Sample.alice) (Some 1%N))
           Sample.fresh).
  - intros a b x Hx. cbn in Hx. by rewrite lookup_empty in Hx.
  - done.
  - by vm_compute.
Defined.

(** ** The pairwise balances against the personal transactions *)

Lemma personal_net_insert k m i x :
  m !! i = None → personal_net k (<[i:=x]> m) = personal_net k m + personal_share k x.
Proof.
  apply (total_insert
    (λ pt, Sql.holds (status_is pt approved) && bool_decide (pair_of pt = k)) signed_amount).
Qed.

Lemma personal_net_delete k m i x :
  m !! i = Some x → personal_net k (delete i m) = personal_net k m - personal_share k x.
Proof.
  apply (total_delete
    (λ pt, Sql.holds (status_is pt approved) && bool_decide (pair_of pt = k)) signed_amount).
Qed.

Lemma personal_net_update k m i x y :
  m !! i = Some x →
  personal_net k (<[i:=y]> m) = personal_net k m + (personal_share k y - personal_share k x).
Proof.
  apply (total_update
    (λ pt, Sql.holds (status_is pt approved) && bool_decide (pair_of pt = k)) signed_amount).
Qed.

Lemma personal_share_approved k r :
  status r = Some approved →
  personal_share k r = if bool_decide (pair_of r = k) then signed_amount r else 0.
Proof.
  intros Hs. unfold personal_share.
  by rewrite status_is_holds, bool_decide_eq_true_2.
Qed.

Lemma personal_share_unapproved k r :
  status r ≠ Some approved → personal_share k r = 0.
Proof.
  intros Hs. unfold personal_share.
  by rewrite status_is_holds, bool_decide_eq_false_2.
Qed.

Lemma default_upsert (k k' : uuid * uuid) (d : Z) (t : gmap (uuid * uuid) Z) :
  default 0 (upsert_personal_balance k d t !! k')
  = default 0 (t !! k') + (if bool_decide (k = k') then d else 0).
Proof.
  case_bool_decide as Hk.
  - subst k'. rewrite upsert_lookup_eq. destruct (t !! k); simpl; lia.
  - rewrite upsert_lookup_ne by done. lia.
Qed.

Lemma default_alter (f : Z → Z) (d : Z) (k k' : uuid * uuid) (t : gmap (uuid * uuid) Z) :
  (∀ b, f b = b + d) → is_Some (t !! k) →
  default 0 (update_personal_balance f k t !! k')
  = default 0 (t !! k') + (if bool_decide (k = k') then d else 0).
Proof.
  intros Hf [b Hb]. unfold update_personal_balance. case_bool_decide as Hk.
  - subst k'. rewrite lookup_alter_eq, Hb. simpl. apply Hf.
  - rewrite lookup_alter_ne by done. lia.
Qed.

Lemma personal_update_both_approved OLD NEW t :
  status OLD = Some approved → status NEW = Some approved →
  update_personal_balances (UPDATE OLD NEW) t =
    if bool_decide (amount OLD = amount NEW) then t
    else update_personal_balance
           (λ b, b - signed_amount OLD + signed_amount NEW) (pair_of OLD) t.
Proof.
  intros Ho Hn. unfold update_personal_balances. tv_cases.
  rewrite Ho, Hn. simpl. by case_bool_decide.
Qed.

Lemma personal_update_unapproved OLD NEW t :
  status OLD ≠ Some approved → status NEW ≠ Some approved →
  update_personal_balances (UPDATE OLD NEW) t = t.
Proof.
  intros Ho Hn. unfold update_personal_balances. tv_cases.
  destruct (status OLD) as [[]|], (status NEW) as [[]|]; simpl;
    repeat case_bool_decide; done.
Qed.

Lemma keeps_parties_same OLD NEW :
  keeps_parties OLD NEW = true →
  status OLD = Some approved → status NEW = Some approved →
  pair_of NEW = pair_of OLD ∧
  (amount OLD = amount NEW → signed_amount NEW = signed_amount OLD).
Proof.
  unfold keeps_parties. intros Hk Ho Hn. rewrite Ho, Hn in Hk.
  apply bool_decide_eq_true_1 in Hk as [Hf Ht].
  unfold pair_of, signed_amount. rewrite Hf, Ht. split; [done|]. by intros ->.
Qed.

(** What the personal trigger adds to the balance of pair [k]. *)
Lemma personal_trigger_lookup (ev : tg_event transaction) t k :
  match ev with UPDATE OLD NEW => keeps_parties OLD NEW = true | _ => True end →
  match ev with
  | UPDATE OLD _ | DELETE OLD => status OLD = Some approved → is_Some (t !! pair_of OLD)
  | INSERT _ => True
  end →
  default 0 (update_personal_balances ev t !! k)
  = default 0 (t !! k) + event_delta (personal_share k) ev.
Proof.
  intros Hkeep Hrow. destruct ev as [NEW|OLD NEW|OLD]; cbn [event_delta].
  - destruct (decide (status NEW = Some approved)) as [Hs|Hs].
    + by rewrite personal_insert_approved, default_upsert, personal_share_approved.
    + rewrite personal_share_unapproved by done.
      unfold update_personal_balances.
      rewrite status_is_holds, bool_decide_eq_false_2 by done. lia.
  - destruct (decide (status OLD = Some approved)) as [Ho|Ho];
      destruct (decide (status NEW = Some approved)) as [Hn|Hn].
    + destruct (keeps_parties_same _ _ Hkeep Ho Hn) as [Hp Hsg].
      rewrite personal_update_both_approved, !personal_share_approved, Hp by done.
      case_bool_decide as Ha.
      * rewrite (Hsg Ha). lia.
      * rewrite (default_alter _ (signed_amount NEW - signed_amount OLD))
          by (try (intros; lia); auto).
        case_bool_decide; lia.
    + assert (Hn' : status NEW = Some pending ∨ status NEW = Some rejected).
      { unfold keeps_parties in Hkeep. rewrite Ho in Hkeep.
        destruct (status NEW) as [[]|]; simpl in Hkeep; try done; auto. }
      rewrite personal_update_from_approved by done.
      rewrite (default_alter _ (- signed_amount OLD)) by (try (intros; lia); auto).
      rewrite (personal_share_approved k OLD), (personal_share_unapproved k NEW) by done.
      case_bool_decide; lia.
    + assert (Ho' : status OLD = Some pending ∨ status OLD = Some rejected).
      { unfold keeps_parties in Hkeep. rewrite Hn in Hkeep.
        destruct (status OLD) as [[]|]; simpl in Hkeep; try done; auto. }
      rewrite personal_update_to_approved by done.
      rewrite default_upsert, (personal_share_approved k NEW),
        (personal_share_unapproved k OLD) by done.
      case_bool_decide; lia.
    + rewrite personal_update_unapproved, !personal_share_unapproved by done. lia.
  - destruct (decide (status OLD = Some approved)) as [Hs|Hs].
    + rewrite personal_delete_approved by done.
      rewrite (default_alter _ (- signed_amount OLD)) by (try (intros; lia); auto).
      rewrite personal_share_approved by done. case_bool_decide; lia.
    + rewrite personal_share_unapproved by done.
      unfold update_personal_balances.
      rewrite status_is_holds, bool_decide_eq_false_2 by done. lia.
Qed.

Lemma upsert_is_Some (k k' : uuid * uuid) (d : Z) (t : gmap (uuid * uuid) Z) :
  is_Some (upsert_personal_balance k d t !! k') ↔ k = k' ∨ is_Some (t !! k').
Proof.
  destruct (decide (k = k')) as [<-|Hk].
  - rewrite upsert_lookup_eq. split; [by left|by eexists].
  - rewrite upsert_lookup_ne by done. split; [by right|by intros [?|?]].
Qed.

Lemma personal_trigger_is_Some (ev : tg_event transaction) t k :
  is_Some (t !! k) → is_Some (update_personal_balances ev t !! k).
Proof.
  intros Hk. destruct ev; unfold update_personal_balances, update_personal_balance;
    repeat case_match;
    rewrite ?lookup_alter_is_Some, ?upsert_is_Some, ?lookup_alter_is_Some; auto.
Qed.

Lemma personal_tables_after_business c ev t st :
  personal_balances (transaction_balance_update c Business ev (set_tx_table Business t st))
    = personal_balances st ∧
  personal_transactions (transaction_balance_update c Business ev (set_tx_table Business t st))
    = personal_transactions st.
Proof. done. Qed.

Lemma perform_pairs_reconciled c now s st st' :
  pairs_reconciled st → personal_edit_keeps_parties s st = true →
  perform c now s st = Ok st' → pairs_reconciled st'.
Proof.
  intros [Hnet Hrow] Hkeep H.
  destruct s as [i N|i N|i|d i N|d i N|d i]; unfold perform in H.
  - ok_inv H. apply Ok_inj in H. by subst st'.
  - destruct (daily_sales st !! i); [|apply Ok_inj in H; by subst].
    ok_inv H. apply Ok_inj in H. by subst st'.
  - destruct (daily_sales st !! i); [|apply Ok_inj in H; by subst].
    apply Ok_inj in H. by subst st'.
  - ok_inv H. apply Ok_inj in H. subst st'.
    apply require_Ok, bool_decide_eq_true_1 in Hc.
    destruct d; [done|]. split; proj_simpl.
    + intros k. rewrite personal_trigger_lookup by done.
      cbn [event_delta]. rewrite Hnet. by rewrite personal_net_insert.
    + intros j r Hj Hs. apply lookup_insert_Some in Hj as [[_ <-]|[_ Hj]].
      * rewrite personal_insert_approved by done. apply upsert_is_Some. by left.
      * apply personal_trigger_is_Some. by eapply Hrow.
  - destruct (tx_table d st !! i) as [O|] eqn:HO; [|apply Ok_inj in H; by subst].
    ok_inv H. apply Ok_inj in H. subst st'.
    destruct d; [done|]. simpl in Hkeep, HO. rewrite HO in Hkeep.
    set (N' := transaction_approval_handler Personal now O N) in *.
    assert (Hk' : keeps_parties O N' = true)
      by (unfold N'; by rewrite approval_handler_keeps_parties).
    split; proj_simpl.
    + intros k. rewrite personal_trigger_lookup by eauto.
      cbn [event_delta]. rewrite Hnet. by rewrite (personal_net_update _ _ _ _ _ HO).
    + intros j r Hj Hs. apply lookup_insert_Some in Hj as [[_ <-]|[_ Hj]].
      * destruct (decide (status O = Some approved)) as [Ho|Ho].
        -- destruct (keeps_parties_same _ _ Hk' Ho Hs) as [-> _].
           apply personal_trigger_is_Some. by eapply Hrow.
        -- assert (Ho' : status O = Some pending ∨ status O = Some rejected).
           { unfold keeps_parties in Hk'. rewrite Hs in Hk'.
             destruct (status O) as [[]|]; simpl in Hk'; try done; auto. }
           rewrite personal_update_to_approved by done. apply upsert_is_Some. by left.
      * apply personal_trigger_is_Some. by eapply Hrow.
  - destruct (tx_table d st !! i) as [O|] eqn:HO; [|apply Ok_inj in H; by subst].
    apply Ok_inj in H. subst st'.
    destruct d; [done|]. simpl in HO. split; proj_simpl.
    + intros k. rewrite personal_trigger_lookup by eauto.
      cbn [event_delta]. rewrite Hnet, (personal_net_delete _ _ _ _ HO). lia.
    + intros j r Hj Hs. apply lookup_delete_Some in Hj as [_ Hj].
      apply personal_trigger_is_Some. by eapply Hrow.
Qed.

Lemma exec_pairs_reconciled c now s st st' :
  pairs_reconciled st → personal_edit_keeps_parties s st = true →
  exec c now s st = Ok st' → pairs_reconciled st'.
Proof.
  intros Hrec Hkeep H. apply exec_Ok in H as [[_ ->]|[_ H]]; [done|].
  by eapply perform_pairs_reconciled.
Qed.

(** Start where the balance of every pair (0 where there is no row) is
    the net of the approved personal transactions between the two (minus
    the amount for each one sent by the partner with the smaller id, plus
    the amount for each one sent by the other) and every approved
    transaction has its pair row: empty personal tables, say.  Then this
    holds along any sequence of statements, provided no update of an
    approved personal transaction changes its parties (or involves a NULL
    status). *)
Theorem pairwise_balances_are_nets l st :
  pairs_reconciled st →
  personal_edits_keep_parties l st = true →
  pairs_reconciled (run l st).
Proof.
  revert st. induction l as [|s l IH]; intros st Hrec Hkeep; [done|].
  simpl in Hkeep. apply andb_true_iff in Hkeep as [Hk1 Hk2].
  simpl. unfold step in *.
  destruct (exec s.1.1 s.1.2 s.2 st) as [st'|e] eqn:He; [|by apply IH].
  apply IH; [by eapply exec_pairs_reconciled|done].
Qed.

Lemma pairwise_balances_are_nets_witness :
  pairs_reconciled Sample.after_personal_approval.
Proof.
  apply (pairwise_balances_are_nets Sample.personal_history Sample.fresh);
    [|by vm_compute].
  split.
  - intros k. cbn. rewrite lookup_empty. unfold personal_net, table_total.
    by rewrite map_to_list_empty.
  - intros id r Hr. cbn in Hr. by rewrite lookup_empty in Hr.
Defined.


(** ** The original triggers *)

(** The original business trigger follows the rows in every case, on the
    balances that the role may update: on an insert, a delete or any
    update, also one that changes the parties, each such balance moves by
    exactly the change of what the row gives to that partner.  The
    [partners] policy is that of the initial schema: from the page the
    only such balance is that of the partner who is signed in. *)
Theorem original_trigger_follows_rows c ev t p :
  Earlier.update_partner_balances c ev t !! p =
    (λ b, b + (if may_update c p then event_delta (transaction_flow p) ev else 0))
      <$> t !! p.
Proof.
  destruct (may_update c p) eqn:Hm.
  - destruct ev as [NEW|OLD NEW|OLD];
      unfold Earlier.update_partner_balances, event_delta, transaction_flow.
    + generalize (from_partner_id NEW), (to_partner_id NEW), (amount NEW).
      intros src dst a. rewrite !update_partners_lookup, Hm. lookup_cases.
    + generalize (from_partner_id NEW), (to_partner_id NEW), (amount NEW),
        (from_partner_id OLD), (to_partner_id OLD), (amount OLD).
      intros src dst a src' dst' a'. rewrite !update_partners_lookup, Hm. lookup_cases.
    + generalize (from_partner_id OLD), (to_partner_id OLD), (amount OLD).
      intros src dst a. rewrite !update_partners_lookup, Hm. lookup_cases.
  - rewrite original_trigger_hidden by done.
    destruct (t !! p); simpl; [f_equal; lia|done].
Qed.

(** On approved rows the approval-gated personal trigger does what the
    ungated one did, as long as an update keeps the two parties and the
    pair already has its row. *)
Theorem gated_personal_trigger_agrees (ev : tg_event transaction) t :
  Forall (λ r, status r = Some approved) (event_rows ev) →
  match ev with
  | UPDATE OLD NEW => from_partner_id NEW = from_partner_id OLD
                      ∧ to_partner_id NEW = to_partner_id OLD
                      ∧ is_Some (t !! pair_of OLD)
  | _ => True
  end →
  update_personal_balances ev t = Earlier.update_personal_balances ev t.
Proof.
  intros Hrows Hkeep.
  destruct ev as [NEW|OLD NEW|OLD]; simpl in Hrows;
    repeat (apply Forall_cons in Hrows as [? Hrows]).
  - by rewrite personal_insert_approved.
  - destruct Hkeep as (Hf & Ht & [b Hb]).
    rewrite personal_update_both_approved by done.
    unfold Earlier.update_personal_balances.
    assert (Hp : pair_of NEW = pair_of OLD) by (unfold pair_of; by rewrite Hf, Ht).
    rewrite Hp. apply map_eq. intros k.
    unfold update_personal_balance.
    destruct (decide (pair_of OLD = k)) as [<-|Hk].
    + rewrite upsert_lookup_eq, lookup_alter_eq, Hb. simpl.
      case_bool_decide as Ha.
      * assert (Hsg : signed_amount NEW = signed_amount OLD)
          by (unfold signed_amount; by rewrite Hf, Ht, Ha).
        rewrite Hb, Hsg. f_equal. lia.
      * by rewrite lookup_alter_eq, Hb.
    + rewrite upsert_lookup_ne, lookup_alter_ne by done.
      case_bool_decide; [done|by rewrite lookup_alter_ne].
  - by rewrite personal_delete_approved.
Qed.

Lemma gated_personal_trigger_agrees_witness :
  let OLD := Sample.transfer Sample.alice Sample.bob 50 approved (Some Sample.bob) (Some 2%N) in
  let NEW := Sample.transfer Sample.alice Sample.bob 80 approved (Some Sample.bob) (Some 2%N) in
  update_personal_balances (UPDATE OLD NEW) (personal_balances Sample.after_personal_approval)
  = Earlier.update_personal_balances (UPDATE OLD NEW)
      (personal_balances Sample.after_personal_approval).
Proof.
  apply gated_personal_trigger_agrees; [by repeat constructor|].
  split; [done|]. split; [done|]. vm_compute. by eexists.
Defined.

(** ** Deleting a transaction on the partners page *)

(** Deleting a business transaction on the page.  A partner who is not
    one of its two parties deletes nothing.  One of the two parties
    removes the row; if it was approved, the trigger takes the amount back
    on that partner's own balance only (up by the amount for the sender,
    down by it for the receiver) and the other party's balance stays as it
    is.  A transaction that was not approved is deleted without touching
    any balance. *)
Theorem delete_transaction_effect user now id OLD st :
  partner_transactions st !! id = Some OLD →
  from_partner_id OLD ≠ to_partner_id OLD →
  let st' := handleDeleteTransaction (Some user) now id st in
  (user ≠ from_partner_id OLD ∧ user ≠ to_partner_id OLD → st' = st) ∧
  (user = from_partner_id OLD ∨ user = to_partner_id OLD →
   partner_transactions st' !! id = None ∧
   ∀ p b, partners st !! p = Some b →
     partners st' !! p =
       Some (b - (if bool_decide (status OLD = Some approved ∧ p = user)
                  then transaction_flow p OLD else 0))).
Proof.
  intros HO Hne. cbv zeta. unfold handleDeleteTransaction, step, session.
  cbn [fst snd].
  change (partner_transactions st) with (tx_table Business st) in HO.
  split.
  - intros [Hf Ht]. unfold exec, row_level_security. rewrite HO.
    assert (admits (authenticated user) (involved_policy OLD) = false) as ->; [|done].
    apply not_true_is_false. rewrite involved_spec.
    intros [?|[?|?]]; simplify_eq.
  - intros Hparty.
    assert (Ha : admits (authenticated user) (involved_policy OLD) = true).
    { apply involved_spec. destruct Hparty as [->| ->]; auto. }
    destruct (exec (authenticated user) now (DeleteTx Business id) st) as [st'|e] eqn:He.
    + destruct (exec_delete_tx _ _ Business _ _ _ _ HO Ha He) as (Hgone & Hp & _).
      split; [done|]. intros p b Hb. rewrite Hp.
      rewrite business_trigger_lookup by (by repeat constructor).
      rewrite may_update_authenticated, Hb.
      cbn [event_delta fmap option_fmap option_map]. f_equal.
      rewrite transaction_share_cases by done. unfold transaction_flow.
      repeat case_bool_decide; destruct_and?; simplify_eq; try done; try lia;
        exfalso; intuition congruence.
    + rewrite (exec_delete_tx_visible _ _ _ _ OLD) in He by done.
      unfold perform in He. by rewrite HO in He.
Qed.

(** Bob deletes the approved transfer of 300 from Alice to him: he gives
    the 300 back, Alice does not get them. *)
Lemma delete_transaction_effect_witness :
  let OLD := Sample.transfer Sample.alice Sample.bob 300 approved (Some Sample.bob) (Some 3%N) in
  let st' := handleDeleteTransaction (Some Sample.bob) 4%N 200%N Sample.after_approval in
  (Sample.bob ≠ Sample.alice ∧ Sample.bob ≠ Sample.bob → st' = Sample.after_approval) ∧
  (Sample.bob = Sample.alice ∨ Sample.bob = Sample.bob →
   partner_transactions st' !! 200%N = None ∧
   ∀ p b, partners Sample.after_approval !! p = Some b →
     partners st' !! p =
       Some (b - (if bool_decide (Some approved = Some approved ∧ p = Sample.bob)
                  then transaction_flow p OLD else 0))).
Proof.
  apply (delete_transaction_effect Sample.bob 4%N 200%N
           (Sample.transfer Sample.alice Sample.bob 300 approved (Some Sample.bob) (Some 3%N)));
    by vm_compute.
Defined.

(** ** What a role can reach *)

Lemma perform_partners_hidden c now s st st' p :
  may_update c p = false → perform c now s st = Ok st' →
  partners st' !! p = partners st !! p.
Proof.
  intros Hm H. destruct s as [i N|i N|i|d i N|d i N|d i]; unfold perform in H.
  - ok_inv H. apply Ok_inj in H. subst st'. by apply sales_trigger_hidden.
  - destruct (daily_sales st !! i); [|apply Ok_inj in H; by subst].
    ok_inv H. apply Ok_inj in H. subst st'. by apply sales_trigger_hidden.
  - destruct (daily_sales st !! i); [|apply Ok_inj in H; by subst].
    apply Ok_inj in H. subst st'. by apply sales_trigger_hidden.
  - ok_inv H. apply Ok_inj in H. subst st'.
    destruct d; [by apply business_trigger_hidden|done].
  - destruct (tx_table d st !! i); [|apply Ok_inj in H; by subst].
    ok_inv H. apply Ok_inj in H. subst st'.
    destruct d; [by apply business_trigger_hidden|done].
  - destruct (tx_table d st !! i); [|apply Ok_inj in H; by subst].
    apply Ok_inj in H. subst st'.
    destruct d; [by apply business_trigger_hidden|done].
Qed.

Lemma step_partners_hidden st s p :
  may_update s.1.1 p = false → partners (step st s) !! p = partners st !! p.
Proof.
  intros Hm. unfold step.
  destruct (exec s.1.1 s.1.2 s.2 st) as [st'|e] eqn:He; [|done].
  apply exec_Ok in He as [[_ ->]|[_ He]]; [done|].
  by eapply perform_partners_hidden.
Qed.

(** A partner's balance is moved only by statements that this partner
    issues on the page, or that the owner of the tables issues: along any
    sequence of statements of other partners and of visitors who are not
    signed in, whatever rows they insert, approve, edit or delete, the
    balance stays what it was. *)
Theorem balance_moved_by_own_statements_only l st p :
  Forall (λ s, s.1.1 ≠ table_owner ∧ s.1.1 ≠ authenticated p) l →
  partners (run l st) !! p = partners st !! p.
Proof.
  revert st. induction l as [|s l IH]; intros st Hl; [done|].
  apply Forall_cons in Hl as [[Ho Hp] Hl]. simpl.
  rewrite IH by done. apply step_partners_hidden.
  apply not_true_is_false. rewrite may_update_spec. by intros [?|?].
Qed.

(** Bob's approval of the transfer from Alice does not reach Alice's
    balance. *)
Lemma balance_moved_by_own_statements_only_witness :
  partners Sample.after_approval !! Sample.alice
  = partners (run (take 2 Sample.approved_history) Sample.fresh) !! Sample.alice.
Proof.
  apply (balance_moved_by_own_statements_only (drop 2 Sample.approved_history)
           (run (take 2 Sample.approved_history) Sample.fresh) Sample.alice).
  by repeat constructor.
Defined.

(** The trigger events of a statement that has been carried out: the role
    has passed the policy of [personal_balances] for the pair of every
    row of the event. *)
Lemma trigger_pairs_admitted c now s st st' d ev :
  exec c now s st = Ok st' →
  transaction_event c now s st = Some (d, ev) →
  Forall (λ r, admits c (personal_balances_policy (pair_of r)) = true) (event_rows ev).
Proof.
  intros H Hev. destruct s as [i N|i N|i|d' i N|d' i N|d' i]; try done; simpl in Hev.
  - injection Hev as <- <-. apply exec_insert_tx in H as [Ha _].
    repeat constructor. by apply involved_pair.
  - destruct (tx_table d' st !! i) as [OLD|] eqn:HO; [|done]. simpl in Hev.
    destruct (admits c (transaction_update_policy OLD)) eqn:Hu; [|done].
    destruct (exec_update_tx_visible _ _ _ _ OLD _ _ _ HO Hu H) as [Hw _].
    injection Hev as <- <-.
    repeat constructor; by apply involved_pair, update_policy_involved.
  - destruct (tx_table d' st !! i) as [OLD|] eqn:HO; [|done]. simpl in Hev.
    destruct (admits c (involved_policy OLD)) eqn:Hu; [|done].
    injection Hev as <- <-. repeat constructor. by apply involved_pair.
Qed.

(** Whatever a personal transaction statement makes the trigger write to
    [personal_balances], the role that issued the statement is allowed to
    write: it is the owner of the tables or one of the two partners of the
    pair, for the old row and for the new one. *)
Theorem pair_writes_pass_policy c now s st st' ev :
  exec c now s st = Ok st' →
  transaction_event c now s st = Some (Personal, ev) →
  ∀ r, r ∈ event_rows ev →
    c = table_owner ∨ c = authenticated (pair_of r).1 ∨ c = authenticated (pair_of r).2.
Proof.
  intros H Hev r Hr.
  pose proof (trigger_pairs_admitted _ _ _ _ _ _ _ H Hev) as Hall.
  rewrite Forall_forall in Hall. specialize (Hall r Hr).
  unfold admits, personal_balances_policy in Hall.
  destruct c as [| |u]; [by left|done|]. tv_cases.
  repeat case_bool_decide; simplify_eq; auto.
Qed.

Lemma pair_writes_pass_policy_witness :
  authenticated Sample.bob = table_owner
  ∨ authenticated Sample.bob =
      authenticated (pair_of (Sample.transfer Sample.alice Sample.bob 50 approved
                                (Some Sample.bob) (Some 2%N))).1
  ∨ authenticated Sample.bob =
      authenticated (pair_of (Sample.transfer Sample.alice Sample.bob 50 approved
                                (Some Sample.bob) (Some 2%N))).2.
Proof.
  apply (pair_writes_pass_policy (authenticated Sample.bob) 2%N
           (UpdateTx Personal 300%N
              (Sample.transfer Sample.alice Sample.bob 50 approved (Some Sample.bob) None))
           (run (take 1 Sample.personal_history) Sample.fresh)
           Sample.after_personal_approval
           (UPDATE (Sample.transfer Sample.alice Sample.bob 50 pending None None)
                   (Sample.transfer Sample.alice Sample.bob 50 approved
                      (Some Sample.bob) (Some 2%N)))).
  - by vm_compute.
  - by vm_compute.
  - cbn [event_rows]. apply list_elem_of_further, list_elem_of_here.
Defined.

(** ** An approved amount change, role by role *)

(** An update that keeps a business transaction approved and changes its
    amount from X to Y, issued by a role that may update the row, makes
    the trigger adjust the sender of the new row by X - Y and its receiver
    by Y - X; each adjustment reaches the balance only if the role may
    update that partner's row.  From the page that is the balance of the
    partner who is signed in: the other party's balance does not move. *)
Theorem approved_amount_change_by_role c now id OLD NEW st st' :
  partner_transactions st !! id = Some OLD →
  status OLD = Some approved →
  status NEW = Some approved →
  admits c (transaction_update_policy OLD) = true →
  exec c now (UpdateTx Business id NEW) st = Ok st' →
  ∀ p b, partners st !! p = Some b →
    partners st' !! p =
      Some (b + (if may_update c p
                 then (if bool_decide (p = from_partner_id NEW)
                       then amount OLD - amount NEW else 0)
                      + (if bool_decide (p = to_partner_id NEW)
                         then amount NEW - amount OLD else 0)
                 else 0)).
Proof.
  intros HO Hso Hsn Hu H p b Hb.
  change (partner_transactions st) with (tx_table Business st) in HO.
  destruct (exec_update_tx _ _ _ _ _ _ _ _ HO Hu H) as (_ & Hc & _ & Hp & _).
  pose proof (approval_handler_frame Business now OLD NEW) as (Hs & Ham & Hf & Ht).
  pose proof (transaction_constraints_distinct _ _ _ Hc) as Hne.
  rewrite Hp, business_update_both_approved by congruence.
  rewrite Hf, Ht, Ham in *.
  case_bool_decide as Heq.
  - rewrite Hb, Heq. f_equal. repeat case_match; lia.
  - rewrite !update_partners_lookup, Hb.
    destruct (may_update c p); rewrite ?andb_true_r, ?andb_false_r;
      repeat case_bool_decide; simplify_eq; simpl; f_equal; lia.
Qed.

Lemma approved_amount_change_by_role_witness :
  partners (step Sample.after_approval
              (authenticated Sample.bob, 4%N,
                 UpdateTx Business 200%N
                   (Sample.transfer Sample.alice Sample.bob 450 approved
                      (Some Sample.bob) (Some 3%N)))) !! Sample.alice =
    Some (1000 + (if may_update (authenticated Sample.bob) Sample.alice
                  then (if bool_decide (Sample.alice = Sample.alice) then 300 - 450 else 0)
                       + (if bool_decide (Sample.alice = Sample.bob) then 450 - 300 else 0)
                  else 0)).
Proof.
  apply (approved_amount_change_by_role (authenticated Sample.bob) 4%N 200%N
           (Sample.transfer Sample.alice Sample.bob 300 approved (Some Sample.bob) (Some 3%N))
           (Sample.transfer Sample.alice Sample.bob 450 approved (Some Sample.bob) (Some 3%N))
           Sample.after_approval);
    by vm_compute.
Defined.

(** ** Rejecting from the page *)

(** A signed-in partner cannot set a transaction to rejected.  The UPDATE
    policies of both transaction tables give no [WITH CHECK], so their
    [USING] expression is checked on the new row as well, and it asks for
    status pending or approved: the update is refused and nothing is
    changed.  So is the rejection sent by [handleTransactionApproval]. *)
Theorem rejection_refused_from_the_page user now d id OLD NEW reason st :
  tx_table d st !! id = Some OLD →
  admits (authenticated user) (transaction_update_policy OLD) = true →
  status NEW = Some rejected →
  exec (authenticated user) now (UpdateTx d id NEW) st = Err insufficient_privilege ∧
  (d = Personal →
   handleTransactionApproval (Some user) now id reject reason st
     = (Failed insufficient_privilege, st)).
Proof.
  intros HO Hu Hs.
  assert (Hno : ∀ r, status r = Some rejected →
                     admits (authenticated user) (transaction_update_policy r) = false).
  { intros r Hr. apply not_true_is_false. rewrite transaction_update_policy_spec.
    intros [?|[_ [?|?]]]; congruence. }
  split.
  - unfold exec, row_level_security. rewrite HO, Hu, Hno; [done|].
    by rewrite (proj1 (approval_handler_frame d now OLD NEW)).
  - intros ->. unfold handleTransactionApproval.
    change (personal_transactions st) with (tx_table Personal st). rewrite HO.
    unfold exec, row_level_security. rewrite HO, Hu, Hno; [done|].
    by rewrite (proj1 (approval_handler_frame Personal now OLD _)).
Qed.

Lemma rejection_refused_from_the_page_witness :
  let st := run (take 1 Sample.personal_history) Sample.fresh in
  exec (authenticated Sample.bob) 2%N
    (UpdateTx Personal 300%N
       (Sample.transfer Sample.alice Sample.bob 50 rejected (Some Sample.bob) None)) st
    = Err insufficient_privilege ∧
  (Personal = Personal →
   handleTransactionApproval (Some Sample.bob) 2%N 300%N reject None st
     = (Failed insufficient_privilege, st)).
Proof.
  apply (rejection_refused_from_the_page Sample.bob 2%N Personal 300%N
           (Sample.transfer Sample.alice Sample.bob 50 pending None None)); by vm_compute.
Defined.

(** ** Approving on the business page *)

(** An approval through [handleApproveTransaction] counts twice for the
    partner who approves.  When one of the two parties approves a pending
    business transaction, the trigger moves that partner's balance by the
    amount, and the page then reads that balance and writes it back with
    the amount applied once more; approving again a transaction that is
    already approved is accepted too and applies the amount yet again.
    The other party's balance, like every other balance, is reached
    neither by the trigger nor by the page. *)
Theorem approval_on_business_page_counts_twice js_plus js_minus user now client_now
    id reason OLD st b :
  partner_transactions st !! id = Some OLD →
  status OLD = Some pending ∨ status OLD = Some approved →
  transaction_constraints Business OLD st = Ok () →
  user = from_partner_id OLD ∨ user = to_partner_id OLD →
  partners st !! user = Some b →
  let first := bool_decide (status OLD = Some pending) in
  ∃ st', handleApproveTransaction js_plus js_minus (Some user) now client_now id
           approve reason st = (Completed, st') ∧
    (status <$> partner_transactions st' !! id) = Some (Some approved) ∧
    partners st' !! user =
      Some (if bool_decide (user = from_partner_id OLD)
            then js_minus (b - (if first then amount OLD else 0)) (amount OLD)
            else js_plus (b + (if first then amount OLD else 0)) (amount OLD)) ∧
    (∀ p, p ≠ user → partners st' !! p = partners st !! p).
Proof.
  intros HO Hso Hc Hparty Hb first.
  pose proof (transaction_constraints_distinct _ _ _ Hc) as Hne.
  destruct (transaction_constraints_references _ _ _ Hc) as [[bf Hbf] [bt Hbt]].
  unfold handleApproveTransaction. rewrite HO.
  change (partner_transactions st) with (tx_table Business st) in HO.
  set (updateData := {| from_partner_id := from_partner_id OLD;
                        to_partner_id := to_partner_id OLD; amount := amount OLD;
                        transaction_date := transaction_date OLD;
                        status := Some approved; approved_by := Some user;
                        approved_at := Some client_now;
                        rejection_reason := rejection_reason OLD |}).
  set (r := transaction_approval_handler Business now OLD updateData).
  pose proof (approval_handler_frame Business now OLD updateData) as (Hs & Ham & Hf & Ht).
  fold r in Hs, Ham, Hf, Ht. simpl in Hs, Ham, Hf, Ht.
  assert (Hu : admits (authenticated user) (transaction_update_policy OLD) = true).
  { apply transaction_update_policy_spec. right.
    split; [destruct Hparty as [->| ->]; auto|done]. }
  assert (Hw : admits (authenticated user) (transaction_update_policy r) = true).
  { apply transaction_update_policy_spec. right. rewrite Hf, Ht, Hs.
    split; [destruct Hparty as [->| ->]; auto|by right]. }
  assert (Hby : approved_by r = Some user).
  { unfold r. by rewrite approval_handler_approved_by. }
  assert (Hat : is_Some (approved_at r)).
  { unfold r. simpl. unfold handle_business_transaction_approval.
    cbv zeta. rewrite !status_is_holds. tv_cases.
    destruct (status OLD) as [[]|]; simpl; by eexists. }
  assert (Hcr : transaction_constraints Business r st = Ok ()).
  { apply transaction_constraints_Ok in Hc as (Hfk & Hd & _ & _).
    apply transaction_constraints_Ok. rewrite !andb_true_iff in Hfk.
    destruct Hfk as [[Hfk1 Hfk2] _]. repeat split.
    - rewrite Hf, Ht, Hby, !andb_true_iff. repeat split; [done|done|].
      simpl. apply bool_decide_eq_true_2. by eexists.
    - unfold different_partners. by rewrite Hf, Ht.
    - done.
    - unfold valid_approval_status. tv_cases. rewrite Hs, Hby. simpl.
      destruct Hat as [x ->]. done. }
  assert (He : exec (authenticated user) now (UpdateTx Business id updateData) st
               = Ok (transaction_balance_update (authenticated user) Business (UPDATE OLD r)
                       (set_tx_table Business (<[id := r]> (tx_table Business st)) st))).
  { unfold exec, row_level_security, perform. rewrite HO, Hu. fold r. by rewrite Hw, Hcr. }
  rewrite He. clear He. proj_simpl.
  set (t1 := update_business_partner_balances (authenticated user) (UPDATE OLD r) (partners st)).
  assert (Ht1 : ∀ p, t1 !! p =
            (λ x, x + (if may_update (authenticated user) p
                       then (if first then transaction_flow p OLD else 0) else 0))
              <$> partners st !! p).
  { intros p. unfold t1, first. rewrite business_trigger_lookup.
    - cbn [event_delta]. rewrite !transaction_share_cases by congruence.
      rewrite Hs, Hf, Ht, Ham. unfold transaction_flow.
      destruct (may_update (authenticated user) p), (partners st !! p),
        Hso as [Hso|Hso]; rewrite ?Hso; simpl; try done; f_equal;
        repeat case_bool_decide; simplify_eq; lia.
    - repeat constructor; congruence.
    - unfold keeps_parties. rewrite Hs.
      destruct Hso as [-> | ->]; [done|]. apply bool_decide_eq_true_2. by rewrite Hf, Ht. }
  assert (is_Some (t1 !! from_partner_id OLD)) as [sender Hsender].
  { rewrite Ht1, Hbf. by eexists. }
  assert (is_Some (t1 !! to_partner_id OLD)) as [receiver Hreceiver].
  { rewrite Ht1, Hbt. by eexists. }
  rewrite Hsender, Hreceiver. eexists. split; [reflexivity|]. proj_simpl. split.
  { by rewrite lookup_insert_eq, <- Hs. }
  assert (Hmay : ∀ p, may_update (authenticated user) p = bool_decide (user = p))
    by apply may_update_authenticated.
  rewrite Ht1, Hmay, Hbf in Hsender. rewrite Ht1, Hmay, Hbt in Hreceiver.
  simpl in Hsender, Hreceiver. injection Hsender as <-. injection Hreceiver as <-.
  unfold transaction_flow.
  rewrite (bool_decide_eq_true_2 (from_partner_id OLD = from_partner_id OLD)) by done.
  rewrite (bool_decide_eq_true_2 (to_partner_id OLD = to_partner_id OLD)) by done.
  rewrite (bool_decide_eq_false_2 (to_partner_id OLD = from_partner_id OLD)) by done.
  rewrite (bool_decide_eq_false_2 (from_partner_id OLD = to_partner_id OLD)) by done.
  split.
  - destruct Hparty as [Hp|Hp]; subst user; simplify_eq;
      rewrite !update_partners_lookup, !Hmay, Ht1, Hmay, Hb;
      repeat (case_bool_decide; simplify_eq); simpl; f_equal; f_equal;
      destruct first; lia.
  - intros p Hp. rewrite !update_partners_lookup, !Hmay.
    rewrite (bool_decide_eq_false_2 (user = p)) by done.
    rewrite !andb_false_r, Ht1, Hmay.
    rewrite (bool_decide_eq_false_2 (user = p)) by done.
    destruct (partners st !! p); simpl; [f_equal; lia|done].
Qed.

(** Bob approves on that page the 300 that Alice has sent him, and then
    approves once more. *)
Lemma approval_on_business_page_counts_twice_witness :
  let st := run (take 2 Sample.approved_history) Sample.fresh in
  ∃ st', handleApproveTransaction Z.add Z.sub (Some Sample.bob) 3%N 3%N 200%N
           approve None st = (Completed, st') ∧
    (status <$> partner_transactions st' !! 200%N) = Some (Some approved) ∧
    partners st' !! Sample.bob =
      Some (if bool_decide (Sample.bob = Sample.alice)
            then 0 - 300 - 300 else 0 + 300 + 300) ∧
    (∀ p, p ≠ Sample.bob → partners st' !! p = partners st !! p).
Proof.
  apply (approval_on_business_page_counts_twice Z.add Z.sub Sample.bob 3%N 3%N 200%N None
           (Sample.transfer Sample.alice Sample.bob 300 pending None None)
           (run (take 2 Sample.approved_history) Sample.fresh) 0);
    try by vm_compute.
  - by left.
  - by right.
Defined.
